(** * Entity resolution and cross-reference pipeline: a shallow embedding

    The development follows the TypeScript sources of the extraction
    package and the PostgreSQL schema they run against:

    - [db.ts]                 the statements issued through the shared pool;
    - [ner/extractor.ts]      the extraction client and its zod schemas;
    - [scripts/extract-entities.ts]   the orchestrator;
    - [scripts/crossref-match.ts]     the cross-reference matcher;
    - the document extraction script  the loader of the OCR text;
    - [schema.sql]            tables, constraints and the seeded root entity.

    Tables are lists of rows in scan order.  Every SQL statement is one
    atomic function on the database; a JavaScript [async] function is a
    program in a small resumption monad whose steps are the awaited calls. *)

From Stdlib Require Import ZArith QArith String Ascii List.
From stdpp Require Import base option list gmap strings.

Local Open Scope string_scope.
Local Open Scope list_scope.
Local Open Scope Z_scope.

(** ** JavaScript values shared by the modules *)

(** An [Error] object as far as the code observes it: its [name] and its
    [message]. *)
Record JsError := mkJsError { error_name : string; error_message : string }.

(** [new Error(msg)]. *)
Definition Error (msg : string) : JsError := mkJsError "Error" msg.

(** [String(error)] for an [Error] object, that is [Error.prototype.toString]. *)
Definition String_ (e : JsError) : string :=
  if decide (error_name e = "") then error_message e
  else if decide (error_message e = "") then error_name e
  else error_name e +:+ ": " +:+ error_message e.

(** The outcome of an awaited call: it resolves with a value or rejects. *)
Inductive Result (A : Type) : Type :=
| Ok (a : A)
| Err (e : JsError).
Arguments Ok {A} a.
Arguments Err {A} e.

(** A [Date] object: [Some ms] is a time value, [None] is [Invalid Date]. *)
Definition JsDate := option Z.

(** JavaScript truthiness of a string that may be [null] or [undefined]. *)
Definition truthy (s : option string) : option string :=
  match s with
  | Some s' => if decide (s' = "") then None else Some s'
  | None => None
  end.

(** ** The database (schema.sql) *)

(** [CREATE TYPE entity_type AS ENUM (...)]. *)
Module entity_type.
Inductive t := person | organization | location | date | reference | financial | unknown.

#[global] Instance eq_dec : EqDecision t.
Proof. solve_decision. Defined.

Definition label (x : t) : string :=
  match x with
  | person => "person" | organization => "organization"
  | location => "location" | date => "date" | reference => "reference"
  | financial => "financial" | unknown => "unknown"
  end.

Definition all : list t :=
  [person; organization; location; date; reference; financial; unknown].

(** The cast [$2::entity_type]: the label of an enum value, or no value. *)
Definition cast (s : string) : option t :=
  List.find (fun x => bool_decide (label x = s)) all.
End entity_type.

(** [CREATE TYPE match_source AS ENUM ('ppp', 'fec', 'grants')]. *)
Module match_source.
Inductive t := ppp | fec | grants.

#[global] Instance eq_dec : EqDecision t.
Proof. solve_decision. Defined.
End match_source.

(** Rows carry the columns the pipeline reads or writes.  The columns left
    out ([dataset_id], [file_path], [page_count], the statistics that the
    trigger [update_entity_stats] maintains, the cached match lists and all
    timestamps) are neither read by the modelled statements nor part of a
    key. *)
Record documents_row := mk_documents_row {
  d_id : Z;                                (* SERIAL PRIMARY KEY *)
  d_doc_id : string;                       (* TEXT UNIQUE NOT NULL *)
  d_full_text : option string;             (* TEXT *)
  d_summary : option string;
  d_detailed_summary : option string;
  d_document_type : option string;
  d_date_earliest : option Z;              (* DATE *)
  d_date_latest : option Z;
  d_content_tags : option (list string);   (* JSONB DEFAULT '[]' *)
  d_analysis_status : option string;       (* TEXT DEFAULT 'pending' *)
  d_error_message : option string
}.

Record entities_row := mk_entities_row {
  e_id : Z;                                (* SERIAL PRIMARY KEY *)
  e_canonical_name : string;               (* TEXT NOT NULL *)
  e_entity_type : entity_type.t;           (* entity_type NOT NULL *)
  e_layer : option Z;                      (* INTEGER *)
  e_aliases : option (list string);        (* JSONB DEFAULT '[]' *)
  e_description : option string
}.

Record document_entities_row := mk_document_entities_row {
  de_id : Z;
  de_document_id : Z;                      (* REFERENCES documents(id) *)
  de_entity_id : Z;                        (* REFERENCES entities(id) *)
  de_mention_count : option Z;             (* INTEGER DEFAULT 1 *)
  de_context_snippet : option string
}.

Record triples_row := mk_triples_row {
  t_id : Z;
  t_document_id : Z;
  t_subject_id : Z;
  t_predicate : string;
  t_object_id : Z;
  t_location_id : option Z;
  t_timestamp : option Z;
  t_explicit_topic : option string;
  t_implicit_topic : option string;
  t_tags : list string;
  t_sequence_order : option Z
}.

Record entity_crossref_matches_row := mk_entity_crossref_matches_row {
  m_id : Z;                                (* SERIAL PRIMARY KEY, the only key *)
  m_entity_id : Z;                         (* REFERENCES entities(id) *)
  m_source : match_source.t;
  m_source_id : Z;
  m_match_score : Q;                       (* REAL *)
  m_match_method : option string;
  m_verified : bool;                       (* DEFAULT FALSE *)
  m_false_positive : bool                  (* DEFAULT FALSE *)
}.

(** The tables with the sequences behind their [SERIAL] columns.  A
    sequence field holds the value the next [nextval] returns. *)
Record DB := mkDB {
  documents : list documents_row;
  entities : list entities_row;
  entities_id_seq : Z;
  document_entities : list document_entities_row;
  document_entities_id_seq : Z;
  triples : list triples_row;
  triples_id_seq : Z;
  entity_crossref_matches : list entity_crossref_matches_row;
  entity_crossref_matches_id_seq : Z
}.

Definition set_documents (f : list documents_row -> list documents_row) (db : DB) : DB :=
  mkDB (f (documents db)) (entities db) (entities_id_seq db)
       (document_entities db) (document_entities_id_seq db)
       (triples db) (triples_id_seq db)
       (entity_crossref_matches db) (entity_crossref_matches_id_seq db).

Definition set_entities (f : list entities_row -> list entities_row) (db : DB) : DB :=
  mkDB (documents db) (f (entities db)) (entities_id_seq db)
       (document_entities db) (document_entities_id_seq db)
       (triples db) (triples_id_seq db)
       (entity_crossref_matches db) (entity_crossref_matches_id_seq db).

Definition set_entities_id_seq (n : Z) (db : DB) : DB :=
  mkDB (documents db) (entities db) n
       (document_entities db) (document_entities_id_seq db)
       (triples db) (triples_id_seq db)
       (entity_crossref_matches db) (entity_crossref_matches_id_seq db).

Definition set_document_entities
    (f : list document_entities_row -> list document_entities_row) (db : DB) : DB :=
  mkDB (documents db) (entities db) (entities_id_seq db)
       (f (document_entities db)) (document_entities_id_seq db)
       (triples db) (triples_id_seq db)
       (entity_crossref_matches db) (entity_crossref_matches_id_seq db).

Definition set_document_entities_id_seq (n : Z) (db : DB) : DB :=
  mkDB (documents db) (entities db) (entities_id_seq db)
       (document_entities db) n
       (triples db) (triples_id_seq db)
       (entity_crossref_matches db) (entity_crossref_matches_id_seq db).

Definition set_triples (f : list triples_row -> list triples_row) (db : DB) : DB :=
  mkDB (documents db) (entities db) (entities_id_seq db)
       (document_entities db) (document_entities_id_seq db)
       (f (triples db)) (triples_id_seq db)
       (entity_crossref_matches db) (entity_crossref_matches_id_seq db).

Definition set_triples_id_seq (n : Z) (db : DB) : DB :=
  mkDB (documents db) (entities db) (entities_id_seq db)
       (document_entities db) (document_entities_id_seq db)
       (triples db) n
       (entity_crossref_matches db) (entity_crossref_matches_id_seq db).

Definition set_entity_crossref_matches
    (f : list entity_crossref_matches_row -> list entity_crossref_matches_row)
    (db : DB) : DB :=
  mkDB (documents db) (entities db) (entities_id_seq db)
       (document_entities db) (document_entities_id_seq db)
       (triples db) (triples_id_seq db)
       (f (entity_crossref_matches db)) (entity_crossref_matches_id_seq db).

Definition set_entity_crossref_matches_id_seq (n : Z) (db : DB) : DB :=
  mkDB (documents db) (entities db) (entities_id_seq db)
       (document_entities db) (document_entities_id_seq db)
       (triples db) (triples_id_seq db)
       (entity_crossref_matches db) n.

(** The error a failed statement rejects with (node-postgres [DatabaseError]). *)
Definition DatabaseError (msg : string) : JsError := mkJsError "error" msg.

(** A statement: one atomic step on the database that resolves or rejects. *)
Definition Stmt (A : Type) : Type := DB -> Result A * DB.

(** ** Statements of db.ts *)

Definition sql_eq_text (col : option string) (v : string) : bool :=
  match col with Some s => bool_decide (s = v) | None => false end.

(** [UPDATE documents SET analysis_status = 'processing' WHERE id = $1]
    (issued inline by [processDocument]). *)
Definition mark_processing (id : Z) : Stmt unit := fun db =>
  (Ok tt,
   set_documents (fmap (fun r =>
     if bool_decide (d_id r = id) then
       mk_documents_row (d_id r) (d_doc_id r) (d_full_text r) (d_summary r)
         (d_detailed_summary r) (d_document_type r) (d_date_earliest r)
         (d_date_latest r) (d_content_tags r) (Some "processing")
         (d_error_message r)
     else r)) db).

(** [UPDATE documents SET analysis_status = 'failed', error_message = $2,
    updated_at = NOW() WHERE id = $1] (the [catch] of [processDocument]). *)
Definition mark_failed (id : Z) (error_text : string) : Stmt unit := fun db =>
  (Ok tt,
   set_documents (fmap (fun r =>
     if bool_decide (d_id r = id) then
       mk_documents_row (d_id r) (d_doc_id r) (d_full_text r) (d_summary r)
         (d_detailed_summary r) (d_document_type r) (d_date_earliest r)
         (d_date_latest r) (d_content_tags r) (Some "failed")
         (Some error_text)
     else r)) db).

(** A [Date] parameter: node-postgres prints the date, and the server
    rejects the text printed for [Invalid Date]; [undefined] is sent as
    [NULL]. *)
Definition date_param (d : option JsDate) : Result (option Z) :=
  match d with
  | None => Ok None
  | Some (Some ms) => Ok (Some ms)
  | Some None => Err (DatabaseError "invalid input syntax for type date")
  end.

Record AnalysisUpdate := mkAnalysisUpdate {
  u_summary : string;
  u_detailedSummary : string;
  u_documentType : string;
  u_dateEarliest : option JsDate;
  u_dateLatest : option JsDate;
  u_contentTags : list string
}.

(** The statement of [updateDocumentAnalysis]. *)
Definition updateDocumentAnalysis_stmt (docId : string) (analysis : AnalysisUpdate)
    : Stmt unit := fun db =>
  match date_param (u_dateEarliest analysis), date_param (u_dateLatest analysis) with
  | Ok de, Ok dl =>
      (Ok tt,
       set_documents (fmap (fun r =>
         if bool_decide (d_doc_id r = docId) then
           mk_documents_row (d_id r) (d_doc_id r) (d_full_text r)
             (Some (u_summary analysis)) (Some (u_detailedSummary analysis))
             (Some (u_documentType analysis)) de dl
             (Some (u_contentTags analysis)) (Some "complete")
             (d_error_message r)
         else r)) db)
  | Err e, _ | _, Err e => (Err e, db)
  end.

(** The objects [getDocumentsPendingAnalysis] returns. *)
Module PendingDocument.
Record t := mk { id : Z; docId : string; fullText : string }.
End PendingDocument.

(** The [WHERE] clause of [getDocumentsPendingAnalysis]:
    [analysis_status = 'pending' AND full_text IS NOT NULL]. *)
Definition pending_with_text (r : documents_row) : bool :=
  sql_eq_text (d_analysis_status r) "pending" && bool_decide (is_Some (d_full_text r)).

Definition pending_row (r : documents_row) : option PendingDocument.t :=
  if pending_with_text r then
    match d_full_text r with
    | Some t => Some (PendingDocument.mk (d_id r) (d_doc_id r) t)
    | None => None
    end
  else None.

(** The statement of [getDocumentsPendingAnalysis]: the first [limit]
    qualifying rows in scan order, mapped to [{id, docId, fullText}]. *)
Definition getDocumentsPendingAnalysis_stmt (limit : nat) : Stmt (list PendingDocument.t) :=
  fun db => (Ok (take limit (omap pending_row (documents db))), db).

(** [entities.aliases || EXCLUDED.aliases] is [NULL] when an operand is. *)
Definition jsonb_concat (a b : option (list string)) : option (list string) :=
  match a, b with
  | Some x, Some y => Some (x ++ y)
  | _, _ => None
  end.

Definition COALESCE {A} (xs : list (option A)) : option A :=
  List.fold_right (fun x acc => match x with Some _ => x | None => acc end) None xs.

Definition entity_key_eqb (nm : string) (ty : entity_type.t) (r : entities_row) : bool :=
  bool_decide (e_canonical_name r = nm) && bool_decide (e_entity_type r = ty).

(** The statement of [upsertEntity]:
    [INSERT ... ON CONFLICT (canonical_name, entity_type) DO UPDATE SET
     aliases = COALESCE(...) RETURNING id].  The default of [id] draws from
     the sequence before the arbiter index is consulted, so the sequence
     advances on the conflict path too. *)
Definition upsertEntity_stmt (canonicalName entityType : string)
    (aliases : list string) (description : option string) : Stmt Z := fun db =>
  match entity_type.cast entityType with
  | None => (Err (DatabaseError "invalid input value for enum entity_type"), db)
  | Some ty =>
      let new_id := entities_id_seq db in
      let db1 := set_entities_id_seq (new_id + 1) db in
      match List.find (entity_key_eqb canonicalName ty) (entities db) with
      | Some r =>
          (Ok (e_id r),
           set_entities (fmap (fun x =>
             if entity_key_eqb canonicalName ty x then
               mk_entities_row (e_id x) (e_canonical_name x) (e_entity_type x)
                 (e_layer x)
                 (COALESCE [jsonb_concat (e_aliases x) (Some aliases);
                            e_aliases x; Some aliases])
                 (e_description x)
             else x)) db1)
      | None =>
          if bool_decide (new_id ∈ fmap e_id (entities db)) then
            (Err (DatabaseError "duplicate key value violates unique constraint entities_pkey"),
             db1)
          else
            (Ok new_id,
             set_entities (fun es => es ++
               [mk_entities_row new_id canonicalName ty None (Some aliases) description])
               db1)
      end
  end.

Definition fk_documents (id : Z) (db : DB) : bool :=
  bool_decide (id ∈ fmap d_id (documents db)).
Definition fk_entities (id : Z) (db : DB) : bool :=
  bool_decide (id ∈ fmap e_id (entities db)).

Definition de_key_eqb (documentId entityId : Z) (r : document_entities_row) : bool :=
  bool_decide (de_document_id r = documentId) && bool_decide (de_entity_id r = entityId).

Definition sql_add (a b : option Z) : option Z :=
  match a, b with Some x, Some y => Some (x + y) | _, _ => None end.

(** The statement of [linkEntityToDocument]:
    [INSERT ... ON CONFLICT (document_id, entity_id) DO UPDATE SET
     mention_count = document_entities.mention_count + EXCLUDED.mention_count]. *)
Definition linkEntityToDocument_stmt (entityId documentId mentionCount : Z)
    (contextSnippet : option string) : Stmt unit := fun db =>
  let new_id := document_entities_id_seq db in
  let db1 := set_document_entities_id_seq (new_id + 1) db in
  if existsb (de_key_eqb documentId entityId) (document_entities db) then
    (Ok tt,
     set_document_entities (fmap (fun x =>
       if de_key_eqb documentId entityId x then
         mk_document_entities_row (de_id x) (de_document_id x) (de_entity_id x)
           (sql_add (de_mention_count x) (Some mentionCount)) (de_context_snippet x)
       else x)) db1)
  else if negb (fk_documents documentId db && fk_entities entityId db) then
    (Err (DatabaseError "insert on table document_entities violates foreign key constraint"),
     db1)
  else if bool_decide (new_id ∈ fmap de_id (document_entities db)) then
    (Err (DatabaseError "duplicate key value violates unique constraint document_entities_pkey"),
     db1)
  else
    (Ok tt,
     set_document_entities (fun l => l ++
       [mk_document_entities_row new_id documentId entityId (Some mentionCount)
          contextSnippet]) db1).

Record TripleInsert := mkTripleInsert {
  i_documentId : Z;
  i_subjectId : Z;
  i_predicate : string;
  i_objectId : Z;
  i_locationId : option Z;
  i_timestamp : option JsDate;
  i_explicitTopic : option string;
  i_implicitTopic : option string;
  i_tags : option (list string);
  i_sequenceOrder : Z
}.

(** The statement of [insertTriple]: a plain [INSERT ... RETURNING id]. *)
Definition insertTriple_stmt (triple : TripleInsert) : Stmt Z := fun db =>
  match date_param (i_timestamp triple) with
  | Err e => (Err e, db)
  | Ok ts =>
      let new_id := triples_id_seq db in
      let db1 := set_triples_id_seq (new_id + 1) db in
      if negb (fk_documents (i_documentId triple) db
               && fk_entities (i_subjectId triple) db
               && fk_entities (i_objectId triple) db
               && match i_locationId triple with
                  | Some l => fk_entities l db
                  | None => true
                  end) then
        (Err (DatabaseError "insert on table triples violates foreign key constraint"), db1)
      else if bool_decide (new_id ∈ fmap t_id (triples db)) then
        (Err (DatabaseError "duplicate key value violates unique constraint triples_pkey"), db1)
      else
        (Ok new_id,
         set_triples (fun l => l ++
           [mk_triples_row new_id (i_documentId triple) (i_subjectId triple)
              (i_predicate triple) (i_objectId triple) (i_locationId triple) ts
              (i_explicitTopic triple) (i_implicitTopic triple)
              (default [] (i_tags triple)) (Some (i_sequenceOrder triple))]) db1)
  end.

(** ** The program monad

    An [async] function is a tree of atomic steps.  A step is an awaited
    call, or a piece of synchronous code touching the module-level counters
    of extract-entities.ts; it acts on the world in one piece and resolves
    or rejects, and the continuation receives the outcome. *)

Record World := mkWorld {
  db : DB;
  processed : Z;
  errors : Z;
  totalEntities : Z;
  totalTriples : Z
}.

Definition set_db (f : DB -> DB) (w : World) : World :=
  mkWorld (f (db w)) (processed w) (errors w) (totalEntities w) (totalTriples w).

Inductive Prog (A : Type) : Type :=
| Ret (a : A)
| Throw (e : JsError)
| Step {B : Type} (act : World -> Result B * World) (k : Result B -> Prog A).
Arguments Ret {A} a.
Arguments Throw {A} e.
Arguments Step {A B} act k.

Fixpoint bind {A B} (p : Prog A) (f : A -> Prog B) : Prog B :=
  match p with
  | Ret a => f a
  | Throw e => Throw e
  | Step act k => Step act (fun r => bind (k r) f)
  end.

#[global] Instance Prog_ret : MRet Prog := fun _ a => Ret a.
#[global] Instance Prog_bind : MBind Prog := fun _ _ f p => bind p f.

(** [try { p } catch (error) { h error }]. *)
Fixpoint try_catch {A} (p : Prog A) (h : JsError -> Prog A) : Prog A :=
  match p with
  | Ret a => Ret a
  | Throw e => h e
  | Step act k => Step act (fun r => try_catch (k r) h)
  end.

(** [await call]: a rejection is thrown at the await. *)
Definition await {B} (act : World -> Result B * World) : Prog B :=
  Step act (fun r => match r with Ok b => Ret b | Err e => Throw e end).

(** [await pool.query(...)]. *)
Definition pool_query {B} (s : Stmt B) : Prog B :=
  await (fun w => let '(r, d) := s (db w) in (r, set_db (fun _ => d) w)).

(** Synchronous code on the counters. *)
Definition sync (f : World -> World) : Prog unit :=
  Step (fun w => (Ok tt, f w)) (fun _ => Ret tt).


(** Running a program alone, with no other task between its steps: the
    outcome, the final world, and the world as it stood after each step. *)
Fixpoint run {A} (p : Prog A) (w : World) : Result A * World * list World :=
  match p with
  | Ret a => (Ok a, w, [])
  | Throw e => (Err e, w, [])
  | Step act k =>
      let '(r, w1) := act w in
      let '(res, w2, tr) := run (k r) w1 in
      (res, w2, w1 :: tr)
  end.

Definition outcome {A} (x : Result A * World * list World) : Result A := x.1.1.
Definition final {A} (x : Result A * World * list World) : World := x.1.2.
Definition trace {A} (x : Result A * World * list World) : list World := x.2.

(** Tasks running together, as under [Promise.all]: a step of the pool is
    the next step of any one unfinished task.  The [pLimit(MAX_WORKERS)]
    wrapper only holds some tasks back, so every schedule it allows is one
    of these. *)
Inductive pool_step : World * list (Prog unit) -> World * list (Prog unit) -> Prop :=
| pool_step_task w tasks i B (act : World -> Result B * World) k :
    tasks !! i = Some (Step act k) ->
    pool_step (w, tasks) ((act w).2, <[i := k (act w).1]> tasks).

Definition settled (p : Prog unit) : bool :=
  match p with Step _ _ => false | _ => true end.

(** ** The extraction client (ner/extractor.ts) *)

(** The value [JSON.parse] returns; an object lists each key once. *)
#[local] Set Warnings "-register-all".
Inductive json :=
| JNull
| JBool (b : bool)
| JNumber (lexeme : string)
| JString (s : string)
| JArray (items : list json)
| JObject (fields : list (string * json)).

(** Property access; an absent key reads as [undefined]. *)
Definition get (key : string) (fields : list (string * json)) : option json :=
  snd <$> List.find (fun kv => bool_decide (kv.1 = key)) fields.

(** A zod schema parses a value that may be [undefined] ([None]). *)
Definition zod (A : Type) : Type := option json -> option A.

Definition z_string : zod string := fun j =>
  match j with Some (JString s) => Some s | _ => None end.

Definition z_enum (labels : list string) : zod string := fun j =>
  match j with
  | Some (JString s) => if bool_decide (s ∈ labels) then Some s else None
  | _ => None
  end.

Definition z_optional {A} (f : zod A) : zod (option A) := fun j =>
  match j with None => Some None | Some _ => Some <$> f j end.

Definition z_nullable {A} (f : zod A) : zod (option A) := fun j =>
  match j with Some JNull => Some None | _ => Some <$> f j end.

Definition z_array {A} (f : zod A) : zod (list A) := fun j =>
  match j with
  | Some (JArray items) => mapM (fun x => f (Some x)) items
  | _ => None
  end.

(** [z.object({...})]: the value must be an object; unknown keys are
    stripped. *)
Definition z_object {A} (shape : list (string * json) -> option A) : zod A := fun j =>
  match j with Some (JObject fields) => shape fields | _ => None end.

Module Entity.
Record t := mk { name : string; type : string; context : option string }.
End Entity.

Module Triple.
Record t := mk {
  subject : string;
  subjectType : string;
  predicate : string;
  object : string;
  objectType : string;
  location : option string;
  timestamp : option string;
  explicitTopic : option string;
  implicitTopic : option string;
  tags : option (list string)
}.
End Triple.

Module DocumentAnalysis.
Record t := mk {
  summary : string;
  detailedSummary : string;
  documentType : string;
  dateEarliest : option string;
  dateLatest : option string;
  contentTags : list string;
  entities : list Entity.t;
  triples : list Triple.t
}.
End DocumentAnalysis.

Definition EntitySchema : zod Entity.t := z_object (fun o =>
  name ← z_string (get "name" o);
  type ← z_enum ["person"; "organization"; "location"; "date"; "reference"; "financial"]
           (get "type" o);
  context ← z_optional z_string (get "context" o);
  Some (Entity.mk name type context)).

Definition TripleSchema : zod Triple.t := z_object (fun o =>
  subject ← z_string (get "subject" o);
  subjectType ← z_enum ["person"; "organization"; "location"] (get "subjectType" o);
  predicate ← z_string (get "predicate" o);
  object ← z_string (get "object" o);
  objectType ← z_enum ["person"; "organization"; "location"; "date"; "reference"; "financial"]
                 (get "objectType" o);
  location ← z_optional z_string (get "location" o);
  timestamp ← z_optional z_string (get "timestamp" o);
  explicitTopic ← z_optional z_string (get "explicitTopic" o);
  implicitTopic ← z_optional z_string (get "implicitTopic" o);
  tags ← z_optional (z_array z_string) (get "tags" o);
  Some (Triple.mk subject subjectType predicate object objectType location timestamp
          explicitTopic implicitTopic tags)).

Definition DocumentAnalysisSchema : zod DocumentAnalysis.t := z_object (fun o =>
  summary ← z_string (get "summary" o);
  detailedSummary ← z_string (get "detailedSummary" o);
  documentType ← z_string (get "documentType" o);
  dateEarliest ← z_nullable z_string (get "dateEarliest" o);
  dateLatest ← z_nullable z_string (get "dateLatest" o);
  contentTags ← z_array z_string (get "contentTags" o);
  entities ← z_array EntitySchema (get "entities" o);
  triples ← z_array TripleSchema (get "triples" o);
  Some (DocumentAnalysis.mk summary detailedSummary documentType dateEarliest dateLatest
          contentTags entities triples)).

(** A content block of the provider's response. *)
Inductive ContentBlock :=
| TextBlock (text : string)
| OtherBlock (type : string).

(** What the code takes from the JavaScript runtime and from the provider:
    [Date.parse] ([None] is [NaN]), [JSON.parse] (a value, or the message of
    the [SyntaxError]), [String.prototype.toLowerCase], the message of a
    [ZodError], and [anthropic.messages.create] as a function of the system
    prompt and the user message. *)
Record Runtime := mkRuntime {
  Date_parse : string -> option Z;
  JSON_parse : string -> json + string;
  toLowerCase : string -> string;
  ZodError_message : json -> string;
  messages_create : string -> string -> Result (list ContentBlock)
}.

(** [text.slice(0, n)]. *)
Definition slice0 (n : nat) (text : string) : string := String.substring 0 n text.

Definition maxChars : Z := 100000.

Definition nl : string := String "010"%char EmptyString.

(** The marker appended to a truncated text:
    a blank line, then [[TRUNCATED - document continues...]]. *)
Definition TRUNCATION_MARKER : string :=
  nl +:+ nl +:+ "[TRUNCATED - document continues...]".

(** The constant [truncatedText] of [extractFromDocument]. *)
Definition truncatedText (text : string) : string :=
  if Z.of_nat (String.length text) >? maxChars
  then slice0 (Z.to_nat maxChars) text +:+ TRUNCATION_MARKER
  else text.

(** [s.endsWith(suffix)]. *)
Definition ends_with (suffix s : string) : Prop := exists p, s = p +:+ suffix.

(** The match of [/\{[\s\S]*\}/]: from the first opening brace to the last
    closing brace after it. *)
Fixpoint upto_last_brace (s : string) : option string :=
  match s with
  | EmptyString => None
  | String c s' =>
      match upto_last_brace s' with
      | Some m => Some (String c m)
      | None => if Ascii.eqb c "}" then Some (String c EmptyString) else None
      end
  end.

Fixpoint jsonMatch (s : string) : option string :=
  match s with
  | EmptyString => None
  | String c s' =>
      if Ascii.eqb c "{" then String c <$> upto_last_brace s'
      else jsonMatch s'
  end.

(** Prompt texts are written with [^] where the source has a double quote. *)
Definition quoted (s : string) : string :=
  string_of_list_ascii
    (fmap (fun c => if Ascii.eqb c "^" then "034"%char else c) (list_ascii_of_string s)).

Definition EXTRACTION_SYSTEM_PROMPT : string := quoted
"You are an expert document analyst specializing in legal documents, financial records, and correspondence. Your task is to extract structured information from documents related to the Jeffrey Epstein case.

Extract the following:

1. **Entities**: All people, organizations, locations, dates, document references, and financial amounts mentioned.
2. **Relationships (Triples)**: Subject-Predicate-Object relationships between entities.
3. **Document Analysis**: Summary, type classification, date range, and content tags.

Be thorough but precise. If information is unclear or partially redacted, note what you can determine. Focus on factual extraction, not interpretation.

IMPORTANT: 
- Normalize names where possible (e.g., ^J. Epstein^ → ^Jeffrey Epstein^ if context confirms)
- Include context snippets for important entities
- Extract temporal information when available
- Tag relationships with relevant categories (legal, financial, travel, social, etc.)".

Definition EXTRACTION_USER_PROMPT (text : string) : string :=
"Analyze this document and extract structured information.

<document>
" +:+ text +:+ quoted "
</document>

Respond with a JSON object matching this schema:
{
  ^summary^: ^One sentence summary of the document^,
  ^detailedSummary^: ^A paragraph explaining the document's content and significance^,
  ^documentType^: ^Type of document (e.g., deposition, email, financial record, flight log, etc.)^,
  ^dateEarliest^: ^YYYY-MM-DD or null if no dates^,
  ^dateLatest^: ^YYYY-MM-DD or null if no dates^,
  ^contentTags^: [^tag1^, ^tag2^, ...],
  ^entities^: [
    {^name^: ^Full Name^, ^type^: ^person|organization|location|date|reference|financial^, ^context^: ^brief context^}
  ],
  ^triples^: [
    {
      ^subject^: ^Entity Name^,
      ^subjectType^: ^person|organization|location^,
      ^predicate^: ^action/relationship verb^,
      ^object^: ^Entity Name^,
      ^objectType^: ^person|organization|location|date|reference|financial^,
      ^location^: ^where (optional)^,
      ^timestamp^: ^YYYY-MM-DD (optional)^,
      ^explicitTopic^: ^stated subject matter (optional)^,
      ^implicitTopic^: ^inferred subject matter (optional)^,
      ^tags^: [^legal^, ^financial^, ^travel^, etc.]
    }
  ]
}

Return ONLY valid JSON, no markdown or explanation.".

Definition TypeError (msg : string) : JsError := mkJsError "TypeError" msg.
Definition SyntaxError (msg : string) : JsError := mkJsError "SyntaxError" msg.
Definition ZodError (msg : string) : JsError := mkJsError "ZodError" msg.

Record Config := mkConfig { BATCH_SIZE : nat; MAX_WORKERS : nat }.

Section Pipeline.

Variable rt : Runtime.
Variable config : Config.

(** The [try { ... } catch (error) { throw new Error(...) }] block that
    extracts and parses the JSON of the response text. *)
Definition parse_response (content_text : string) : Result json :=
  let attempt :=
    match jsonMatch content_text with
    | None => Err (Error "No JSON found in response")
    | Some m =>
        match JSON_parse rt m with
        | inl parsed => Ok parsed
        | inr msg => Err (SyntaxError msg)
        end
    end in
  match attempt with
  | Ok parsed => Ok parsed
  | Err error => Err (Error ("JSON parse error: " +:+ String_ error))
  end.

Definition of_result {A} (r : Result A) : Prog A :=
  match r with Ok a => Ret a | Err e => Throw e end.

Definition extractFromDocument (docId text : string) : Prog DocumentAnalysis.t :=
  response ← await (fun w =>
    (messages_create rt EXTRACTION_SYSTEM_PROMPT
       (EXTRACTION_USER_PROMPT (truncatedText text)), w));
  match head response with
  | None => Throw (TypeError "Cannot read properties of undefined (reading 'type')")
  | Some (OtherBlock ty) => Throw (Error ("Unexpected response type: " +:+ ty))
  | Some (TextBlock content_text) =>
      parsed ← of_result (parse_response content_text);
      match DocumentAnalysisSchema (Some parsed) with
      | Some result => Ret result
      | None => Throw (ZodError (ZodError_message rt parsed))
      end
  end.

(** ** The orchestrator (scripts/extract-entities.ts) *)

Definition updateDocumentAnalysis (docId : string) (analysis : AnalysisUpdate) : Prog unit :=
  pool_query (updateDocumentAnalysis_stmt docId analysis).


Definition upsertEntity (canonicalName entityType : string)
    (aliases : option (list string)) (description : option string) : Prog Z :=
  pool_query (upsertEntity_stmt canonicalName entityType (default [] aliases) description).

Definition linkEntityToDocument (entityId documentId mentionCount : Z)
    (contextSnippet : option string) : Prog unit :=
  pool_query (linkEntityToDocument_stmt entityId documentId mentionCount contextSnippet).

Definition insertTriple (triple : TripleInsert) : Prog Z :=
  pool_query (insertTriple_stmt triple).

(** [for (const x of xs)] over the local variables [s] the body assigns. *)
Fixpoint for_of_with {A S} (xs : list A) (body : A -> S -> Prog S) (s : S) : Prog S :=
  match xs with
  | [] => Ret s
  | x :: xs' => s' ← body x s; for_of_with xs' body s'
  end.

(** [value ? new Date(value) : undefined]. *)
Definition date_of (value : option string) : option JsDate :=
  Date_parse rt <$> truthy value.

(** The lookup [entityIdMap.get(name.toLowerCase())] followed by
    [if (!id) { id = await upsertEntity(...); entityIdMap.set(..., id) }];
    the source writes this block out for the subject, the object and the
    location of a triple. *)
Definition getOrCreate (entityIdMap : gmap string Z) (nm entityType : string)
    : Prog (Z * gmap string Z) :=
  match entityIdMap !! toLowerCase rt nm with
  | Some found =>
      if bool_decide (found = 0) then
        created ← upsertEntity nm entityType None None;
        Ret (created, <[toLowerCase rt nm := created]> entityIdMap)
      else Ret (found, entityIdMap)
  | None =>
      created ← upsertEntity nm entityType None None;
      Ret (created, <[toLowerCase rt nm := created]> entityIdMap)
  end.

Definition insertEntities (doc : PendingDocument.t) (analysis : DocumentAnalysis.t)
    : Prog (gmap string Z) :=
  for_of_with (DocumentAnalysis.entities analysis) (fun entity entityIdMap =>
    entityId ← upsertEntity (Entity.name entity) (Entity.type entity) None None;
    linkEntityToDocument entityId (PendingDocument.id doc) 1 (Entity.context entity) ;;
    Ret (<[toLowerCase rt (Entity.name entity) := entityId]> entityIdMap)) ∅.

(** The triple loop and the function around it, over the way an endpoint
    name is resolved; the source resolves with [getOrCreate]. *)
Definition insertTriples_with
    (resolve : gmap string Z -> string -> string -> Prog (Z * gmap string Z))
    (doc : PendingDocument.t) (analysis : DocumentAnalysis.t)
    (entityIdMap : gmap string Z) : Prog (gmap string Z) :=
  for_of_with (imap (fun i triple => (Z.of_nat i, triple)) (DocumentAnalysis.triples analysis))
    (fun '(i, triple) entityIdMap =>
      '(subjectId, entityIdMap) ←
        resolve entityIdMap (Triple.subject triple) (Triple.subjectType triple);
      '(objectId, entityIdMap) ←
        resolve entityIdMap (Triple.object triple) (Triple.objectType triple);
      '(locationId, entityIdMap) ←
        match truthy (Triple.location triple) with
        | Some location =>
            '(locationId, entityIdMap) ← resolve entityIdMap location "location";
            Ret (Some locationId, entityIdMap)
        | None => Ret (None, entityIdMap)
        end;
      insertTriple (mkTripleInsert (PendingDocument.id doc) subjectId
        (Triple.predicate triple) objectId locationId
        (date_of (Triple.timestamp triple))
        (Triple.explicitTopic triple) (Triple.implicitTopic triple)
        (Triple.tags triple) i) ;;
      Ret entityIdMap)
    entityIdMap.

(** The body of the [try] block of [processDocument]. *)
Definition processDocument_try_with
    (resolve : gmap string Z -> string -> string -> Prog (Z * gmap string Z))
    (doc : PendingDocument.t) : Prog unit :=
  pool_query (mark_processing (PendingDocument.id doc)) ;;
  analysis ← extractFromDocument (PendingDocument.docId doc) (PendingDocument.fullText doc);
  updateDocumentAnalysis (PendingDocument.docId doc)
    (mkAnalysisUpdate
       (DocumentAnalysis.summary analysis)
       (DocumentAnalysis.detailedSummary analysis)
       (DocumentAnalysis.documentType analysis)
       (date_of (DocumentAnalysis.dateEarliest analysis))
       (date_of (DocumentAnalysis.dateLatest analysis))
       (DocumentAnalysis.contentTags analysis)) ;;
  entityIdMap ← insertEntities doc analysis;
  sync (fun w => mkWorld (db w) (processed w) (errors w)
          (totalEntities w + Z.of_nat (length (DocumentAnalysis.entities analysis)))
          (totalTriples w)) ;;
  insertTriples_with resolve doc analysis entityIdMap ;;
  sync (fun w => mkWorld (db w) (processed w + 1) (errors w) (totalEntities w)
          (totalTriples w + Z.of_nat (length (DocumentAnalysis.triples analysis)))).

(** The [catch] block of [processDocument]. *)
Definition processDocument_catch (doc : PendingDocument.t) (error : JsError) : Prog unit :=
  sync (fun w => mkWorld (db w) (processed w) (errors w + 1) (totalEntities w)
          (totalTriples w)) ;;
  pool_query (mark_failed (PendingDocument.id doc) (String_ error)).

Definition processDocument_with
    (resolve : gmap string Z -> string -> string -> Prog (Z * gmap string Z))
    (doc : PendingDocument.t) : Prog unit :=
  try_catch (processDocument_try_with resolve doc) (processDocument_catch doc).

Definition processDocument := processDocument_with getOrCreate.







(** [main] with its batch run as a pool of tasks: it fetches, runs the
    tasks of the batch in any interleaving, and fetches again once all have
    settled; it exits on an empty batch, or when a task rejected. *)
Inductive Orchestrator :=
| Fetching
| Running (tasks : list (Prog unit))
| Exited.

Inductive main_step : World * Orchestrator -> World * Orchestrator -> Prop :=
| main_fetch w documents :
    (getDocumentsPendingAnalysis_stmt (BATCH_SIZE config) (db w)).1 = Ok documents ->
    main_step (w, Fetching)
      (w, if bool_decide (length documents = 0%nat) then Exited
          else Running (fmap processDocument documents))
| main_task w tasks w' tasks' :
    pool_step (w, tasks) (w', tasks') ->
    main_step (w, Running tasks) (w', Running tasks')
| main_settled w tasks :
    forallb settled tasks = true ->
    main_step (w, Running tasks)
      (w, if forallb (fun p => match p with Ret _ => true | _ => false end) tasks
          then Fetching else Exited).

End Pipeline.

(** ** A rely-guarantee reading of programs

    [wp R G p Q w]: started in [w] among other tasks whose steps lie in [R],
    every step of [p] lies in [G] and [p] settles in a world satisfying [Q]. *)
Fixpoint wp {A} (R G : relation World) (p : Prog A)
    (Q : Result A -> World -> Prop) (w : World) : Prop :=
  match p with
  | Ret a => forall w0, rtc R w w0 -> Q (Ok a) w0
  | Throw e => forall w0, rtc R w w0 -> Q (Err e) w0
  | Step act k =>
      forall w0, rtc R w w0 ->
        G w0 (act w0).2 /\ wp R G (k (act w0).1) Q (act w0).2
  end.

(** Consecutive worlds of a trace are related by [G]. *)
Fixpoint chain (G : relation World) (w : World) (tr : list World) : Prop :=
  match tr with
  | [] => True
  | w1 :: tr' => G w w1 /\ chain G w1 tr'
  end.

(** ** Document rows under the orchestrator *)

(** The keys of the documents table: [id] and [doc_id] are each unique. *)
Definition docs_wf (w : World) : Prop :=
  NoDup (d_id <$> documents (db w)) /\ NoDup (d_doc_id <$> documents (db w)).

(** The row a fetched document came from. *)
Definition mine (doc : PendingDocument.t) (r : documents_row) : Prop :=
  d_id r = PendingDocument.id doc /\ d_doc_id r = PendingDocument.docId doc.

(** The moves of [analysis_status] that C5 allows. *)
Definition forward (s s' : option string) : Prop :=
  (s = Some "pending" /\ s' = Some "processing")
  \/ (s = Some "processing" /\ s' = Some "complete")
  \/ (s = Some "processing" /\ s' = Some "failed").

(** The moves the code makes: those, and from complete to failed. *)
Definition status_step (s s' : option string) : Prop :=
  forward s s' \/ (s = Some "complete" /\ s' = Some "failed").

(** One step seen at one row: the row keeps its keys and its text, and its
    status stays or makes a move. *)
Definition row_step (r r' : documents_row) : Prop :=
  d_id r' = d_id r /\ d_doc_id r' = d_doc_id r /\ d_full_text r' = d_full_text r
  /\ (d_analysis_status r' = d_analysis_status r
      \/ status_step (d_analysis_status r) (d_analysis_status r')).

Definition documents_step (w w' : World) : Prop :=
  Forall2 row_step (documents (db w)) (documents (db w')).

(** What the task of [doc] may do in one step, and what it relies on the
    other tasks not to do: only the row of [doc] is written. *)
Definition task_guarantee (doc : PendingDocument.t) (w w' : World) : Prop :=
  Forall2 (fun r r' => r' = r \/ (mine doc r /\ row_step r r'))
    (documents (db w)) (documents (db w')).

Definition task_rely (doc : PendingDocument.t) (w w' : World) : Prop :=
  Forall2 (fun r r' =>
      d_id r' = d_id r /\ d_doc_id r' = d_doc_id r /\ (mine doc r -> r' = r))
    (documents (db w)) (documents (db w')).

(** The row of [doc] is in the table with status [st]. *)
Definition row_status (doc : PendingDocument.t) (st : string) (w : World) : Prop :=
  docs_wf w
  /\ exists r, r ∈ documents (db w) /\ mine doc r /\ d_analysis_status r = Some st.

(** The task of [doc] is between its claim and its last write. *)
Definition in_flight (doc : PendingDocument.t) (w : World) : Prop :=
  row_status doc "processing" w \/ row_status doc "complete" w.

(** [processDocument] returned and left its row complete or failed. *)
Definition settled_row (doc : PendingDocument.t) (r : Result unit) (w : World) : Prop :=
  r = Ok tt /\ (row_status doc "complete" w \/ row_status doc "failed" w).

(** The tasks of a batch: task [i] works on the [i]-th of the documents
    fetched, which have distinct ids, and from the current world it writes
    its own row only, by moves of [status_step], whatever the others do. *)
Definition batch_inv (w : World) (tasks : list (Prog unit)) : Prop :=
  exists docs : list PendingDocument.t,
    NoDup (PendingDocument.id <$> docs)
    /\ length docs = length tasks
    /\ forall i doc p, docs !! i = Some doc -> tasks !! i = Some p ->
         wp (task_rely doc) (task_guarantee doc) p (settled_row doc) w.

Definition main_inv (s : World * Orchestrator) : Prop :=
  docs_wf s.1
  /\ match s.2 with
     | Running tasks => batch_inv s.1 tasks
     | _ => True
     end.



(** A program none of whose steps writes the documents table. *)
Inductive neutral {A} : Prog A -> Prop :=
| neutral_Ret a : neutral (Ret a)
| neutral_Throw e : neutral (Throw e)
| neutral_Step B (act : World -> Result B * World) k :
    (forall w, documents (db (act w).2) = documents (db w)) ->
    (forall r, neutral (k r)) ->
    neutral (Step act k).




(** ** The layer classifier (db.ts, [calculateEntityLayers]) *)

(** A scalar subquery: no row reads as [NULL], several rows are an error. *)
Definition scalar_subquery (rows : list Z) : Result (option Z) :=
  match rows with
  | [] => Ok None
  | [x] => Ok (Some x)
  | _ => Err (DatabaseError "more than one row returned by a subquery used as an expression")
  end.

(** [col = v] and [col != v] are not true when [v] is [NULL]. *)
Definition sql_eq (col : Z) (v : option Z) : bool :=
  match v with Some x => bool_decide (col = x) | None => false end.
Definition sql_ne (col : Z) (v : option Z) : bool :=
  match v with Some x => bool_decide (col ≠ x) | None => false end.

(** [UPDATE entities SET layer = n, updated_at = NOW()
     WHERE id IN (ids) AND layer IS NULL]. *)
Definition set_layer_where (n : Z) (ids : list Z) (es : list entities_row)
    : list entities_row :=
  fmap (fun r =>
    if bool_decide (e_id r ∈ ids) && bool_decide (e_layer r = None) then
      mk_entities_row (e_id r) (e_canonical_name r) (e_entity_type r) (Some n)
        (e_aliases r) (e_description r)
    else r) es.

Definition epstein (db : DB) : list Z :=
  fmap e_id (filter (fun r => e_canonical_name r = "Jeffrey Epstein"
                             ∧ e_entity_type r = entity_type.person) (entities db)).

Definition epstein_docs (db : DB) (root : option Z) : list Z :=
  remove_dups (fmap de_document_id
    (filter (fun r => sql_eq (de_entity_id r) root = true) (document_entities db))).

Definition layer1_entities (db : DB) (root : option Z) : list Z :=
  remove_dups (fmap de_entity_id
    (filter (fun r => de_document_id r ∈ epstein_docs db root
                      ∧ sql_ne (de_entity_id r) root = true) (document_entities db))).

(** First statement: layer 1. *)
Definition set_layer1 : Stmt unit := fun db =>
  match scalar_subquery (epstein db) with
  | Err e => (Err e, db)
  | Ok root => (Ok tt, set_entities (set_layer_where 1 (layer1_entities db root)) db)
  end.

Definition layer1 (db : DB) : list Z :=
  fmap e_id (filter (fun r => e_layer r = Some 1) (entities db)).

Definition layer1_docs (db : DB) : list Z :=
  remove_dups (fmap de_document_id
    (filter (fun r => de_entity_id r ∈ layer1 db) (document_entities db))).

Definition layer2_candidates (db : DB) : list Z :=
  remove_dups (fmap de_entity_id
    (filter (fun r => de_document_id r ∈ layer1_docs db) (document_entities db))).

(** Second statement: layer 2. *)
Definition set_layer2 : Stmt unit := fun db =>
  (Ok tt, set_entities (set_layer_where 2 (layer2_candidates db)) db).

(** Third statement: [UPDATE entities SET layer = 3, updated_at = NOW()
    WHERE layer IS NULL]. *)
Definition set_layer3 : Stmt unit := fun db =>
  (Ok tt,
   set_entities (fmap (fun r =>
     if bool_decide (e_layer r = None) then
       mk_entities_row (e_id r) (e_canonical_name r) (e_entity_type r) (Some 3)
         (e_aliases r) (e_description r)
     else r)) db).

Definition calculateEntityLayers : Prog unit :=
  pool_query set_layer1 ;; pool_query set_layer2 ;; pool_query set_layer3.

(** What one statement may do to an entity row under first-assignment-wins:
    nothing, or set the layer of a row whose layer is [NULL]. *)
Definition first_assignment (r r' : entities_row) : Prop :=
  r' = r
  \/ (e_layer r = None
      /\ exists n, r' = mk_entities_row (e_id r) (e_canonical_name r) (e_entity_type r)
                         (Some n) (e_aliases r) (e_description r)).

(** Every row has a layer. *)
Definition labelled (es : list entities_row) : Prop :=
  Forall (fun r => e_layer r <> None) es.

Definition layer_step (w w' : World) : Prop :=
  Forall2 first_assignment (entities (db w)) (entities (db w')).

(** Two entities are linked to a shared document. *)
Definition shares_document (d : DB) (a b : Z) : Prop :=
  exists x y, x ∈ document_entities d /\ y ∈ document_entities d
    /\ de_entity_id x = a /\ de_entity_id y = b
    /\ de_document_id x = de_document_id y.

(** The state the classifier starts from after seeding: the row of
    'Jeffrey Epstein' / person is the root, it has layer 0, and no other row
    has a layer. *)
Definition only_root_labelled (d : DB) (root : Z) : Prop :=
  epstein d = [root]
  /\ forall r, r ∈ entities d ->
       e_layer r = if bool_decide (e_id r = root) then Some 0 else None.

(** Some entity of layer 1 in [es] is linked to a document of [a]. *)
Definition shares_with_layer1 (d : DB) (es : list entities_row) (a : Z) : Prop :=
  exists l, l ∈ es /\ e_layer l = Some 1 /\ shares_document d a (e_id l).

(** ** The cross-reference matcher (scripts/crossref-match.ts) *)

Module Match.
Record t := mk {
  entityId : Z;
  entityName : string;
  source : match_source.t;
  sourceId : Z;
  sourceName : string;
  score : Q
}.
End Match.

(** The rows of the [VALUES] list in order; each draws an id, and
    [ON CONFLICT DO NOTHING] skips a row that collides on a unique index.
    The table has one, the primary key on [id].  The result is the list of
    inserted rows and the sequence after the statement. *)
Definition insert_do_nothing (matches : list Match.t)
    (table : list entity_crossref_matches_row) (seq : Z)
    : list entity_crossref_matches_row * Z :=
  fold_left (fun '(inserted, next) m =>
      if bool_decide (next ∈ fmap m_id (table ++ inserted)) then (inserted, next + 1)
      else (inserted ++ [mk_entity_crossref_matches_row next (Match.entityId m)
                           (Match.source m) (Match.sourceId m) (Match.score m)
                           (Some "fuzzy") false false],
            next + 1))
    matches ([], seq).

(** The statement of [saveMatches]; the foreign key of the inserted rows is
    checked when the statement ends. *)
Definition saveMatches_stmt (matches : list Match.t) : Stmt unit := fun db =>
  let '(inserted, next) :=
    insert_do_nothing matches (entity_crossref_matches db)
      (entity_crossref_matches_id_seq db) in
  let db1 := set_entity_crossref_matches_id_seq next db in
  if forallb (fun r => fk_entities (m_entity_id r) db) inserted then
    (Ok tt, set_entity_crossref_matches (fun table => table ++ inserted) db1)
  else
    (Err (DatabaseError
       "insert on table entity_crossref_matches violates foreign key constraint"), db1).

Definition saveMatches (matches : list Match.t) : Prog unit :=
  if bool_decide (length matches = 0%nat) then Ret tt
  else pool_query (saveMatches_stmt matches).

(** The saving phase of the matcher's [main], given the three match lists
    the [find...Matches] queries returned. *)
Definition saveAllMatches (pppMatches fecMatches grantsMatches : list Match.t) : Prog unit :=
  saveMatches pppMatches ;; saveMatches fecMatches ;; saveMatches grantsMatches.

(** ** Calls to the canonicalizer *)

Module UpsertCall.
Record t := mk {
  canonicalName : string;
  entityType : string;
  aliases : option (list string);
  description : option string
}.
End UpsertCall.




(** ** A reference runtime

    Executable stand-ins for the runtime functions, used to run the
    pipeline on concrete inputs: a JSON parser for the RFC 8259 grammar,
    [Date.parse] restricted to the date-only form [YYYY-MM-DD] of the
    ECMAScript date-time format (every other string is [NaN]), and
    [toLowerCase] on the ASCII letters. *)
Module Reference.

Definition is_ws (c : ascii) : bool :=
  Ascii.eqb c " " || Ascii.eqb c "009" || Ascii.eqb c "010" || Ascii.eqb c "013".

Fixpoint skip_ws (s : string) : string :=
  match s with
  | String c s' => if is_ws c then skip_ws s' else s
  | EmptyString => s
  end.

Definition digit_of (c : ascii) : option N :=
  let n := N_of_ascii c in
  if (48 <=? n)%N && (n <=? 57)%N then Some (n - 48)%N else None.

Definition hex_of (c : ascii) : option N :=
  let n := N_of_ascii c in
  if (48 <=? n)%N && (n <=? 57)%N then Some (n - 48)%N
  else if (65 <=? n)%N && (n <=? 70)%N then Some (n - 55)%N
  else if (97 <=? n)%N && (n <=? 102)%N then Some (n - 87)%N
  else None.

(** The UTF-8 bytes of a code point of the basic plane. *)
Definition utf8 (cp : N) : string :=
  let b (n : N) := ascii_of_N n in
  if (cp <? 128)%N then String (b cp) EmptyString
  else if (cp <? 2048)%N then
    String (b (192 + cp / 64)%N) (String (b (128 + cp mod 64)%N) EmptyString)
  else
    String (b (224 + cp / 4096)%N)
      (String (b (128 + (cp / 64) mod 64)%N)
         (String (b (128 + cp mod 64)%N) EmptyString)).

(** The characters of a string literal after its opening quote. *)
Fixpoint string_body (s : string) : option (string * string) :=
  match s with
  | EmptyString => None
  | String c s' =>
      if Ascii.eqb c "034" then Some (EmptyString, s')
      else if Ascii.eqb c "\" then
        match s' with
        | String e s'' =>
            let plain (x : ascii) :=
              match string_body s'' with
              | Some (body, rest) => Some (String x body, rest)
              | None => None
              end in
            if Ascii.eqb e "034" then plain "034"%char
            else if Ascii.eqb e "\" then plain "\"%char
            else if Ascii.eqb e "/" then plain "/"%char
            else if Ascii.eqb e "b" then plain "008"%char
            else if Ascii.eqb e "f" then plain "012"%char
            else if Ascii.eqb e "n" then plain "010"%char
            else if Ascii.eqb e "r" then plain "013"%char
            else if Ascii.eqb e "t" then plain "009"%char
            else if Ascii.eqb e "u" then
              match s'' with
              | String h1 (String h2 (String h3 (String h4 s3))) =>
                  match hex_of h1, hex_of h2, hex_of h3, hex_of h4, string_body s3 with
                  | Some a, Some b, Some c', Some d, Some (body, rest) =>
                      Some (utf8 (((a * 16 + b) * 16 + c') * 16 + d)%N +:+ body, rest)
                  | _, _, _, _, _ => None
                  end
              | _ => None
              end
            else None
        | EmptyString => None
        end
      else if (N_of_ascii c <? 32)%N then None
      else
        match string_body s' with
        | Some (body, rest) => Some (String c body, rest)
        | None => None
        end
  end.

Fixpoint digits (s : string) : string * string :=
  match s with
  | String c s' =>
      match digit_of c with
      | Some _ => let '(d, rest) := digits s' in (String c d, rest)
      | None => (EmptyString, s)
      end
  | EmptyString => (EmptyString, s)
  end.

(** A number literal: [-? int frac? exp?]. *)
Definition number (s : string) : option (string * string) :=
  let '(sign, s1) :=
    match s with
    | String "-" s' => ("-", s')
    | _ => (EmptyString, s)
    end in
  let '(int, s2) := digits s1 in
  let int_ok :=
    match int with
    | EmptyString => false
    | String "0" (String _ _) => false
    | _ => true
    end in
  if negb int_ok then None else
  let frac :=
    match s2 with
    | String "." s' =>
        let '(f, s3) := digits s' in
        if decide (f = EmptyString) then None else Some ("." +:+ f, s3)
    | _ => Some (EmptyString, s2)
    end in
  match frac with
  | None => None
  | Some (f, s3) =>
      let exp :=
        match s3 with
        | String e s' =>
            if Ascii.eqb e "e" || Ascii.eqb e "E" then
              let '(sg, s4) :=
                match s' with
                | String "+" s'' => ("+", s'')
                | String "-" s'' => ("-", s'')
                | _ => (EmptyString, s')
                end in
              let '(x, s5) := digits s4 in
              if decide (x = EmptyString) then None
              else Some (String e sg +:+ x, s5)
            else Some (EmptyString, s3)
        | EmptyString => Some (EmptyString, s3)
        end in
      match exp with
      | None => None
      | Some (x, s5) => Some (sign +:+ int +:+ f +:+ x, s5)
      end
  end.

(** A later member replaces an earlier one with the same key. *)
Fixpoint set_field (key : string) (v : json) (fields : list (string * json))
    : list (string * json) :=
  match fields with
  | [] => [(key, v)]
  | (k, x) :: fields' =>
      if decide (k = key) then (k, v) :: fields'
      else (k, x) :: set_field key v fields'
  end.

Definition literal (word : string) (v : json) (s : string) : option (json * string) :=
  if String.prefix word s
  then Some (v, String.substring (String.length word)
                  (String.length s - String.length word) s)
  else None.

Fixpoint value (fuel : nat) (s : string) : option (json * string) :=
  match fuel with
  | O => None
  | S fuel' =>
      match skip_ws s with
      | String c s' =>
          if Ascii.eqb c "{" then
            match skip_ws s' with
            | String "}" rest => Some (JObject [], rest)
            | _ => members fuel' [] s'
            end
          else if Ascii.eqb c "[" then
            match skip_ws s' with
            | String "]" rest => Some (JArray [], rest)
            | _ => elements fuel' [] s'
            end
          else if Ascii.eqb c "034" then
            match string_body s' with
            | Some (body, rest) => Some (JString body, rest)
            | None => None
            end
          else if Ascii.eqb c "t" then literal "true" (JBool true) (String c s')
          else if Ascii.eqb c "f" then literal "false" (JBool false) (String c s')
          else if Ascii.eqb c "n" then literal "null" JNull (String c s')
          else
            match number (String c s') with
            | Some (lexeme, rest) => Some (JNumber lexeme, rest)
            | None => None
            end
      | EmptyString => None
      end
  end
with elements (fuel : nat) (acc : list json) (s : string) : option (json * string) :=
  match fuel with
  | O => None
  | S fuel' =>
      match value fuel' s with
      | Some (v, rest) =>
          match skip_ws rest with
          | String "," rest' => elements fuel' (acc ++ [v]) rest'
          | String "]" rest' => Some (JArray (acc ++ [v]), rest')
          | _ => None
          end
      | None => None
      end
  end
with members (fuel : nat) (acc : list (string * json)) (s : string)
    : option (json * string) :=
  match fuel with
  | O => None
  | S fuel' =>
      match skip_ws s with
      | String "034" s' =>
          match string_body s' with
          | Some (key, rest) =>
              match skip_ws rest with
              | String ":" rest' =>
                  match value fuel' rest' with
                  | Some (v, rest'') =>
                      match skip_ws rest'' with
                      | String "," rest3 => members fuel' (set_field key v acc) rest3
                      | String "}" rest3 => Some (JObject (set_field key v acc), rest3)
                      | _ => None
                      end
                  | None => None
                  end
              | _ => None
              end
          | None => None
          end
      | _ => None
      end
  end.

Definition JSON_parse (s : string) : json + string :=
  match value (2 * String.length s + 2) s with
  | Some (v, rest) =>
      if decide (skip_ws rest = EmptyString) then inl v
      else inr "Unexpected non-whitespace character after JSON"
  | None => inr "Unexpected token or end of JSON input"
  end.

Fixpoint number_of (acc : Z) (s : string) : option Z :=
  match s with
  | EmptyString => Some acc
  | String c s' =>
      match digit_of c with
      | Some d => number_of (10 * acc + Z.of_N d) s'
      | None => None
      end
  end.

Definition days_from_civil (y m d : Z) : Z :=
  let y' := if m <=? 2 then y - 1 else y in
  let era := y' / 400 in
  let yoe := y' - era * 400 in
  let mp := (m + 9) mod 12 in
  let doy := (153 * mp + 2) / 5 + d - 1 in
  let doe := yoe * 365 + yoe / 4 - yoe / 100 + doy in
  era * 146097 + doe - 719468.

Definition days_in_month (y m : Z) : Z :=
  if bool_decide (m = 2) then
    if bool_decide (y mod 4 = 0 ∧ (y mod 100 ≠ 0 ∨ y mod 400 = 0)) then 29 else 28
  else if bool_decide (m ∈ [4; 6; 9; 11]) then 30 else 31.

Definition Date_parse (s : string) : option Z :=
  if bool_decide (String.length s = 10%nat)
     && bool_decide (String.get 4 s = Some "-"%char)
     && bool_decide (String.get 7 s = Some "-"%char) then
    match number_of 0 (String.substring 0 4 s),
          number_of 0 (String.substring 5 2 s),
          number_of 0 (String.substring 8 2 s) with
    | Some y, Some m, Some d =>
        if bool_decide (1 <= m <= 12 ∧ 1 <= d <= days_in_month y m)
        then Some (days_from_civil y m d * 86400000)
        else None
    | _, _, _ => None
    end
  else None.

Definition lower (c : ascii) : ascii :=
  let n := N_of_ascii c in
  if (65 <=? n)%N && (n <=? 90)%N then ascii_of_N (n + 32) else c.

Definition toLowerCase (s : string) : string :=
  string_of_list_ascii (fmap lower (list_ascii_of_string s)).

(** A runtime whose provider answers every request with [answer]. *)
Definition runtime (answer : string -> string -> Result (list ContentBlock)) : Runtime :=
  mkRuntime Date_parse JSON_parse toLowerCase (fun _ => "Invalid input") answer.

End Reference.

(** ** Example data *)

(** The layer scenario: the root R, A in a document with R, B in a document
    with A only, C in no document. *)
Definition layer_scenario : World :=
  mkWorld
    (mkDB []
       [mk_entities_row 1 "Jeffrey Epstein" entity_type.person (Some 0)
          (Some ["Jeffrey E. Epstein"; "J. Epstein"; "Epstein"; "JE"])
          (Some "American financier and convicted sex offender");
        mk_entities_row 2 "A" entity_type.person None (Some []) None;
        mk_entities_row 3 "B" entity_type.organization None (Some []) None;
        mk_entities_row 4 "C" entity_type.location None (Some []) None]
       5
       [mk_document_entities_row 1 10 1 (Some 1) None;
        mk_document_entities_row 2 10 2 (Some 1) None;
        mk_document_entities_row 3 11 2 (Some 1) None;
        mk_document_entities_row 4 11 3 (Some 2) None]
       5 [] 1 [] 1)
    0 0 0 0.


(** One document waits for analysis. *)
Definition one_pending : World :=
  mkWorld
    (mkDB
       [mk_documents_row 1 "EFTA00000001" (Some "Wire transfer memo") None None None None None
          (Some []) (Some "pending") None]
       [mk_entities_row 1 "Jeffrey Epstein" entity_type.person (Some 0) (Some []) None]
       2 [] 1 [] 1 [] 1)
    0 0 0 0.

Definition example_config : Config := mkConfig 10 5.

(** A well-formed analysis: one entity, and one triple whose object is the
    entity's name in another case and with another type. *)
Definition memo_analysis : string := quoted
"{^summary^: ^Wire transfer memo^,
  ^detailedSummary^: ^A memo recording a wire transfer.^,
  ^documentType^: ^financial record^,
  ^dateEarliest^: ^2005-03-01^,
  ^dateLatest^: null,
  ^contentTags^: [^financial^],
  ^entities^: [{^name^: ^Acme Holdings^, ^type^: ^organization^, ^context^: ^sender^}],
  ^triples^: [{^subject^: ^J. Smith^, ^subjectType^: ^person^,
               ^predicate^: ^signed for^,
               ^object^: ^ACME HOLDINGS^, ^objectType^: ^location^,
               ^timestamp^: ^2005-03-01^}]}".

(** The same analysis with a timestamp that is no date. *)
Definition undated_analysis : string := quoted
"{^summary^: ^Wire transfer memo^,
  ^detailedSummary^: ^A memo recording a wire transfer.^,
  ^documentType^: ^financial record^,
  ^dateEarliest^: null,
  ^dateLatest^: null,
  ^contentTags^: [^financial^],
  ^entities^: [{^name^: ^Acme Holdings^, ^type^: ^organization^, ^context^: ^sender^}],
  ^triples^: [{^subject^: ^J. Smith^, ^subjectType^: ^person^,
               ^predicate^: ^signed for^,
               ^object^: ^Acme Holdings^, ^objectType^: ^organization^,
               ^timestamp^: ^unknown^}]}".


(** A provider that answers every request with one text block. *)
Definition answering (text : string) : Runtime :=
  Reference.runtime (fun _ _ => Ok [TextBlock text]).


(** ** Stores on which inserts succeed *)

















(** The document of [one_pending] as the fetch returns it. *)
Definition memo_document : PendingDocument.t :=
  PendingDocument.mk 1 "EFTA00000001" "Wire transfer memo".



(** A program each of whose steps, from whatever world, lies in [G]. *)
Inductive stepwise (G : relation World) {A} : Prog A -> Prop :=
| stepwise_Ret a : stepwise G (Ret a)
| stepwise_Throw e : stepwise G (Throw e)
| stepwise_Step B (act : World -> Result B * World) k :
    (forall w, G w (act w).2) ->
    (forall r, stepwise G (k r)) ->
    stepwise G (Step act k).

(** The counters [processed] and [errors] stand as in [w]. *)
Definition uncounted (w w' : World) : Prop :=
  processed w' = processed w /\ errors w' = errors w.

(** An entity row as the orchestrator may leave it: as it was, or with
    aliases that were [NULL] now the empty list. *)
Definition entity_row_kept (r r' : entities_row) : Prop :=
  r' = r
  \/ (e_aliases r = None
      /\ r' = mk_entities_row (e_id r) (e_canonical_name r) (e_entity_type r) (e_layer r)
                (Some []) (e_description r)).

(** The entity rows of [w] are all in [w'], in their order and before any
    new row. *)
Definition entity_rows_kept (w w' : World) : Prop :=
  exists kept new, entities (db w') = kept ++ new
                   /\ Forall2 entity_row_kept (entities (db w)) kept.


(** The row [saveMatches] stores for a match under the id [id]. *)
Definition match_row (id : Z) (m : Match.t) : entity_crossref_matches_row :=
  mk_entity_crossref_matches_row id (Match.entityId m) (Match.source m)
    (Match.sourceId m) (Match.score m) (Some "fuzzy") false false.

(** ** The document loader (the document extraction script) *)

(** The characters [String.prototype.trim] strips: ECMAScript's WhiteSpace
    and LineTerminator, of which a character of this development can be
    tab, line feed, vertical tab, form feed, carriage return, space and
    no-break space. *)
Definition is_white_space (c : ascii) : bool :=
  bool_decide (nat_of_ascii c ∈ [9; 10; 11; 12; 13; 32; 160]%nat).

Fixpoint trim_start (s : string) : string :=
  match s with
  | EmptyString => EmptyString
  | String c s' => if is_white_space c then trim_start s' else s
  end.

Fixpoint trim_end (s : string) : string :=
  match s with
  | EmptyString => EmptyString
  | String c s' =>
      match trim_end s' with
      | EmptyString => if is_white_space c then EmptyString else String c EmptyString
      | t => String c t
      end
  end.

(** [line.trim()]. *)
Definition trim (s : string) : string := trim_end (trim_start s).

(** [\d]: an ASCII digit. *)
Definition is_digit (c : ascii) : bool :=
  bool_decide (48 <= nat_of_ascii c <= 57)%nat.

(** [DOC_ID_PATTERN.test(s)] for [/^EFTA\d{8}$/]: the letters EFTA, then
    eight digits, then the end of the string. *)
Definition DOC_ID_PATTERN_test (s : string) : bool :=
  match s with
  | String "E" (String "F" (String "T" (String "A" digits))) =>
      bool_decide (String.length digits = 8%nat)
      && forallb is_digit (list_ascii_of_string digits)
  | _ => false
  end.

Module DocumentChunk.
Record t := mk { docId : string; lines : list string }.
End DocumentChunk.

(** The generator [readDocuments] between two lines: the chunk being
    collected ([null] before the first document id) and the chunks yielded
    so far. *)
Record ReaderState := mkReaderState {
  currentDoc : option DocumentChunk.t;
  yielded : list DocumentChunk.t
}.

(** [if (currentDoc && currentDoc.lines.length > 0) yield currentDoc]. *)
Definition yield_current (currentDoc : option DocumentChunk.t) : list DocumentChunk.t :=
  match currentDoc with
  | Some doc => if bool_decide (DocumentChunk.lines doc = []) then [] else [doc]
  | None => []
  end.

(** One round of [for await (const line of rl)]. *)
Definition read_line (st : ReaderState) (line : string) : ReaderState :=
  let trimmed := trim line in
  if DOC_ID_PATTERN_test trimmed then
    mkReaderState (Some (DocumentChunk.mk trimmed []))
      (yielded st ++ yield_current (currentDoc st))
  else
    match currentDoc st with
    | Some doc =>
        if bool_decide (trimmed = "") then st
        else mkReaderState
               (Some (DocumentChunk.mk (DocumentChunk.docId doc)
                        (DocumentChunk.lines doc ++ [line])))
               (yielded st)
    | None => st
    end.

(** The chunks [readDocuments] yields, in order, over the lines that
    [readline] delivers.  A chunk is a fresh object, and the generator does
    not touch it after the yield, so the consumer sees the chunks as they
    are listed here. *)
Definition readDocuments (file_lines : list string) : list DocumentChunk.t :=
  let st := fold_left read_line file_lines (mkReaderState None []) in
  yielded st ++ yield_current (currentDoc st).

(** [s.replace(pattern, '')] for a string pattern: the first occurrence
    goes. *)
Fixpoint remove_first (pattern s : string) : string :=
  if String.prefix pattern s
  then string_of_list_ascii (drop (String.length pattern) (list_ascii_of_string s))
  else match s with
       | EmptyString => EmptyString
       | String c s' => String c (remove_first pattern s')
       end.

(** The value of the longest run of decimal digits at the head of [s],
    read after [acc]. *)
Fixpoint digits_value (acc : Z) (s : string) : Z :=
  match s with
  | String c s' =>
      if is_digit c then digits_value (10 * acc + (Z.of_nat (nat_of_ascii c) - 48)) s'
      else acc
  | EmptyString => acc
  end.

(** The number a string of digits spells; [None] when its first character
    is no digit. *)
Definition unsigned_digits (t : string) : option Z :=
  match t with
  | String c _ => if is_digit c then Some (digits_value 0 t) else None
  | EmptyString => None
  end.

(** [parseInt(s, 10)]: leading white space goes, a sign is read, then the
    longest run of digits; [None] is [NaN], which the absence of a digit
    gives.  The integer is exact here where the source has the nearest
    double; against the bounds of [getDatasetId] the two compare alike. *)
Definition parseInt10 (s : string) : option Z :=
  match trim_start s with
  | String c t =>
      if Ascii.eqb c "-" then Z.opp <$> unsigned_digits t
      else if Ascii.eqb c "+" then unsigned_digits t
      else unsigned_digits (String c t)
  | EmptyString => None
  end.

(** [getDatasetId]; a comparison with [NaN] is false. *)
Definition getDatasetId (docId : string) : Z :=
  match parseInt10 (remove_first "EFTA" docId) with
  | Some num =>
      if num <=? 3158 then 1
      else if num <=? 3857 then 2
      else if num <=? 5586 then 3
      else if num <=? 8320 then 4
      else 5
  | None => 5
  end.

(** [lines.join(sep)]. *)
Fixpoint join (sep : string) (xs : list string) : string :=
  match xs with
  | [] => EmptyString
  | [x] => x
  | x :: xs' => x +:+ sep +:+ join sep xs'
  end.

(** The documents table as the loader writes it: the columns of
    [documents_row] and the three that only [insertDocument] sets, with the
    sequence behind [id]. *)
Record documents_full_row := mk_documents_full_row {
  f_row : documents_row;
  f_dataset_id : Z;                        (* INTEGER NOT NULL *)
  f_file_path : option string;
  f_page_count : option Z
}.

Record LoaderDB := mkLoaderDB {
  l_documents : list documents_full_row;
  l_documents_id_seq : Z
}.

(** The argument of [insertDocument]. *)
Record DocumentInsert := mkDocumentInsert {
  n_docId : string;
  n_datasetId : Z;
  n_filePath : option string;
  n_fullText : option string;
  n_pageCount : option Z
}.

(** A value the server reads as [INTEGER]. *)
Definition int4 (n : Z) : bool := (-2147483648 <=? n) && (n <=? 2147483647).

(** A string the server takes as a [TEXT] value: it has no character of
    code 0. *)
Definition text_ok (s : string) : bool :=
  forallb (fun c => negb (Ascii.eqb c Ascii.zero)) (list_ascii_of_string s).

(** The error of binding the parameters of [insertDocument], which the
    server reads in their order; [None] when it takes them all.  [undefined]
    is sent as [NULL]. *)
Definition bind_error (doc : DocumentInsert) : option JsError :=
  if negb (text_ok (n_docId doc)) then
    Some (DatabaseError "invalid byte sequence for encoding UTF8: 0x00")
  else if negb (int4 (n_datasetId doc)) then
    Some (DatabaseError "value out of range for type integer")
  else if negb (from_option text_ok true (n_filePath doc)) then
    Some (DatabaseError "invalid byte sequence for encoding UTF8: 0x00")
  else if negb (from_option text_ok true (n_fullText doc)) then
    Some (DatabaseError "invalid byte sequence for encoding UTF8: 0x00")
  else if negb (from_option int4 true (n_pageCount doc)) then
    Some (DatabaseError "value out of range for type integer")
  else None.

(** A row with its [full_text] set, as the [DO UPDATE] of [insertDocument]
    leaves it ([updated_at] is not modelled). *)
Definition with_full_text (text : option string) (x : documents_full_row)
    : documents_full_row :=
  mk_documents_full_row
    (mk_documents_row (d_id (f_row x)) (d_doc_id (f_row x)) text
       (d_summary (f_row x)) (d_detailed_summary (f_row x))
       (d_document_type (f_row x)) (d_date_earliest (f_row x))
       (d_date_latest (f_row x)) (d_content_tags (f_row x))
       (d_analysis_status (f_row x)) (d_error_message (f_row x)))
    (f_dataset_id x) (f_file_path x) (f_page_count x).

(** The row an [INSERT] of [insertDocument] creates: the columns given and
    the defaults of the schema, that is no analysis, no tags and the status
    pending. *)
Definition inserted_row (id : Z) (doc : DocumentInsert) : documents_full_row :=
  mk_documents_full_row
    (mk_documents_row id (n_docId doc) (n_fullText doc)
       None None None None None (Some []) (Some "pending") None)
    (n_datasetId doc) (n_filePath doc) (n_pageCount doc).

(** The statement of [insertDocument]:
    [INSERT ... ON CONFLICT (doc_id) DO UPDATE SET
     full_text = COALESCE(EXCLUDED.full_text, documents.full_text),
     updated_at = NOW() RETURNING id].  A parameter the server refuses stops
    the statement before it runs.  The default of [id] draws from the
    sequence, which ends at the largest [INTEGER], before the arbiter index
    is consulted; the sequence advances on the conflict path too. *)
Definition insertDocument_stmt (doc : DocumentInsert)
    : LoaderDB -> Result Z * LoaderDB := fun db =>
  match bind_error doc with
  | Some e => (Err e, db)
  | None =>
      let new_id := l_documents_id_seq db in
      if 2147483647 <? new_id then
        (Err (DatabaseError "nextval: reached maximum value of sequence documents_id_seq"), db)
      else
        match List.find (fun r => bool_decide (d_doc_id (f_row r) = n_docId doc))
                (l_documents db) with
        | Some r =>
            (Ok (d_id (f_row r)),
             mkLoaderDB
               (fmap (fun x =>
                  if bool_decide (d_doc_id (f_row x) = n_docId doc) then
                    with_full_text (COALESCE [n_fullText doc; d_full_text (f_row x)]) x
                  else x) (l_documents db))
               (new_id + 1))
        | None =>
            if bool_decide (new_id ∈ fmap (fun r => d_id (f_row r)) (l_documents db)) then
              (Err (DatabaseError "duplicate key value violates unique constraint documents_pkey"),
               mkLoaderDB (l_documents db) (new_id + 1))
            else
              (Ok new_id,
               mkLoaderDB (l_documents db ++ [inserted_row new_id doc]) (new_id + 1))
        end
  end.

(** The loader between two chunks: the table, the counters [count] and
    [errors] of [main], and [seenDocs]. *)
Record LoaderState := mkLoaderState {
  l_db : LoaderDB;
  l_count : Z;
  l_errors : Z;
  seenDocs : gset string
}.

(** One round of [for await (const doc of readDocuments())] in [main]. *)
Definition load_chunk (st : LoaderState) (doc : DocumentChunk.t) : LoaderState :=
  if bool_decide (DocumentChunk.docId doc ∈ seenDocs st) then st
  else
    let seen := {[DocumentChunk.docId doc]} ∪ seenDocs st in
    let fullText := join nl (DocumentChunk.lines doc) in
    let datasetId := getDatasetId (DocumentChunk.docId doc) in
    match insertDocument_stmt
            (mkDocumentInsert (DocumentChunk.docId doc) datasetId None (Some fullText)
               (Some 1)) (l_db st) with
    | (Ok _, d) => mkLoaderState d (l_count st + 1) (l_errors st) seen
    | (Err _, d) => mkLoaderState d (l_count st) (l_errors st + 1) seen
    end.

(** [main] of the loader once the combined text file is found, over the
    lines of the file (when the file is missing, [main] exits before any
    statement). *)
Definition loader_main (file_lines : list string) (d : LoaderDB) : LoaderState :=
  fold_left load_chunk (readDocuments file_lines) (mkLoaderState d 0 0 ∅).

(** What the orchestrator sees of the table the loader wrote. *)
Definition pipeline_view (d : LoaderDB) : list documents_row := f_row <$> l_documents d.

(** A line that is a document id, and a line that is neither blank nor a
    document id. *)
Definition is_id_line (line : string) : bool := DOC_ID_PATTERN_test (trim line).
Definition is_blank (line : string) : bool := bool_decide (trim line = "").
Definition is_text_line (line : string) : bool := negb (is_id_line line) && negb (is_blank line).

(** The constraints of the documents table, and its sequence ahead of every
    id in use. *)
Definition loader_wf (d : LoaderDB) : Prop :=
  NoDup ((fun r => d_doc_id (f_row r)) <$> l_documents d)
  /\ NoDup ((fun r => d_id (f_row r)) <$> l_documents d)
  /\ forall r, r ∈ l_documents d -> d_id (f_row r) < l_documents_id_seq d.

(** A file the server can store: no line of it has a character of code 0. *)
Definition file_ok (file_lines : list string) : Prop :=
  Forall (fun l => text_ok l = true) file_lines.

(** The argument [main] passes to [insertDocument] for a chunk. *)
Definition chunk_insert (doc : DocumentChunk.t) : DocumentInsert :=
  mkDocumentInsert (DocumentChunk.docId doc) (getDatasetId (DocumentChunk.docId doc)) None
    (Some (join nl (DocumentChunk.lines doc))) (Some 1).

(** [c] is the first chunk of its document id among [chunks]. *)
Definition first_chunk (chunks : list DocumentChunk.t) (c : DocumentChunk.t) : Prop :=
  exists p q, chunks = p ++ c :: q
              /\ DocumentChunk.docId c ∉ DocumentChunk.docId <$> p.

(** What a run of the loader over [chunks] does to a row that was there: it
    leaves it, or it sets its text to the text of the first chunk of its
    document id. *)
Definition reloaded (chunks : list DocumentChunk.t) (r r' : documents_full_row) : Prop :=
  r' = r
  \/ exists c, first_chunk chunks c
               /\ d_doc_id (f_row r) = DocumentChunk.docId c
               /\ r' = with_full_text (Some (join nl (DocumentChunk.lines c))) r.

(** The loader after the chunks [pre] of a run started on the table [d]:
    no error was counted, [seenDocs] holds the ids of [pre] and [count] their
    number, the first chunk of each id has its text in the table, the rows of
    [d] are in place, reloaded, and the rows after them are the rows inserted
    for chunks of [pre]; the sequence gave one id for each chunk that was not
    skipped. *)
Definition loader_inv (d : LoaderDB) (pre : list DocumentChunk.t) (st : LoaderState) : Prop :=
  loader_wf (l_db st)
  /\ l_documents_id_seq (l_db st) = l_documents_id_seq d + l_count st
  /\ l_errors st = 0
  /\ seenDocs st = list_to_set (DocumentChunk.docId <$> pre)
  /\ l_count st = Z.of_nat (size (seenDocs st))
  /\ (forall c, first_chunk pre c ->
        exists r, r ∈ l_documents (l_db st)
                  /\ d_doc_id (f_row r) = DocumentChunk.docId c
                  /\ d_full_text (f_row r) = Some (join nl (DocumentChunk.lines c)))
  /\ exists kept new,
       l_documents (l_db st) = kept ++ new
       /\ Forall2 (reloaded pre) (l_documents d) kept
       /\ Forall (fun r => exists c, first_chunk pre c
                                     /\ r = inserted_row (d_id (f_row r)) (chunk_insert c)) new.

(** A combined text file in which the document id [EFTA00000001] comes
    twice, and a table that holds that document, analysed, under an older
    text. *)
Definition repeated_file : list string :=
  ["EFTA00000001"; "Flight log"; ""; "EFTA00005600"; "Wire memo"; "page 2";
   "EFTA00000001"; "Flight log, second scan"].

Definition analysed_table : LoaderDB :=
  mkLoaderDB
    [mk_documents_full_row
       (mk_documents_row 1 "EFTA00000001" (Some "old text") (Some "A log") None None None None
          (Some ["travel"]) (Some "complete") None) 1 None (Some 1)] 2.




(** A combined text file whose first chunk of [EFTA00000001] has a
    character of code 0 in its text, and whose second chunk of that id has
    none. *)
Definition nul_file : list string :=
  ["EFTA00000001"; String "000" "Flight log"; "EFTA00000001"; "Flight log"].

(** * Properties *)

(** ** Running programs *)



Lemma run_pool_query {B} (s : Stmt B) w :
  run (pool_query s) w =
  ((s (db w)).1, set_db (fun _ => (s (db w)).2) w, [set_db (fun _ => (s (db w)).2) w]).
Proof.
  unfold pool_query, await; simpl. by destruct (s (db w)) as [[b|e] d].
Qed.

(** ** The rely-guarantee rules *)

Section Rules.
Context (R G : relation World).

Lemma wp_stable {A} (p : Prog A) Q w w' :
  rtc R w w' -> wp R G p Q w -> wp R G p Q w'.
Proof.
  intros Hrtc. destruct p; simpl; intros H w0 H0; apply H; by etrans.
Qed.

Lemma wp_mono {A} (p : Prog A) (Q Q' : Result A -> World -> Prop) w :
  (forall r w', Q r w' -> Q' r w') -> wp R G p Q w -> wp R G p Q' w.
Proof.
  intros HQ. revert w. induction p as [a|e|C act k IH]; simpl; intros w H w0 H0.
  - by apply HQ, H.
  - by apply HQ, H.
  - destruct (H w0 H0) as [HG Hk]. split; [done|]. by apply IH.
Qed.

Lemma wp_bind {A B} (p : Prog A) (f : A -> Prog B) Q w :
  wp R G p (fun r w' =>
    match r with
    | Ok a => wp R G (f a) Q w'
    | Err e => wp R G (Throw e) Q w'
    end) w ->
  wp R G (bind p f) Q w.
Proof.
  revert w. induction p as [a|e|C act k IH]; simpl; intros w H.
  - by apply H.
  - intros w0 H0. by apply (H w0 H0).
  - intros w0 H0. destruct (H w0 H0) as [HG Hk]. split; [done|]. by apply IH.
Qed.

Lemma wp_try_catch {A} (p : Prog A) (h : JsError -> Prog A) Q w :
  wp R G p (fun r w' =>
    match r with
    | Ok a => wp R G (Ret a) Q w'
    | Err e => wp R G (h e) Q w'
    end) w ->
  wp R G (try_catch p h) Q w.
Proof.
  revert w. induction p as [a|e|C act k IH]; simpl; intros w H.
  - intros w0 H0. by apply (H w0 H0).
  - by apply H.
  - intros w0 H0. destruct (H w0 H0) as [HG Hk]. split; [done|]. by apply IH.
Qed.

(** A step whose effect is described for every world satisfying a stable
    assertion [P]. *)
Lemma wp_step {A B} (act : World -> Result B * World) (k : Result B -> Prog A)
    (P : World -> Prop) Q w :
  P w ->
  (forall w0 w1, P w0 -> R w0 w1 -> P w1) ->
  (forall w0, P w0 -> G w0 (act w0).2 /\ wp R G (k (act w0).1) Q (act w0).2) ->
  wp R G (Step act k) Q w.
Proof.
  intros HP Hst H. simpl. intros w0 H0. apply H.
  induction H0; eauto.
Qed.

Lemma wp_ret {A} (a : A) (P : World -> Prop) (Q : Result A -> World -> Prop) w :
  P w ->
  (forall w0 w1, P w0 -> R w0 w1 -> P w1) ->
  (forall w0, P w0 -> Q (Ok a) w0) ->
  wp R G (Ret a) Q w.
Proof. intros HP Hst H. simpl. intros w0 H0. apply H. induction H0; eauto. Qed.

Lemma wp_throw {A} e (P : World -> Prop) (Q : Result A -> World -> Prop) w :
  P w ->
  (forall w0 w1, P w0 -> R w0 w1 -> P w1) ->
  (forall w0, P w0 -> Q (Err e) w0) ->
  wp R G (Throw e) Q w.
Proof. intros HP Hst H. simpl. intros w0 H0. apply H. induction H0; eauto. Qed.

End Rules.

(** ** The pending-batch fetch *)

Lemma pending_row_Some r doc :
  pending_row r = Some doc ->
  d_analysis_status r = Some "pending" /\ d_full_text r = Some (PendingDocument.fullText doc)
  /\ d_id r = PendingDocument.id doc /\ d_doc_id r = PendingDocument.docId doc.
Proof.
  unfold pending_row, pending_with_text, sql_eq_text.
  destruct (d_analysis_status r) as [st|]; simpl; [|done].
  case_bool_decide; simpl; [subst st|done].
  destruct (d_full_text r) as [t|]; simpl; repeat case_bool_decide; try done.
  intros [= <-]. done.
Qed.

Lemma fetched_from_table limit d doc :
  doc ∈ take limit (omap pending_row (documents d)) ->
  exists r, r ∈ documents d /\ pending_row r = Some doc.
Proof.
  intros Hin. apply elem_of_take in Hin as (i & Hi & _).
  apply list_elem_of_lookup_2 in Hi. by apply list_elem_of_omap in Hi.
Qed.

(** C9, as stated, at a concrete table: a pending document whose text is the
    empty string is returned by the fetch. *)
Lemma getDocumentsPendingAnalysis_returns_empty_text :
  let d := mkDB [mk_documents_row 1 "EFTA00000001" (Some "") None None None None None
                   (Some []) (Some "pending") None]
             [] 1 [] 1 [] 1 [] 1 in
  getDocumentsPendingAnalysis_stmt 10 d
  = (Ok [PendingDocument.mk 1 "EFTA00000001" ""], d).
Proof. reflexivity. Qed.

(** C9, amended: for every state of the documents table and every limit, the
    fetch leaves the database as it is and returns at most [limit]
    documents, each taken from a row whose [analysis_status] is ['pending']
    and whose [full_text] is not [NULL] (the text may be empty). *)
Theorem getDocumentsPendingAnalysis_pending_not_null (limit : nat) (d : DB) :
  exists docs,
    getDocumentsPendingAnalysis_stmt limit d = (Ok docs, d)
    /\ (length docs <= limit)%nat
    /\ forall doc, doc ∈ docs ->
         exists r, r ∈ documents d
           /\ d_id r = PendingDocument.id doc
           /\ d_doc_id r = PendingDocument.docId doc
           /\ d_analysis_status r = Some "pending"
           /\ d_full_text r = Some (PendingDocument.fullText doc).
Proof.
  eexists. split; [reflexivity|]. split.
  - rewrite length_take. lia.
  - intros doc Hin. apply fetched_from_table in Hin as (r & Hr & Hp).
    apply pending_row_Some in Hp as (Hst & Htx & Hid & Hdoc). by exists r.
Qed.

(** ** Truncation of the text sent for extraction *)

Lemma length_append (s1 s2 : string) :
  String.length (s1 +:+ s2) = (String.length s1 + String.length s2)%nat.
Proof.
  induction s1 as [|c s1 IH]; [done|].
  change (String c s1 +:+ s2) with (String c (s1 +:+ s2)). simpl. by rewrite IH.
Qed.

Lemma slice0_all (n : nat) (s : string) :
  (String.length s <= n)%nat -> slice0 n s = s.
Proof.
  unfold slice0. revert n. induction s as [|c s IH]; intros [|n] Hn; simpl in *;
    try done; try lia.
  f_equal. apply IH. lia.
Qed.

Lemma length_slice0 (n : nat) (s : string) :
  (n <= String.length s)%nat -> String.length (slice0 n s) = n.
Proof.
  unfold slice0. revert n. induction s as [|c s IH]; intros [|n] Hn; simpl in *;
    try done; try lia.
  f_equal. apply IH. lia.
Qed.

Lemma append_empty_r (s : string) : s +:+ "" = s.
Proof.
  induction s as [|c s IH]; [done|].
  change (String c s +:+ "") with (String c (s +:+ "")). by rewrite IH.
Qed.

(** C7, as stated, at a concrete text: a text within the budget that ends
    with the marker is sent unchanged, so the text sent carries the marker
    although nothing was truncated. *)
Lemma truncatedText_marker_without_truncation :
  Z.of_nat (String.length TRUNCATION_MARKER) <= maxChars
  /\ truncatedText TRUNCATION_MARKER = TRUNCATION_MARKER
  /\ ends_with TRUNCATION_MARKER (truncatedText TRUNCATION_MARKER).
Proof.
  split; [by vm_compute|]. split; [by vm_compute|].
  exists "". by vm_compute.
Qed.

(** C7, amended: the text sent is the first [maxChars] characters of the
    original followed by the marker exactly when the original is longer
    than [maxChars], and is the original otherwise; it is then
    [maxChars + 37] characters long, respectively as long as the original;
    so it ends with the marker if and only if the original exceeds the
    budget or already ends with the marker itself. *)
Theorem truncatedText_spec (text : string) :
  truncatedText text
    = slice0 (Z.to_nat maxChars) text
      +:+ (if Z.of_nat (String.length text) >? maxChars then TRUNCATION_MARKER else "")
  /\ Z.of_nat (String.length (truncatedText text))
     = (if Z.of_nat (String.length text) >? maxChars then maxChars + 37
        else Z.of_nat (String.length text))
  /\ (ends_with TRUNCATION_MARKER (truncatedText text)
      <-> Z.of_nat (String.length text) > maxChars
          \/ ends_with TRUNCATION_MARKER text).
Proof.
  assert (Hmax : 0 <= maxChars) by (by vm_compute).
  unfold truncatedText.
  destruct (Z.of_nat (String.length text) >? maxChars) eqn:Hlen.
  - apply Z.gtb_lt in Hlen. split; [done|]. split.
    + rewrite length_append, length_slice0 by lia.
      change (String.length TRUNCATION_MARKER) with 37%nat. lia.
    + split; [intros _; left; lia|]. intros _. by eexists.
  - rewrite Z.gtb_ltb in Hlen. apply Z.ltb_ge in Hlen. split.
    + rewrite slice0_all by lia. by rewrite append_empty_r.
    + split; [done|]. split; [by right|]. intros [H|H]; [lia|done].
Qed.

(** ** Saving cross-reference matches *)

(** C2 at a concrete input: with one entity and an empty match table, saving
    the same match twice leaves two rows for the same
    (entity, source, source record): the table has no unique index on that
    triple, so [ON CONFLICT DO NOTHING] never skips the second insert. *)
Lemma saveMatches_twice_inserts_duplicate :
  let m := Match.mk 1 "Acme Holdings LLC" match_source.ppp 7 "Acme Holdings Inc" (8 # 10) in
  let w := mkWorld
    (mkDB [] [mk_entities_row 1 "Acme Holdings LLC" entity_type.organization None (Some []) None]
       2 [] 1 [] 1 [] 1) 0 0 0 0 in
  let w1 := final (run (saveMatches [m]) w) in
  let w2 := final (run (saveMatches [m]) w1) in
  entity_crossref_matches (db w1)
    = [mk_entity_crossref_matches_row 1 1 match_source.ppp 7 (8 # 10) (Some "fuzzy") false false]
  /\ entity_crossref_matches (db w2)
    = [mk_entity_crossref_matches_row 1 1 match_source.ppp 7 (8 # 10) (Some "fuzzy") false false;
       mk_entity_crossref_matches_row 2 1 match_source.ppp 7 (8 # 10) (Some "fuzzy") false false].
Proof. split; reflexivity. Qed.

(** ** Layer classification *)

Lemma world_eta w : mkWorld (db w) (processed w) (errors w) (totalEntities w) (totalTriples w) = w.
Proof. by destruct w. Qed.

Lemma set_db_same w : set_db (fun _ => db w) w = w.
Proof. by destruct w. Qed.

Lemma set_entities_same (f : list entities_row -> list entities_row) d :
  f (entities d) = entities d -> set_entities f d = d.
Proof. intros H. unfold set_entities. rewrite H. by destruct d. Qed.

Lemma first_assignment_refl r : first_assignment r r.
Proof. by left. Qed.

Lemma set_layer_where_first_assignment n ids es :
  Forall2 first_assignment es (set_layer_where n ids es).
Proof.
  unfold set_layer_where. induction es as [|r es IH]; simpl; constructor; [|done].
  destruct (bool_decide (e_id r ∈ ids) && bool_decide (e_layer r = None)) eqn:Hc.
  - apply andb_true_iff in Hc as [_ Hn%bool_decide_eq_true]. right. eauto.
  - by left.
Qed.

Lemma set_layer3_first_assignment es :
  Forall2 first_assignment es
    ((fun r => if bool_decide (e_layer r = None) then
        mk_entities_row (e_id r) (e_canonical_name r) (e_entity_type r) (Some 3)
          (e_aliases r) (e_description r)
      else r) <$> es).
Proof.
  induction es as [|r es IH]; simpl; constructor; [|done].
  case_bool_decide; [right; eauto|by left].
Qed.

Lemma set_layer_where_labelled n ids es :
  labelled es -> set_layer_where n ids es = es.
Proof.
  unfold labelled, set_layer_where. induction 1 as [|r es Hr _ IH]; csimpl; [done|].
  rewrite IH. rewrite (bool_decide_eq_false_2 _ Hr), andb_false_r. done.
Qed.

Lemma set_layer3_labelled es :
  labelled es ->
  (fun r => if bool_decide (e_layer r = None) then
      mk_entities_row (e_id r) (e_canonical_name r) (e_entity_type r) (Some 3)
        (e_aliases r) (e_description r)
    else r) <$> es = es.
Proof.
  unfold labelled. induction 1 as [|r es Hr _ IH]; csimpl; [done|].
  rewrite IH. by rewrite (bool_decide_eq_false_2 _ Hr).
Qed.

Lemma set_layer3_labels es :
  labelled ((fun r => if bool_decide (e_layer r = None) then
      mk_entities_row (e_id r) (e_canonical_name r) (e_entity_type r) (Some 3)
        (e_aliases r) (e_description r)
    else r) <$> es).
Proof.
  unfold labelled. induction es as [|r es IH]; simpl; constructor; [|done].
  by case_bool_decide.
Qed.

Lemma epstein_set_layer (f : list entities_row -> list entities_row) d :
  Forall2 first_assignment (entities d) (f (entities d)) ->
  epstein (set_entities f d) = epstein d.
Proof.
  unfold epstein. simpl. generalize (f (entities d)) as es'.
  induction (entities d) as [|r es IH]; intros es' H; inversion H as [|? r' ? es'' Hr Hes]; subst;
    [done|].
  rewrite !filter_cons. specialize (IH es'' Hes).
  assert (Hk : e_canonical_name r' = e_canonical_name r /\ e_entity_type r' = e_entity_type r
               /\ e_id r' = e_id r).
  { destruct Hr as [->|(_ & n & ->)]; done. }
  destruct Hk as (Hn & Ht & Hi).
  repeat case_decide; csimpl; rewrite ?Hi, ?IH; try done;
    rewrite Hn, Ht in *; tauto.
Qed.

Lemma run_calculateEntityLayers w :
  run calculateEntityLayers w =
  match scalar_subquery (epstein (db w)) with
  | Err e => (Err e, set_db (fun _ => db w) w, [set_db (fun _ => db w) w])
  | Ok root =>
      let w1 := set_db (fun _ => set_entities (set_layer_where 1 (layer1_entities (db w) root))
                                   (db w)) w in
      let w2 := set_db (fun _ => (set_layer2 (db w1)).2) w1 in
      let w3 := set_db (fun _ => (set_layer3 (db w2)).2) w2 in
      (Ok tt, w3, [w1; w2; w3])
  end.
Proof.
  unfold calculateEntityLayers, pool_query, await, set_layer1. simpl.
  by destruct (scalar_subquery (epstein (db w))).
Qed.

Lemma run_calculateEntityLayers_labelled w :
  labelled (entities (db w)) ->
  run calculateEntityLayers w =
  match scalar_subquery (epstein (db w)) with
  | Err e => (Err e, w, [w])
  | Ok _ => (Ok tt, w, [w; w; w])
  end.
Proof.
  intros Hlab. rewrite run_calculateEntityLayers.
  destruct (scalar_subquery (epstein (db w))) as [root|e]; [|by rewrite set_db_same].
  cbv zeta.
  assert (H1 : set_entities (set_layer_where 1 (layer1_entities (db w) root)) (db w) = db w).
  { apply set_entities_same. by apply set_layer_where_labelled. }
  rewrite H1, set_db_same. unfold set_layer2. cbn [snd].
  assert (H2 : set_entities (set_layer_where 2 (layer2_candidates (db w))) (db w) = db w).
  { apply set_entities_same. by apply set_layer_where_labelled. }
  rewrite H2, set_db_same. unfold set_layer3. cbn [snd].
  rewrite (set_entities_same _ (db w)) by (by apply set_layer3_labelled).
  by rewrite set_db_same.
Qed.

(** C8: every statement of [calculateEntityLayers] leaves a row as it is or
    sets the layer of a row whose layer is [NULL], so a layer that is set is
    never changed; and on every state a second run, started where the first
    ended, has the same outcome and changes nothing: each of its
    intermediate states and its final state is the final state of the first
    run. *)
Theorem calculateEntityLayers_first_assignment_idempotent (w : World) :
  let first := run calculateEntityLayers w in
  let second := run calculateEntityLayers (final first) in
  chain layer_step w (trace first)
  /\ outcome second = outcome first
  /\ final second = final first
  /\ Forall (fun w' => w' = final first) (trace second).
Proof.
  cbv zeta. rewrite (run_calculateEntityLayers w).
  destruct (scalar_subquery (epstein (db w))) as [root|e] eqn:Hroot.
  - cbv zeta. unfold outcome, final, trace. cbn [fst snd].
    set (d1 := set_entities (set_layer_where 1 (layer1_entities (db w) root)) (db w)).
    set (w1 := set_db (fun _ => d1) w).
    set (d2 := (set_layer2 (db w1)).2). set (w2 := set_db (fun _ => d2) w1).
    set (d3 := (set_layer3 (db w2)).2). set (w3 := set_db (fun _ => d3) w2).
    assert (Hlab : labelled (entities (db w3))) by apply set_layer3_labels.
    assert (He : epstein (db w3) = epstein (db w)).
    { unfold w3, d3, set_layer3. cbn [db set_db snd].
      rewrite epstein_set_layer by apply set_layer3_first_assignment.
      unfold w2. cbn [db set_db]. unfold d2, set_layer2. cbn [snd].
      rewrite epstein_set_layer by apply set_layer_where_first_assignment.
      unfold w1. cbn [db set_db]. unfold d1.
      by rewrite epstein_set_layer by apply set_layer_where_first_assignment. }
    split.
    { cbn [chain]. unfold layer_step. repeat split.
      - apply set_layer_where_first_assignment.
      - apply set_layer_where_first_assignment.
      - apply set_layer3_first_assignment. }
    rewrite (run_calculateEntityLayers_labelled w3 Hlab), He, Hroot. cbn [fst snd].
    repeat split; auto.
  - unfold outcome, final, trace. cbn [fst snd]. rewrite set_db_same.
    split.
    { split; [|done]. unfold layer_step. apply Forall2_same_length_lookup_2; [done|].
      intros i x y Hx Hy. rewrite Hx in Hy. injection Hy as ->. by left. }
    assert (Hrun : run calculateEntityLayers w = (Err e, w, [w])).
    { rewrite run_calculateEntityLayers, Hroot. by rewrite set_db_same. }
    rewrite Hrun. cbn [fst snd]. repeat split; auto.
Qed.

Lemma elem_of_layer1_entities d root a :
  a ∈ layer1_entities d (Some root) <-> a <> root /\ shares_document d a root.
Proof.
  unfold layer1_entities, epstein_docs, shares_document.
  rewrite elem_of_remove_dups, list_elem_of_fmap. split.
  - intros (x & -> & Hx). apply list_elem_of_filter in Hx as [[Hdoc Hne] Hx].
    simpl in Hne. apply bool_decide_eq_true in Hne. split; [done|].
    rewrite elem_of_remove_dups, list_elem_of_fmap in Hdoc.
    destruct Hdoc as (y & Hy & Hyin). apply list_elem_of_filter in Hyin as [Hyr Hyin].
    simpl in Hyr. apply bool_decide_eq_true in Hyr. by exists x, y.
  - intros (Hne & x & y & Hx & Hy & <- & Hyr & Hdoc). exists x. split; [done|].
    apply list_elem_of_filter. split; [|done]. split.
    + rewrite elem_of_remove_dups, list_elem_of_fmap. exists y. split; [done|].
      apply list_elem_of_filter. split; [|done]. simpl. by apply bool_decide_eq_true.
    + simpl. by apply bool_decide_eq_true.
Qed.

Lemma elem_of_layer2_candidates d a :
  a ∈ layer2_candidates d <-> shares_with_layer1 d (entities d) a.
Proof.
  unfold layer2_candidates, layer1_docs, layer1, shares_with_layer1, shares_document.
  rewrite elem_of_remove_dups, list_elem_of_fmap. split.
  - intros (x & -> & Hx). apply list_elem_of_filter in Hx as [Hdoc Hx].
    rewrite elem_of_remove_dups, list_elem_of_fmap in Hdoc.
    destruct Hdoc as (y & Hy & Hyin). apply list_elem_of_filter in Hyin as [Hyl Hyin].
    apply list_elem_of_fmap in Hyl as (l & Hl & Hlin).
    apply list_elem_of_filter in Hlin as [Hlay Hlin].
    exists l. split; [done|]. split; [done|]. by exists x, y.
  - intros (l & Hl & Hlay & x & y & Hx & Hy & <- & Hyl & Hdoc). exists x. split; [done|].
    apply list_elem_of_filter. split; [|done].
    rewrite elem_of_remove_dups, list_elem_of_fmap. exists y. split; [done|].
    apply list_elem_of_filter. split; [|done].
    apply list_elem_of_fmap. exists l. split; [done|]. by apply list_elem_of_filter.
Qed.

Lemma shares_with_layer1_fmap d (g : entities_row -> entities_row) es a :
  (forall r, e_id (g r) = e_id r /\ (e_layer (g r) = Some 1 <-> e_layer r = Some 1)) ->
  shares_with_layer1 d (g <$> es) a <-> shares_with_layer1 d es a.
Proof.
  intros Hg. unfold shares_with_layer1. split.
  - intros (l & Hl & Hlay & Hsh). apply list_elem_of_fmap in Hl as (l0 & -> & Hl0).
    destruct (Hg l0) as [Hid Hiff]. exists l0. rewrite <- Hid. by rewrite <- Hiff.
  - intros (l & Hl & Hlay & Hsh). exists (g l). destruct (Hg l) as [Hid Hiff].
    rewrite Hid, Hiff. split; [|done]. by apply list_elem_of_fmap_2.
Qed.

(** C3: started where only the root has a layer, a full run succeeds, leaves
    the document links as they are, and labels every entity: the root keeps
    layer 0; another entity has layer 1 exactly when it shares a document
    with the root, layer 2 exactly when it does not but shares a document
    with an entity of layer 1, and layer 3 exactly when neither holds; no
    layer is left [NULL]. *)
Theorem calculateEntityLayers_bfs_labelling (w : World) (root : Z) :
  only_root_labelled (db w) root ->
  let res := run calculateEntityLayers w in
  let d := db w in
  let es' := entities (db (final res)) in
  outcome res = Ok tt
  /\ document_entities (db (final res)) = document_entities d
  /\ e_id <$> es' = e_id <$> entities d
  /\ forall r, r ∈ es' ->
       (e_id r = root -> e_layer r = Some 0)
       /\ (e_id r <> root ->
            (e_layer r = Some 1 <-> shares_document d (e_id r) root)
            /\ (e_layer r = Some 2 <->
                  ~ shares_document d (e_id r) root /\ shares_with_layer1 d es' (e_id r))
            /\ (e_layer r = Some 3 <->
                  ~ shares_document d (e_id r) root /\ ~ shares_with_layer1 d es' (e_id r)))
       /\ e_layer r <> None.
Proof.
  intros [Hroot Hinit]. cbv zeta. rewrite run_calculateEntityLayers, Hroot.
  cbn [scalar_subquery]. cbv zeta. unfold outcome, final, trace. cbn [fst snd].
  set (ids1 := layer1_entities (db w) (Some root)).
  set (d1 := set_entities (set_layer_where 1 ids1) (db w)).
  unfold set_layer2, set_layer3. cbn [snd db set_db].
  set (ids2 := layer2_candidates d1).
  set (f1 := fun r => if bool_decide (e_id r ∈ ids1) && bool_decide (e_layer r = None)
    then mk_entities_row (e_id r) (e_canonical_name r) (e_entity_type r) (Some 1)
           (e_aliases r) (e_description r) else r).
  set (f2 := fun r => if bool_decide (e_id r ∈ ids2) && bool_decide (e_layer r = None)
    then mk_entities_row (e_id r) (e_canonical_name r) (e_entity_type r) (Some 2)
           (e_aliases r) (e_description r) else r).
  set (f3 := fun r => if bool_decide (e_layer r = None)
    then mk_entities_row (e_id r) (e_canonical_name r) (e_entity_type r) (Some 3)
           (e_aliases r) (e_description r) else r).
  change (entities (set_entities (fmap f3) (set_entities (set_layer_where 2 ids2) d1)))
    with (f3 <$> (f2 <$> (f1 <$> entities (db w)))).
  assert (Hid1 : forall r, e_id (f1 r) = e_id r).
  { intros r. unfold f1. by destruct (_ && _). }
  assert (Hid2 : forall r, e_id (f2 r) = e_id r).
  { intros r. unfold f2. by destruct (_ && _). }
  assert (Hid3 : forall r, e_id (f3 r) = e_id r).
  { intros r. unfold f3. by case_bool_decide. }
  split; [done|]. split; [done|]. split.
  { rewrite <- !list_fmap_compose. apply list_fmap_ext. intros i r _. simpl.
    by rewrite Hid3, Hid2, Hid1. }
  assert (Hl1 : forall a, shares_with_layer1 (db w) (f3 <$> (f2 <$> (f1 <$> entities (db w)))) a
                          <-> a ∈ ids2).
  { intros a. unfold ids2. rewrite elem_of_layer2_candidates.
    change (entities d1) with (f1 <$> entities (db w)).
    rewrite (shares_with_layer1_fmap _ f3), (shares_with_layer1_fmap _ f2).
    - done.
    - intros r. split; [apply Hid2|]. unfold f2.
      destruct (_ && _) eqn:Hc; [|done]. apply andb_true_iff in Hc as [_ Hn%bool_decide_eq_true].
      simpl. rewrite Hn. split; discriminate.
    - intros r. split; [apply Hid3|]. unfold f3.
      case_bool_decide as Hn; [|done]. simpl. rewrite Hn. split; discriminate. }
  intros r' Hr'.
  apply list_elem_of_fmap in Hr' as (r2 & -> & Hr2).
  apply list_elem_of_fmap in Hr2 as (r1 & -> & Hr1).
  apply list_elem_of_fmap in Hr1 as (r & -> & Hr).
  rewrite Hid3, Hid2, Hid1. setoid_rewrite Hl1.
  specialize (Hinit r Hr).
  assert (H1 : e_id r ∈ ids1 <-> e_id r <> root /\ shares_document (db w) (e_id r) root)
    by apply elem_of_layer1_entities.
  assert (L1 : forall x, e_layer (f1 x) =
            match e_layer x with
            | Some l => Some l
            | None => if bool_decide (e_id x ∈ ids1) then Some 1 else None
            end).
  { intros x. unfold f1. destruct (e_layer x) eqn:Hx; simpl.
    - by rewrite andb_false_r.
    - rewrite andb_true_r. by destruct (bool_decide (e_id x ∈ ids1)). }
  assert (L2 : forall x, e_layer (f2 x) =
            match e_layer x with
            | Some l => Some l
            | None => if bool_decide (e_id x ∈ ids2) then Some 2 else None
            end).
  { intros x. unfold f2. destruct (e_layer x) eqn:Hx; simpl.
    - by rewrite andb_false_r.
    - rewrite andb_true_r. by destruct (bool_decide (e_id x ∈ ids2)). }
  assert (L3 : forall x, e_layer (f3 x) =
            match e_layer x with Some l => Some l | None => Some 3 end).
  { intros x. unfold f3. by destruct (e_layer x) eqn:Hx; simpl. }
  rewrite L3, L2, L1, Hid1, Hinit. clear L1 L2 L3.
  case_bool_decide as Hisroot; [done|].
  case_bool_decide as Hin1.
  { apply H1 in Hin1 as [_ Hsh]. split; [done|]. split; [|done].
    intros _. split; [done|]. split; split; try done; intros [Hn _]; done. }
  assert (Hnsh : ~ shares_document (db w) (e_id r) root) by (intros Hsh; by apply Hin1, H1).
  case_bool_decide as Hin2.
  { split; [done|]. split; [|done].
    intros _. split; [split; [done|tauto]|]. split; [done|]. split; [done|tauto]. }
  split; [done|]. split; [|done].
  intros _. split; [split; [done|tauto]|]. split; [split; [done|tauto]|done].
Qed.

Lemma calculateEntityLayers_bfs_labelling_scenario :
  only_root_labelled (db layer_scenario) 1
  /\ let res := run calculateEntityLayers layer_scenario in
     let d := db layer_scenario in
     let es' := entities (db (final res)) in
     outcome res = Ok tt
     /\ document_entities (db (final res)) = document_entities d
     /\ e_id <$> es' = e_id <$> entities d
     /\ forall r, r ∈ es' ->
          (e_id r = 1 -> e_layer r = Some 0)
          /\ (e_id r <> 1 ->
               (e_layer r = Some 1 <-> shares_document d (e_id r) 1)
               /\ (e_layer r = Some 2 <->
                     ~ shares_document d (e_id r) 1 /\ shares_with_layer1 d es' (e_id r))
               /\ (e_layer r = Some 3 <->
                     ~ shares_document d (e_id r) 1 /\ ~ shares_with_layer1 d es' (e_id r)))
          /\ e_layer r <> None.
Proof.
  assert (H : only_root_labelled (db layer_scenario) 1).
  { split; [reflexivity|]. intros r Hr. simpl in Hr.
    repeat (apply elem_of_cons in Hr as [->|Hr]; [reflexivity|]).
    by apply elem_of_nil in Hr. }
  split; [exact H|]. exact (calculateEntityLayers_bfs_labelling layer_scenario 1 H).
Defined.

Example layer_scenario_layers :
  e_layer <$> entities (db (final (run calculateEntityLayers layer_scenario)))
  = [Some 0; Some 1; Some 2; Some 3].
Proof. reflexivity. Qed.

(** ** The canonicalizer: one row per (canonical name, type) *)






Lemma NoDup_key_inj {A K} (f : A -> K) (l : list A) x y :
  NoDup (f <$> l) -> x ∈ l -> y ∈ l -> f x = f y -> x = y.
Proof.
  intros Hnd Hx Hy Hf.
  apply list_elem_of_lookup in Hx as [i Hi]. apply list_elem_of_lookup in Hy as [j Hj].
  assert (i = j) as ->; [|congruence].
  eapply NoDup_lookup; [exact Hnd| |].
  - rewrite list_lookup_fmap, Hi. reflexivity.
  - rewrite list_lookup_fmap, Hj. simpl. by rewrite Hf.
Qed.




(** ** Programs that leave the documents table alone *)

Lemma neutral_bind {A B} (p : Prog A) (f : A -> Prog B) :
  neutral p -> (forall a, neutral (f a)) -> neutral (p ≫= f).
Proof.
  intros Hp Hf. induction Hp as [a|e|C act k Hact Hk IH].
  - apply Hf.
  - constructor.
  - change (neutral (Step act (fun r => k r ≫= f))). by constructor.
Qed.

Lemma neutral_await {B} (act : World -> Result B * World) :
  (forall w, documents (db (act w).2) = documents (db w)) -> neutral (await act).
Proof. intros H. constructor; [done|]. intros [b|e]; constructor. Qed.

Lemma neutral_pool_query {B} (s : Stmt B) :
  (forall d, documents (s d).2 = documents d) -> neutral (pool_query s).
Proof.
  intros H. apply neutral_await. intros w. specialize (H (db w)).
  by destruct (s (db w)) as [r d].
Qed.

Lemma neutral_sync (f : World -> World) :
  (forall w, documents (db (f w)) = documents (db w)) -> neutral (sync f).
Proof. intros H. constructor; [done|]. intros r. constructor. Qed.

Lemma neutral_of_result {A} (r : Result A) : neutral (of_result r).
Proof. destruct r; constructor. Qed.

Lemma neutral_for_of_with {A S} (xs : list A) (body : A -> S -> Prog S) s :
  (forall x s, neutral (body x s)) -> neutral (for_of_with xs body s).
Proof.
  intros Hb. revert s. induction xs as [|x xs IH]; intros s; simpl; [constructor|].
  apply neutral_bind; [apply Hb|apply IH].
Qed.

Lemma upsertEntity_stmt_documents nm ty al desc d :
  documents (upsertEntity_stmt nm ty al desc d).2 = documents d.
Proof.
  unfold upsertEntity_stmt. destruct (entity_type.cast ty); [|done].
  destruct (List.find _ _); [done|]. by case_bool_decide.
Qed.

Lemma linkEntityToDocument_stmt_documents e doc n c d :
  documents (linkEntityToDocument_stmt e doc n c d).2 = documents d.
Proof.
  unfold linkEntityToDocument_stmt. destruct (existsb _ _); [done|].
  destruct (negb _); [done|]. by case_bool_decide.
Qed.

Lemma insertTriple_stmt_documents t d :
  documents (insertTriple_stmt t d).2 = documents d.
Proof.
  unfold insertTriple_stmt. destruct (date_param _); [|done].
  destruct (negb _); [done|]. by case_bool_decide.
Qed.

Section Neutral.
Variable rt : Runtime.

Lemma neutral_upsertEntity nm ty al desc : neutral (upsertEntity nm ty al desc).
Proof. apply neutral_pool_query. intros d. apply upsertEntity_stmt_documents. Qed.

Lemma neutral_extractFromDocument docId text : neutral (extractFromDocument rt docId text).
Proof.
  unfold extractFromDocument. apply neutral_bind; [by apply neutral_await|].
  intros response. destruct (head response) as [[t|ty]|]; try constructor.
  apply neutral_bind; [apply neutral_of_result|].
  intros parsed. destruct (DocumentAnalysisSchema _); constructor.
Qed.

Lemma neutral_insertEntities doc analysis : neutral (insertEntities rt doc analysis).
Proof.
  unfold insertEntities. apply neutral_for_of_with. intros entity m.
  apply neutral_bind; [apply neutral_upsertEntity|]. intros entityId.
  apply neutral_bind; [|constructor].
  apply neutral_pool_query. intros d. apply linkEntityToDocument_stmt_documents.
Qed.

Lemma neutral_created (m : gmap string Z) nm ty :
  neutral (created ← upsertEntity nm ty None None;
           Ret (created, <[toLowerCase rt nm := created]> m)).
Proof. apply neutral_bind; [apply neutral_upsertEntity|]. constructor. Qed.

Lemma neutral_getOrCreate m nm ty : neutral (getOrCreate rt m nm ty).
Proof.
  unfold getOrCreate. destruct (m !! _) as [found|]; [|apply neutral_created].
  case_bool_decide; [apply neutral_created|constructor].
Qed.

Lemma neutral_insertTriples_with resolve doc analysis m :
  (forall m nm ty, neutral (resolve m nm ty)) ->
  neutral (insertTriples_with rt resolve doc analysis m).
Proof.
  intros Hres. unfold insertTriples_with. apply neutral_for_of_with.
  intros [i triple] m'. apply neutral_bind; [apply Hres|]. intros [subjectId m1].
  apply neutral_bind; [apply Hres|]. intros [objectId m2].
  apply neutral_bind.
  { destruct (truthy _); [|constructor]. apply neutral_bind; [apply Hres|].
    intros [l m3]. constructor. }
  intros [locationId m3]. apply neutral_bind; [|constructor].
  apply neutral_pool_query. intros d. apply insertTriple_stmt_documents.
Qed.

End Neutral.

(** ** One task and its row *)

Lemma row_step_refl r : row_step r r.
Proof. unfold row_step. auto. Qed.

Lemma Forall2_diag {A} (P : A -> A -> Prop) (l : list A) :
  (forall x, P x x) -> Forall2 P l l.
Proof. intros H. induction l; constructor; auto. Qed.

Lemma Forall2_fmap_keys {A K} (P : A -> A -> Prop) (f : A -> K) (l l' : list A) :
  (forall x y, P x y -> f y = f x) -> Forall2 P l l' -> f <$> l' = f <$> l.
Proof. intros H. induction 1; csimpl; [done|]. f_equal; auto. Qed.

Section Task.
Variable doc : PendingDocument.t.

Local Abbreviation R := (task_rely doc).
Local Abbreviation G := (task_guarantee doc).

Lemma task_guarantee_same_documents w w' :
  documents (db w') = documents (db w) -> G w w'.
Proof. unfold task_guarantee. intros ->. apply Forall2_diag. by left. Qed.

Lemma docs_wf_rely w w' : docs_wf w -> R w w' -> docs_wf w'.
Proof.
  unfold docs_wf, task_rely. intros [Hid Hdoc] HR.
  rewrite (Forall2_fmap_keys _ d_id _ _ (fun x y H => proj1 H) HR).
  rewrite (Forall2_fmap_keys _ d_doc_id _ _ (fun x y H => proj1 (proj2 H)) HR). done.
Qed.

Lemma row_status_rely st w w' : row_status doc st w -> R w w' -> row_status doc st w'.
Proof.
  intros [Hwf (r & Hr & Hmine & Hst)] HR. split; [by eapply docs_wf_rely|].
  apply list_elem_of_lookup in Hr as [i Hi].
  destruct (Forall2_lookup_l _ _ _ _ _ HR Hi) as (r' & Hi' & _ & _ & Heq).
  rewrite (Heq Hmine) in Hi'. exists r. split; [|done]. by eapply list_elem_of_lookup_2.
Qed.

Lemma row_status_same_documents st w w' :
  row_status doc st w -> documents (db w') = documents (db w) -> row_status doc st w'.
Proof. unfold row_status, docs_wf. by intros H ->. Qed.

(** The row of the task is the only row with its id, and the only row with
    its document id. *)
Lemma row_status_by_id st w r :
  row_status doc st w -> r ∈ documents (db w) -> d_id r = PendingDocument.id doc ->
  mine doc r /\ d_analysis_status r = Some st.
Proof.
  intros [[Hid _] (r0 & Hr0 & Hmine & Hst)] Hr Hi.
  assert (r = r0) as ->; [|done].
  eapply (NoDup_key_inj d_id); [done..|]. destruct Hmine as [-> _]. done.
Qed.

Lemma row_status_by_doc_id st w r :
  row_status doc st w -> r ∈ documents (db w) -> d_doc_id r = PendingDocument.docId doc ->
  mine doc r /\ d_analysis_status r = Some st.
Proof.
  intros [[_ Hdoc] (r0 & Hr0 & Hmine & Hst)] Hr Hi.
  assert (r = r0) as ->; [|done].
  eapply (NoDup_key_inj d_doc_id); [done..|]. destruct Hmine as [_ ->]. done.
Qed.

(** An [UPDATE] that selects by a key of the task's row and moves its
    status from [st] to [st']. *)
Lemma keyed_update (sel : documents_row -> bool) (upd : documents_row -> documents_row)
    st st' w w' :
  row_status doc st w ->
  (forall r, r ∈ documents (db w) -> sel r = true ->
     d_id r = PendingDocument.id doc \/ d_doc_id r = PendingDocument.docId doc) ->
  (forall r, mine doc r -> sel r = true) ->
  (forall r, d_id (upd r) = d_id r /\ d_doc_id (upd r) = d_doc_id r
             /\ d_full_text (upd r) = d_full_text r
             /\ d_analysis_status (upd r) = Some st') ->
  status_step (Some st) (Some st') ->
  documents (db w') = (fun r => if sel r then upd r else r) <$> documents (db w) ->
  G w w' /\ row_status doc st' w'.
Proof.
  intros Hrow Hsel Hmine Hupd Hstep Hdocs.
  assert (Hown : forall r, r ∈ documents (db w) -> sel r = true ->
                   mine doc r /\ d_analysis_status r = Some st).
  { intros r Hr Hs. destruct (Hsel r Hr Hs); [by eapply row_status_by_id|
      by eapply row_status_by_doc_id]. }
  split.
  - unfold task_guarantee. rewrite Hdocs. apply Forall2_fmap_r.
    apply Forall2_same_length_lookup_2; [done|]. intros i x y Hx Hy.
    rewrite Hx in Hy. injection Hy as <-. simpl.
    destruct (sel x) eqn:Hs; [|by left]. right.
    destruct (Hown x (list_elem_of_lookup_2 _ _ _ Hx) Hs) as [Hm Hst].
    split; [done|]. destruct (Hupd x) as (? & ? & ? & Hst').
    unfold row_step. rewrite Hst, Hst'. auto.
  - destruct Hrow as [[Hid Hdoc] (r0 & Hr0 & Hm0 & Hst0)].
    assert (Hk : forall r, d_id (if sel r then upd r else r) = d_id r
                           /\ d_doc_id (if sel r then upd r else r) = d_doc_id r).
    { intros r. destruct (sel r); [|done]. destruct (Hupd r) as (? & ? & _). done. }
    split.
    + unfold docs_wf. rewrite Hdocs, <- !list_fmap_compose. split.
      * erewrite list_fmap_ext; [exact Hid|]. intros i r _. apply Hk.
      * erewrite list_fmap_ext; [exact Hdoc|]. intros i r _. apply Hk.
    + exists (upd r0). rewrite Hdocs. split; [|split].
      * apply list_elem_of_fmap. exists r0. by rewrite (Hmine r0 Hm0).
      * destruct (Hupd r0) as (Hi & Hd & _). unfold mine in *. by rewrite Hi, Hd.
      * apply Hupd.
Qed.

Lemma mark_processing_step w :
  row_status doc "pending" w ->
  let w1 := set_db (fun _ => (mark_processing (PendingDocument.id doc) (db w)).2) w in
  G w w1 /\ row_status doc "processing" w1.
Proof.
  intros Hrow. eapply (keyed_update (fun r => bool_decide (d_id r = PendingDocument.id doc)));
    [exact Hrow| | | | |reflexivity].
  - intros r _ Hs. left. by apply bool_decide_eq_true in Hs.
  - intros r [Hi _]. by apply bool_decide_eq_true.
  - done.
  - left. left. done.
Qed.

Lemma mark_failed_step st msg w :
  row_status doc st w -> st = "processing" \/ st = "complete" ->
  let w1 := set_db (fun _ => (mark_failed (PendingDocument.id doc) msg (db w)).2) w in
  G w w1 /\ row_status doc "failed" w1.
Proof.
  intros Hrow Hst. eapply (keyed_update (fun r => bool_decide (d_id r = PendingDocument.id doc)));
    [exact Hrow| | | | |reflexivity].
  - intros r _ Hs. left. by apply bool_decide_eq_true in Hs.
  - intros r [Hi _]. by apply bool_decide_eq_true.
  - done.
  - destruct Hst as [-> | ->]; [left; right; right|right]; done.
Qed.

Lemma updateDocumentAnalysis_step analysis w :
  row_status doc "processing" w ->
  match updateDocumentAnalysis_stmt (PendingDocument.docId doc) analysis (db w) with
  | (Ok _, d) => G w (set_db (fun _ => d) w) /\ row_status doc "complete" (set_db (fun _ => d) w)
  | (Err _, d) => d = db w
  end.
Proof.
  intros Hrow. unfold updateDocumentAnalysis_stmt.
  destruct (date_param (u_dateEarliest analysis)) as [de|e1];
    destruct (date_param (u_dateLatest analysis)) as [dl|e2]; try done.
  eapply (keyed_update (fun r => bool_decide (d_doc_id r = PendingDocument.docId doc)));
    [exact Hrow| | | | |reflexivity].
  - intros r _ Hs. right. by apply bool_decide_eq_true in Hs.
  - intros r [_ Hi]. by apply bool_decide_eq_true.
  - done.
  - left. right. left. done.
Qed.

(** A neutral program keeps an assertion on the documents table. *)
Lemma wp_neutral {A} (p : Prog A) (P : World -> Prop) w :
  neutral p ->
  (forall w w', P w -> documents (db w') = documents (db w) -> P w') ->
  (forall w w', P w -> R w w' -> P w') ->
  P w -> wp R G p (fun _ w' => P w') w.
Proof.
  intros Hn Hdocs Hst. revert w.
  assert (Hrtc : forall w w0, P w -> rtc R w w0 -> P w0).
  { intros w w0 HP Hr. induction Hr; eauto. }
  induction Hn as [a|e|B act k Hact Hk IH]; intros w HP; simpl.
  - intros w0 H0. by eapply Hrtc.
  - intros w0 H0. by eapply Hrtc.
  - intros w0 H0. split.
    + by apply task_guarantee_same_documents.
    + apply IH. eapply Hdocs; [by eapply Hrtc|done].
Qed.

Lemma wp_neutral_bind {A B} (p : Prog A) (f : A -> Prog B) (P : World -> Prop) Q w :
  neutral p ->
  (forall w w', P w -> documents (db w') = documents (db w) -> P w') ->
  (forall w w', P w -> R w w' -> P w') ->
  P w ->
  (forall a w', P w' -> wp R G (f a) Q w') ->
  (forall e w', P w' -> wp R G (Throw e) Q w') ->
  wp R G (p ≫= f) Q w.
Proof.
  intros Hn Hdocs Hst HP Hok Herr. apply wp_bind.
  eapply wp_mono; [|by apply wp_neutral].
  intros [a|e] w' HP'; simpl; [by apply Hok|by apply (Herr e)].
Qed.

Lemma wp_pool_query_bind {A B} (s : Stmt A) (f : A -> Prog B) (P : World -> Prop) Q w :
  P w ->
  (forall w w', P w -> R w w' -> P w') ->
  (forall w0, P w0 ->
     let w1 := set_db (fun _ => (s (db w0)).2) w0 in
     G w0 w1 /\ match (s (db w0)).1 with
               | Ok a => wp R G (f a) Q w1
               | Err e => wp R G (Throw e) Q w1
               end) ->
  wp R G (pool_query s ≫= f) Q w.
Proof.
  intros HP Hst H. unfold pool_query, await.
  change (wp R G (Step (fun w => let '(r, d) := s (db w) in (r, set_db (fun _ => d) w))
            (fun r => match r with Ok b => Ret b | Err e => Throw e end ≫= f)) Q w).
  eapply wp_step; [exact HP|exact Hst|]. intros w0 HP0. specialize (H w0 HP0).
  destruct (s (db w0)) as [[a|e] d]; simpl in *; done.
Qed.

Lemma in_flight_rely w w' : in_flight doc w -> R w w' -> in_flight doc w'.
Proof. intros [H|H] HR; [left|right]; by eapply row_status_rely. Qed.

Lemma in_flight_same_documents w w' :
  in_flight doc w -> documents (db w') = documents (db w) -> in_flight doc w'.
Proof. intros [H|H] HR; [left|right]; by eapply row_status_same_documents. Qed.

Lemma wp_sync_bind {B} (f : World -> World) (k : unit -> Prog B) (P : World -> Prop) Q w :
  (forall w, documents (db (f w)) = documents (db w)) ->
  (forall w w', P w -> documents (db w') = documents (db w) -> P w') ->
  (forall w w', P w -> R w w' -> P w') ->
  P w ->
  (forall w', P w' -> wp R G (k tt) Q w') ->
  wp R G (sync f ≫= k) Q w.
Proof.
  intros Hf Hdocs Hst HP Hk. unfold sync.
  change (wp R G (Step (fun w => (Ok tt, f w)) (fun _ => k tt)) Q w).
  eapply wp_step; [exact HP|exact Hst|]. intros w0 H0. simpl. split.
  - by apply task_guarantee_same_documents.
  - apply Hk. eapply Hdocs; [exact H0|apply Hf].
Qed.

End Task.

Section TaskProgram.
Variable rt : Runtime.
Variable resolve : gmap string Z -> string -> string -> Prog (Z * gmap string Z).
Hypothesis resolve_neutral : forall m nm ty, neutral (resolve m nm ty).
Variable doc : PendingDocument.t.

Local Abbreviation R := (task_rely doc).
Local Abbreviation G := (task_guarantee doc).

(** The [catch] block: from a row in flight to a failed row. *)
Lemma wp_processDocument_catch error w :
  in_flight doc w ->
  wp R G (processDocument_catch doc error) (settled_row doc) w.
Proof.
  intros Hw. unfold processDocument_catch.
  eapply (wp_sync_bind doc _ _ (in_flight doc)); [done|apply in_flight_same_documents|
    apply in_flight_rely|exact Hw|].
  intros w1 H1. unfold pool_query, await.
  eapply (wp_step R G _ _ (in_flight doc)); [exact H1|apply in_flight_rely|].
  intros w0 H0. simpl.
  assert (Hstep : G w0 (set_db (fun _ => (mark_failed (PendingDocument.id doc)
                                 (String_ error) (db w0)).2) w0)
                  /\ row_status doc "failed"
                       (set_db (fun _ => (mark_failed (PendingDocument.id doc)
                                 (String_ error) (db w0)).2) w0)).
  { destruct H0 as [H0|H0];
      [apply (mark_failed_step doc "processing")|apply (mark_failed_step doc "complete")];
      auto. }
  destruct Hstep as [HG Hrow]. split; [exact HG|].
  eapply (wp_ret R G _ (row_status doc "failed")); [exact Hrow|apply row_status_rely|].
  intros w2 H2. split; [done|by right].
Qed.

(** The [try] block: it leaves the row complete when it returns, and in
    flight when it throws. *)
Lemma wp_processDocument_try w :
  row_status doc "pending" w ->
  wp R G (processDocument_try_with rt resolve doc)
    (fun r w' =>
       match r with
       | Ok _ => row_status doc "complete" w'
       | Err _ => in_flight doc w'
       end) w.
Proof.
  intros Hw. unfold processDocument_try_with.
  eapply (wp_pool_query_bind doc _ _ (row_status doc "pending"));
    [exact Hw|apply row_status_rely|].
  intros w0 H0. destruct (mark_processing_step doc w0 H0) as [HG Hrow].
  split; [exact HG|]. cbn [mark_processing fst].
  eapply (wp_neutral_bind doc _ _ (row_status doc "processing"));
    [apply neutral_extractFromDocument|apply row_status_same_documents|
     apply row_status_rely|exact Hrow| |].
  2:{ intros e w2 H2.
      eapply (wp_throw R G _ (row_status doc "processing")); [exact H2|apply row_status_rely|].
      intros w3 H3. by left. }
  intros analysis w2 H2. unfold updateDocumentAnalysis.
  eapply (wp_pool_query_bind doc _ _ (row_status doc "processing"));
    [exact H2|apply row_status_rely|].
  intros w3 H3. cbv zeta.
  pose proof (updateDocumentAnalysis_step doc
    (mkAnalysisUpdate (DocumentAnalysis.summary analysis)
       (DocumentAnalysis.detailedSummary analysis) (DocumentAnalysis.documentType analysis)
       (date_of rt (DocumentAnalysis.dateEarliest analysis))
       (date_of rt (DocumentAnalysis.dateLatest analysis))
       (DocumentAnalysis.contentTags analysis)) w3 H3) as Hupd.
  destruct (updateDocumentAnalysis_stmt _ _ (db w3)) as [[u|e] d]; cbn [fst snd].
  - destruct Hupd as [HG3 Hrow3]. split; [exact HG3|].
    eapply wp_mono; [|eapply (wp_neutral doc _ (row_status doc "complete"));
      [|apply row_status_same_documents|apply row_status_rely|exact Hrow3]].
    + intros [a|e] w4 H4; [done|by right].
    + apply neutral_bind; [apply neutral_insertEntities|]. intros m.
      apply neutral_bind; [by apply neutral_sync|]. intros _.
      apply neutral_bind; [by apply neutral_insertTriples_with|]. intros _.
      by apply neutral_sync.
  - subst d. rewrite set_db_same. split; [by apply task_guarantee_same_documents|].
    eapply (wp_throw R G _ (row_status doc "processing")); [exact H3|apply row_status_rely|].
    intros w4 H4. by left.
Qed.

(** [processDocument] on a pending row: it writes its own row only, every
    write is a move of [status_step], and it returns with the row complete
    or failed. *)
Lemma wp_processDocument_with w :
  row_status doc "pending" w ->
  wp R G (processDocument_with rt resolve doc) (settled_row doc) w.
Proof.
  intros Hw. unfold processDocument_with. apply wp_try_catch.
  eapply wp_mono; [|by apply wp_processDocument_try].
  intros [[]|e] w1 H1.
  - eapply (wp_ret R G _ (row_status doc "complete")); [exact H1|apply row_status_rely|].
    intros w2 H2. split; [done|by left].
  - by apply wp_processDocument_catch.
Qed.

End TaskProgram.

(** ** Tasks of a batch running together *)

Lemma task_guarantee_rely doc doc' w w' :
  PendingDocument.id doc <> PendingDocument.id doc' ->
  task_guarantee doc w w' -> task_rely doc' w w'.
Proof.
  intros Hne. unfold task_guarantee, task_rely. intros H.
  eapply Forall2_impl; [exact H|].
  intros r r' [->|[[Hid _] (Hi & Hd & _)]]; [done|].
  split; [done|]. split; [done|]. intros [Hid' _]. congruence.
Qed.

Lemma task_guarantee_documents_step doc w w' :
  task_guarantee doc w w' -> documents_step w w'.
Proof.
  unfold task_guarantee, documents_step. intros H.
  eapply Forall2_impl; [exact H|].
  intros r r' [->|[_ Hr]]; [apply row_step_refl|done].
Qed.

Lemma documents_step_refl w : documents_step w w.
Proof. apply Forall2_diag, row_step_refl. Qed.

Lemma documents_step_wf w w' : docs_wf w -> documents_step w w' -> docs_wf w'.
Proof.
  unfold docs_wf, documents_step. intros [Hid Hdoc] H.
  rewrite (Forall2_fmap_keys _ d_id _ _ (fun x y H => proj1 H) H).
  rewrite (Forall2_fmap_keys _ d_doc_id _ _ (fun x y H => proj1 (proj2 H)) H). done.
Qed.

(** A step of the pool is a step of one task on its own row, and the tasks
    stay within their guarantees afterwards. *)
Lemma pool_step_inv w tasks w' tasks' :
  batch_inv w tasks -> pool_step (w, tasks) (w', tasks') ->
  documents_step w w' /\ batch_inv w' tasks'.
Proof.
  intros (docs & Hnd & Hlen & Hwp) Hstep.
  inversion Hstep as [w0 tasks0 i B act k Hi]; subst.
  assert (Hdoc : is_Some (docs !! i)).
  { apply lookup_lt_is_Some. rewrite Hlen. by eapply lookup_lt_Some. }
  destruct Hdoc as [doc Hdoc].
  pose proof (Hwp i doc _ Hdoc Hi) as Hi_wp. simpl in Hi_wp.
  destruct (Hi_wp w (rtc_refl _ _)) as [HG Hk].
  split; [by eapply task_guarantee_documents_step|].
  exists docs. split; [done|]. split; [by rewrite length_insert|].
  intros j doc' p Hdoc' Hp. destruct (decide (i = j)) as [<-|Hne].
  - rewrite list_lookup_insert_eq in Hp by (by eapply lookup_lt_Some).
    injection Hp as <-. congruence.
  - rewrite list_lookup_insert_ne in Hp by done.
    eapply wp_stable; [|by eapply Hwp]. apply rtc_once.
    eapply task_guarantee_rely; [|exact HG].
    intros Heq. apply Hne. eapply NoDup_lookup; [exact Hnd| |].
    + by rewrite list_lookup_fmap, Hdoc.
    + rewrite list_lookup_fmap, Hdoc'. simpl. by rewrite Heq.
Qed.

Lemma fetched_ids_NoDup limit (l : list documents_row) :
  NoDup (d_id <$> l) -> NoDup (PendingDocument.id <$> take limit (omap pending_row l)).
Proof.
  intros Hnd. rewrite fmap_take. eapply sublist_NoDup; [|apply sublist_take].
  induction l as [|r l IH]; csimpl; [constructor|].
  apply NoDup_cons in Hnd as [Hr Hnd]. specialize (IH Hnd).
  destruct (pending_row r) as [doc|] eqn:Hp; csimpl; [|done].
  apply NoDup_cons. split; [|done].
  intros Hin. apply list_elem_of_fmap in Hin as (doc' & Hid & Hdoc').
  apply list_elem_of_omap in Hdoc' as (r' & Hr' & Hp').
  apply pending_row_Some in Hp as (_ & _ & Hi & _).
  apply pending_row_Some in Hp' as (_ & _ & Hi' & _).
  apply Hr. apply list_elem_of_fmap. exists r'. split; [congruence|done].
Qed.

Lemma fetched_row_status limit w doc :
  docs_wf w ->
  doc ∈ take limit (omap pending_row (documents (db w))) ->
  row_status doc "pending" w.
Proof.
  intros Hwf Hin. apply fetched_from_table in Hin as (r & Hr & Hp).
  apply pending_row_Some in Hp as (Hst & _ & Hi & Hd). split; [done|]. by exists r.
Qed.

Section Orchestrator.
Variable rt : Runtime.
Variable config : Config.

Lemma main_step_inv s s' :
  main_inv s -> main_step rt config s s' ->
  documents_step s.1 s'.1 /\ main_inv s'.
Proof.
  intros [Hwf Hinv] Hstep. destruct Hstep as [w documents Hfetch|w tasks w' tasks' Hpool|w tasks Hset];
    simpl in *.
  - split; [apply documents_step_refl|]. split; [done|].
    case_bool_decide; [done|]. simpl.
    injection Hfetch as <-. eexists. split; [by apply fetched_ids_NoDup, Hwf|].
    split; [by rewrite length_fmap|].
    intros i doc p Hdoc Hp. rewrite list_lookup_fmap, Hdoc in Hp. injection Hp as <-.
    apply (wp_processDocument_with rt (getOrCreate rt) (neutral_getOrCreate rt) doc w).
    apply (fetched_row_status (BATCH_SIZE config) w doc Hwf).
    exact (list_elem_of_lookup_2 _ _ _ Hdoc).
  - destruct (pool_step_inv _ _ _ _ Hinv Hpool) as [Hdocs Hbatch].
    split; [done|]. split; [by eapply documents_step_wf|done].
  - split; [apply documents_step_refl|]. split.
    + by match goal with |- context [if ?b then _ else _] => destruct b end.
    + by match goal with |- context [if ?b then _ else _] => destruct b end.
Qed.

Lemma main_inv_reachable s s' :
  main_inv s -> rtc (main_step rt config) s s' -> main_inv s'.
Proof.
  intros Hinv Hrtc. induction Hrtc as [|s1 s2 s3 Hstep _ IH]; [done|].
  apply IH. by eapply main_step_inv.
Qed.

(** C5, amended: in every execution of the orchestrator from a table whose
    keys are unique, with the tasks of a batch interleaved in any way, every
    step leaves each document row its keys and its text, and leaves its
    [analysis_status] as it is or moves it from pending to processing, from
    processing to complete or failed, or from complete to failed; no step
    sets a status back to pending. *)
Theorem analysis_status_steps (w : World) (s s' : World * Orchestrator) :
  docs_wf w ->
  rtc (main_step rt config) (w, Fetching) s ->
  main_step rt config s s' ->
  documents_step s.1 s'.1.
Proof.
  intros Hwf Hrtc Hstep.
  assert (Hinv : main_inv s) by (by eapply main_inv_reachable; [|exact Hrtc]).
  by destruct (main_step_inv s s' Hinv Hstep).
Qed.

End Orchestrator.

(** ** The orchestrator run task by task *)







Section Sequential.
Variable rt : Runtime.
Variable config : Config.

















End Sequential.



(** ** The run of one task is an execution of the pool *)

Lemma pool_run_consecutive (p : Prog unit) w pre a b post :
  w :: trace (run p w) = pre ++ a :: b :: post ->
  exists t t', rtc pool_step (w, [p]) (a, t) /\ pool_step (a, t) (b, t').
Proof.
  revert w pre. induction p as [u|e|B act k IH]; intros w pre Heq.
  - destruct pre as [|? [|? ?]]; discriminate.
  - destruct pre as [|? [|? ?]]; discriminate.
  - assert (Hstep : pool_step (w, [Step act k]) ((act w).2, [k (act w).1])).
    { exact (pool_step_task w [Step act k] 0 B act k eq_refl). }
    unfold trace in Heq. simpl in Heq. destruct (act w) as [r w1] eqn:Hact.
    destruct (run (k r) w1) as [[res w2] tr] eqn:Hrun. simpl in *.
    destruct pre as [|w' pre].
    + injection Heq as <- <- _. by exists [Step act k], [k r].
    + injection Heq as <- Heq.
      destruct (IH r w1 pre) as (t & t' & Hrtc & Hlast).
      { unfold trace. by rewrite Hrun. }
      exists t, t'. split; [|done]. by eapply rtc_l.
Qed.

Lemma main_task_rtc rt config w tasks w' tasks' :
  rtc pool_step (w, tasks) (w', tasks') ->
  rtc (main_step rt config) (w, Running tasks) (w', Running tasks').
Proof.
  intros H. remember (w, tasks) as s eqn:Hs. remember (w', tasks') as s' eqn:Hs'.
  revert w tasks Hs. induction H as [s|s [w1 t1] s' Hstep _ IH]; intros w tasks ->.
  - injection Hs' as -> ->. done.
  - eapply rtc_l; [by apply main_task|]. by apply IH.
Qed.

(** C5, as stated, at a concrete run: the provider returns a well-formed
    analysis whose triple has the timestamp "unknown"; the document is set
    to complete, the insert of the triple is rejected, and the next step
    sets the document to failed. *)
Lemma complete_then_failed :
  let rt := answering undated_analysis in
  exists s s',
    rtc (main_step rt example_config) (one_pending, Fetching) s
    /\ main_step rt example_config s s'
    /\ d_analysis_status <$> documents (db s.1) = [Some "complete"]
    /\ d_analysis_status <$> documents (db s'.1) = [Some "failed"].
Proof.
  cbv zeta.
  set (rt := answering undated_analysis).
  set (doc := PendingDocument.mk 1 "EFTA00000001" "Wire transfer memo").
  set (tr := one_pending :: trace (run (processDocument rt doc) one_pending)).
  destruct (pool_run_consecutive (processDocument rt doc) one_pending
              (take 9 tr) (nth 9 tr one_pending) (nth 10 tr one_pending) (drop 11 tr))
    as (t & t' & Hrtc & Hstep).
  { vm_compute. reflexivity. }
  exists (nth 9 tr one_pending, Running t), (nth 10 tr one_pending, Running t').
  split; [|split; [by apply main_task|split; vm_compute; reflexivity]].
  eapply rtc_l; [|by apply main_task_rtc].
  exact (main_fetch rt example_config one_pending [doc] eq_refl).
Qed.

Lemma analysis_status_steps_first_fetch :
  docs_wf one_pending /\ documents_step one_pending one_pending.
Proof.
  assert (H : docs_wf one_pending).
  { split; apply (bool_decide_unpack _); reflexivity. }
  split; [exact H|].
  exact (analysis_status_steps (answering undated_analysis) example_config one_pending
           (one_pending, Fetching) _ H (rtc_refl _ _)
           (main_fetch _ example_config one_pending
              [PendingDocument.mk 1 "EFTA00000001" "Wire transfer memo"] eq_refl)).
Defined.

(** ** A response the client does not accept *)



Section Rejected.
Variable rt : Runtime.





End Rejected.



(** ** Resolution of triple endpoints *)











Section Resolution.
Variable rt : Runtime.







End Resolution.


(** In the memo the object "ACME HOLDINGS", declared a location, takes the
    id of the organization "Acme Holdings"; no location is created. *)
Example memo_object_reuses_entity :
  let rt := answering memo_analysis in
  let doc := PendingDocument.mk 1 "EFTA00000001" "Wire transfer memo" in
  let d := db (final (run (processDocument rt doc) one_pending)) in
  (fun r => (e_id r, e_canonical_name r, e_entity_type r)) <$> entities d
    = [(1, "Jeffrey Epstein", entity_type.person);
       (2, "Acme Holdings", entity_type.organization);
       (3, "J. Smith", entity_type.person)]
  /\ (fun t => (t_subject_id t, t_object_id t)) <$> triples d = [(3, 2)].
Proof. split; vm_compute; reflexivity. Qed.

(** * Further properties *)

Lemma upto_last_brace_None s :
  upto_last_brace s = None <-> "}"%char ∉ list_ascii_of_string s.
Proof.
  induction s as [|c s IH]; simpl.
  - split; [intros _; apply not_elem_of_nil|done].
  - rewrite not_elem_of_cons. destruct (upto_last_brace s) as [m|].
    + split; [done|]. intros [_ H]. by apply IH in H.
    + destruct (Ascii.eqb_spec c "}") as [->|Hc].
      * split; [done|]. by intros [H _].
      * split; [|done]. intros _. split; [congruence|]. by apply IH.
Qed.

Lemma upto_last_brace_app body post :
  "}"%char ∉ list_ascii_of_string post ->
  upto_last_brace (body +:+ (String "}" post)) = Some (body +:+ "}").
Proof.
  intros Hpost. induction body as [|b body IH].
  - change ("" +:+ String "}" post) with (String "}" post). simpl.
    apply upto_last_brace_None in Hpost. by rewrite Hpost.
  - change (String b body +:+ (String "}" post)) with (String b (body +:+ (String "}" post))).
    simpl. by rewrite IH.
Qed.

Lemma upto_last_brace_Some s m :
  upto_last_brace s = Some m ->
  exists body post, s = body +:+ (String "}" post) /\ m = body +:+ "}"
    /\ "}"%char ∉ list_ascii_of_string post.
Proof.
  revert m. induction s as [|c s IH]; intros m; simpl; [done|].
  destruct (upto_last_brace s) as [m'|] eqn:E.
  - intros [= <-]. destruct (IH m' eq_refl) as (body & post & -> & -> & Hp).
    by exists (String c body), post.
  - destruct (Ascii.eqb_spec c "}") as [->|Hc]; [|done].
    intros [= <-]. exists "", s. split; [done|]. split; [done|].
    by apply upto_last_brace_None.
Qed.

(** The candidate that [extractFromDocument] hands to [JSON.parse] is the span
    from the first opening brace of the response to its last closing brace:
    [jsonMatch] finds [m] exactly when the text splits into a prefix free of
    opening braces, [m] itself, which opens with a brace and closes with one,
    and a rest free of closing braces.  A text with no closing brace after
    its first opening brace has no match. *)
Theorem jsonMatch_first_to_last_brace s m :
  jsonMatch s = Some m <->
  exists pre body post,
    s = pre +:+ (String "{" (body +:+ (String "}" post)))
    /\ m = String "{" (body +:+ "}")
    /\ ("{"%char ∉ list_ascii_of_string pre)
    /\ ("}"%char ∉ list_ascii_of_string post).
Proof.
  split.
  - revert m. induction s as [|c s IH]; intros m; simpl; [done|].
    destruct (Ascii.eqb_spec c "{") as [->|Hc].
    + destruct (upto_last_brace s) as [m'|] eqn:E; [|done].
      intros [= <-]. destruct (upto_last_brace_Some _ _ E) as (body & post & -> & -> & Hp).
      exists "", body, post. split; [done|]. split; [done|]. split; [apply not_elem_of_nil|done].
    + intros Hm. destruct (IH m Hm) as (pre & body & post & -> & -> & Hpre & Hpost).
      exists (String c pre), body, post. split; [done|]. split; [done|].
      split; [|done]. simpl. rewrite not_elem_of_cons. split; [congruence|done].
  - intros (pre & body & post & -> & -> & Hpre & Hpost).
    induction pre as [|c pre IH].
    + change ("" +:+ ?x) with x. simpl. by rewrite upto_last_brace_app.
    + change (String c pre +:+ ?x) with (String c (pre +:+ x)).
      simpl in Hpre. apply not_elem_of_cons in Hpre as [Hc Hpre].
      simpl. destruct (Ascii.eqb_spec c "{") as [->|_]; [done|]. by apply IH.
Qed.

(** The document schema wants both date keys present: [z.string().nullable()]
    takes a string or an explicit [null], not a missing key.  Whenever an
    object is accepted, each date key was there, as [null] (read as no date)
    or as a string (kept as it is). *)
Theorem DocumentAnalysisSchema_dates_nullable_not_optional o a :
  DocumentAnalysisSchema (Some (JObject o)) = Some a ->
  ((get "dateEarliest" o = Some JNull /\ DocumentAnalysis.dateEarliest a = None)
   \/ exists s, get "dateEarliest" o = Some (JString s)
                /\ DocumentAnalysis.dateEarliest a = Some s)
  /\ ((get "dateLatest" o = Some JNull /\ DocumentAnalysis.dateLatest a = None)
      \/ exists s, get "dateLatest" o = Some (JString s)
                   /\ DocumentAnalysis.dateLatest a = Some s).
Proof.
  unfold DocumentAnalysisSchema, z_object. intros H.
  repeat (apply bind_Some in H as (? & ? & H)).
  injection H as <-. simpl.
  match goal with
  | H1 : z_nullable z_string (get "dateEarliest" o) = Some _,
    H2 : z_nullable z_string (get "dateLatest" o) = Some _ |- _ =>
      unfold z_nullable, z_string in H1, H2;
      destruct (get "dateEarliest" o) as [[]|]; simplify_eq/=;
      destruct (get "dateLatest" o) as [[]|]; simplify_eq/=
  end; split; eauto.
Qed.

Lemma DocumentAnalysisSchema_dates_nullable_not_optional_witness :
  exists a,
    DocumentAnalysisSchema (Some (JObject
      [("summary", JString "s"); ("detailedSummary", JString "d");
       ("documentType", JString "memo"); ("dateEarliest", JNull);
       ("dateLatest", JString "2005-03-01"); ("contentTags", JArray []);
       ("entities", JArray []); ("triples", JArray [])])) = Some a
    /\ DocumentAnalysis.dateEarliest a = None
    /\ DocumentAnalysis.dateLatest a = Some "2005-03-01".
Proof.
  eexists. split; [reflexivity|].
  pose proof (DocumentAnalysisSchema_dates_nullable_not_optional _ _
    (eq_refl : DocumentAnalysisSchema (Some (JObject
      [("summary", JString "s"); ("detailedSummary", JString "d");
       ("documentType", JString "memo"); ("dateEarliest", JNull);
       ("dateLatest", JString "2005-03-01"); ("contentTags", JArray []);
       ("entities", JArray []); ("triples", JArray [])])) = Some _)) as [H1 H2].
  split.
  - destruct H1 as [[_ H]|(s & Hs & _)]; [exact H|discriminate Hs].
  - destruct H2 as [[Hs _]|(s & Hs & H)]; [discriminate Hs|].
    injection Hs as <-. exact H.
Defined.

(** The optional text fields of an entity and of a triple are the other way
    round: [z.string().optional()] takes a missing key or a string, and an
    explicit [null] is refused, for the context of an entity as for the
    location, timestamp and topics of a triple. *)
Theorem optional_fields_refuse_null o :
  (get "context" o = Some JNull -> EntitySchema (Some (JObject o)) = None)
  /\ (get "location" o = Some JNull \/ get "timestamp" o = Some JNull
      \/ get "explicitTopic" o = Some JNull \/ get "implicitTopic" o = Some JNull
      \/ get "tags" o = Some JNull ->
      TripleSchema (Some (JObject o)) = None).
Proof.
  split.
  - intros H. unfold EntitySchema, z_object. rewrite H.
    destruct (z_string _); [|done]. simpl. by destruct (z_enum _ _).
  - intros H. unfold TripleSchema, z_object.
    destruct (z_string (get "subject" o)); [simpl|done].
    destruct (z_enum _ (get "subjectType" o)); [simpl|done].
    destruct (z_string (get "predicate" o)); [simpl|done].
    destruct (z_string (get "object" o)); [simpl|done].
    destruct (z_enum _ (get "objectType" o)); [simpl|done].
    destruct H as [H|[H|[H|[H|H]]]]; rewrite H; simpl;
      repeat (match goal with
              | |- context [z_optional ?f ?x] => destruct (z_optional f x); simpl; [|done]
              end); done.
Qed.

Lemma z_enum_Some labels j s : z_enum labels j = Some s -> s ∈ labels.
Proof.
  unfold z_enum. destruct j as [[]|]; try done.
  case_bool_decide; [|done]. by intros [= <-].
Qed.

Lemma EntitySchema_type j e :
  EntitySchema j = Some e ->
  Entity.type e ∈ ["person"; "organization"; "location"; "date"; "reference"; "financial"].
Proof.
  intros H. unfold EntitySchema, z_object in H. destruct j as [[]|]; try done.
  repeat (apply bind_Some in H as (? & ? & H)). injection H as <-. simpl.
  by eapply z_enum_Some.
Qed.

Lemma TripleSchema_types j t :
  TripleSchema j = Some t ->
  Triple.subjectType t ∈ ["person"; "organization"; "location"]
  /\ Triple.objectType t
     ∈ ["person"; "organization"; "location"; "date"; "reference"; "financial"].
Proof.
  intros H. unfold TripleSchema, z_object in H. destruct j as [[]|]; try done.
  repeat (apply bind_Some in H as (? & ? & H)). injection H as <-. simpl.
  split; by eapply z_enum_Some.
Qed.

Lemma schema_label_cast s :
  s ∈ ["person"; "organization"; "location"; "date"; "reference"; "financial"] ->
  is_Some (entity_type.cast s) /\ entity_type.cast s <> Some entity_type.unknown.
Proof.
  intros Hin. repeat (apply elem_of_cons in Hin as [->|Hin]); try (by split; [eexists|]).
  by apply elem_of_nil in Hin.
Qed.

Lemma schema_label_cast3 s :
  s ∈ ["person"; "organization"; "location"] ->
  is_Some (entity_type.cast s) /\ entity_type.cast s <> Some entity_type.unknown.
Proof.
  intros Hin. repeat (apply elem_of_cons in Hin as [->|Hin]); try (by split; [eexists|]).
  by apply elem_of_nil in Hin.
Qed.

(** Every type the schemas let through is a label of the SQL enum
    [entity_type]: the cast in [upsertEntity] cannot fail on the type of a
    validated entity, nor on the subject or object type of a validated
    triple.  The enum's seventh label, unknown, is accepted by no schema. *)
Theorem validated_types_cast_to_entity_type :
  (forall j e, EntitySchema j = Some e ->
     is_Some (entity_type.cast (Entity.type e))
     /\ entity_type.cast (Entity.type e) <> Some entity_type.unknown)
  /\ (forall j t, TripleSchema j = Some t ->
        is_Some (entity_type.cast (Triple.subjectType t))
        /\ is_Some (entity_type.cast (Triple.objectType t))
        /\ entity_type.cast (Triple.subjectType t) <> Some entity_type.unknown
        /\ entity_type.cast (Triple.objectType t) <> Some entity_type.unknown).
Proof.
  split.
  - intros j e H. by apply schema_label_cast, (EntitySchema_type j).
  - intros j t H. destruct (TripleSchema_types j t H) as [Hs Ho].
    destruct (schema_label_cast3 _ Hs), (schema_label_cast _ Ho). done.
Qed.

(** ** Runs that return *)







(** ** The inserts of the orchestrator on a well-formed store *)




















Section Complete.
Variable rt : Runtime.


















End Complete.

(** ** The memo, processed *)








(** ** Runs that throw *)






Section Unreadable.
Variable rt : Runtime.


End Unreadable.


(** ** Programs whose steps lie in a relation *)

Lemma stepwise_Step_inv G {A B} (act : World -> Result B * World) (k : Result B -> Prog A) :
  stepwise G (Step act k) -> (forall w, G w (act w).2) /\ (forall r, stepwise G (k r)).
Proof.
  intros H.
  refine (match H in stepwise _ p return
            match p with
            | Step act k => (forall w, G w (act w).2) /\ (forall r, stepwise G (k r))
            | _ => True
            end
          with
          | stepwise_Step _ _ _ _ Hact Hk => conj Hact Hk
          | _ => I
          end).
Qed.

Lemma stepwise_bind G {A B} (p : Prog A) (f : A -> Prog B) :
  stepwise G p -> (forall a, stepwise G (f a)) -> stepwise G (p ≫= f).
Proof.
  intros Hp Hf. induction Hp as [a|e|C act k Hact Hk IH].
  - apply Hf.
  - constructor.
  - change (Step act k ≫= f) with (Step act (fun r => k r ≫= f)). by constructor.
Qed.

Lemma stepwise_try_catch G {A} (p : Prog A) h :
  stepwise G p -> (forall e, stepwise G (h e)) -> stepwise G (try_catch p h).
Proof.
  intros Hp Hh. induction Hp as [a|e|C act k Hact Hk IH]; simpl.
  - constructor.
  - apply Hh.
  - by constructor.
Qed.

Lemma stepwise_await G {B} (act : World -> Result B * World) :
  (forall w, G w (act w).2) -> stepwise G (await act).
Proof. intros H. constructor; [done|]. intros [b|e]; constructor. Qed.

Lemma stepwise_pool_query G {B} (s : Stmt B) :
  (forall w, G w (set_db (fun _ => (s (db w)).2) w)) -> stepwise G (pool_query s).
Proof.
  intros H. apply stepwise_await. intros w. specialize (H w).
  by destruct (s (db w)).
Qed.

Lemma stepwise_sync G f : (forall w, G w (f w)) -> stepwise G (sync f).
Proof. intros H. constructor; [done|]. constructor. Qed.

Lemma stepwise_of_result G {A} (r : Result A) : stepwise G (of_result r).
Proof. destruct r; constructor. Qed.

Lemma stepwise_for_of_with G {A S} (xs : list A) (body : A -> S -> Prog S) s :
  (forall x s, stepwise G (body x s)) -> stepwise G (for_of_with xs body s).
Proof.
  intros H. revert s. induction xs as [|x xs IH]; intros s; simpl; [constructor|].
  apply stepwise_bind; [apply H|]. intros s'. apply IH.
Qed.


(** The extraction call touches no state. *)
Lemma stepwise_extractFromDocument G rt docId text :
  Reflexive G -> stepwise G (extractFromDocument rt docId text).
Proof.
  intros Hrefl. unfold extractFromDocument.
  apply stepwise_bind; [by apply stepwise_await|].
  intros response. destruct (head response) as [[t|ty]|]; try constructor.
  apply stepwise_bind; [apply stepwise_of_result|].
  intros parsed. destruct (DocumentAnalysisSchema _); constructor.
Qed.


(** ** Counting documents *)

#[local] Instance uncounted_refl : Reflexive uncounted.
Proof. by intros w. Qed.

#[local] Instance uncounted_trans : Transitive uncounted.
Proof. intros a b c [? ?] [? ?]. split; congruence. Qed.




Section Counting.
Variable rt : Runtime.








End Counting.

(** ** Entity rows under the orchestrator *)

Lemma entity_row_kept_trans a b c :
  entity_row_kept a b -> entity_row_kept b c -> entity_row_kept a c.
Proof.
  intros [->|[Ha ->]] [->|[Hb ->]]; [by left|by right|by right|done].
Qed.

#[local] Instance entity_rows_kept_refl : Reflexive entity_rows_kept.
Proof.
  intros w. exists (entities (db w)), []. split; [by rewrite app_nil_r|].
  apply Forall2_diag. by left.
Qed.

#[local] Instance entity_rows_kept_trans : Transitive entity_rows_kept.
Proof.
  intros w1 w2 w3 (k1 & n1 & E2 & F1) (k2 & n2 & E3 & F2).
  rewrite E2 in F2. apply Forall2_app_inv_l in F2 as (k2a & k2b & Fa & Fb & ->).
  exists k2a, (k2b ++ n2). split; [by rewrite E3, <- app_assoc|].
  clear -F1 Fa. revert k2a Fa. induction F1 as [|x y l l' Hxy _ IH]; intros k2a Fa.
  - apply Forall2_nil_inv_l in Fa as ->. constructor.
  - apply Forall2_cons_inv_l in Fa as (z & k' & Hyz & Fk & ->).
    constructor; [by eapply entity_row_kept_trans|by apply IH].
Qed.

Lemma entity_rows_kept_same w w' :
  entities (db w') = entities (db w) -> entity_rows_kept w w'.
Proof.
  intros H. exists (entities (db w)), []. split; [by rewrite app_nil_r|].
  apply Forall2_diag. by left.
Qed.

(** The statement of [upsertEntity] as the orchestrator calls it, with no
    aliases: a row it meets keeps everything but aliases that were [NULL]. *)
Lemma upsertEntity_stmt_rows_kept nm tys desc d :
  exists kept new,
    entities (upsertEntity_stmt nm tys [] desc d).2 = kept ++ new
    /\ Forall2 entity_row_kept (entities d) kept.
Proof.
  unfold upsertEntity_stmt. destruct (entity_type.cast tys) as [ty|].
  2:{ exists (entities d), []. split; [by rewrite app_nil_r|]. apply Forall2_diag. by left. }
  destruct (List.find _ _) as [r|].
  - eexists _, []. split; [by rewrite app_nil_r|]. cbn.
    apply Forall2_fmap_r, Forall2_diag. intros x. cbn.
    destruct (entity_key_eqb nm ty x); [|by left].
    destruct x as [i n t l [al|] ds]; cbn; [left|right; done].
    by rewrite app_nil_r.
  - case_bool_decide.
    + exists (entities d), []. split; [by rewrite app_nil_r|]. apply Forall2_diag. by left.
    + eexists (entities d), _. split; [reflexivity|]. apply Forall2_diag. by left.
Qed.

Section EntityRows.
Variable rt : Runtime.
Variable config : Config.

Lemma rows_kept_upsertEntity nm ty :
  stepwise entity_rows_kept (upsertEntity nm ty None None).
Proof.
  apply stepwise_pool_query. intros w. apply upsertEntity_stmt_rows_kept.
Qed.

Lemma rows_kept_getOrCreate m nm ty : stepwise entity_rows_kept (getOrCreate rt m nm ty).
Proof.
  assert (H : stepwise entity_rows_kept
                (created ← upsertEntity nm ty None None;
                 Ret (created, <[toLowerCase rt nm := created]> m))).
  { apply stepwise_bind; [apply rows_kept_upsertEntity|]. constructor. }
  unfold getOrCreate. destruct (m !! _) as [found|]; [|exact H].
  case_bool_decide; [exact H|constructor].
Qed.

Lemma linkEntityToDocument_stmt_entities e doc n c d :
  entities (linkEntityToDocument_stmt e doc n c d).2 = entities d.
Proof.
  unfold linkEntityToDocument_stmt. destruct (existsb _ _); [done|].
  destruct (negb _); [done|]. by case_bool_decide.
Qed.

Lemma insertTriple_stmt_entities t d : entities (insertTriple_stmt t d).2 = entities d.
Proof.
  unfold insertTriple_stmt. destruct (date_param _); [|done].
  destruct (negb _); [done|]. by case_bool_decide.
Qed.

Lemma updateDocumentAnalysis_stmt_entities docId a d :
  entities (updateDocumentAnalysis_stmt docId a d).2 = entities d.
Proof.
  unfold updateDocumentAnalysis_stmt.
  by destruct (date_param (u_dateEarliest a)), (date_param (u_dateLatest a)).
Qed.

Lemma rows_kept_processDocument doc : stepwise entity_rows_kept (processDocument rt doc).
Proof.
  unfold processDocument, processDocument_with. apply stepwise_try_catch.
  - unfold processDocument_try_with.
    apply stepwise_bind;
      [apply stepwise_pool_query; intros w; by apply entity_rows_kept_same|]. intros _.
    apply stepwise_bind; [apply stepwise_extractFromDocument, _|]. intros analysis.
    apply stepwise_bind.
    { apply stepwise_pool_query. intros w. apply entity_rows_kept_same.
      apply updateDocumentAnalysis_stmt_entities. }
    intros _. apply stepwise_bind.
    { unfold insertEntities. apply stepwise_for_of_with. intros entity m.
      apply stepwise_bind; [apply rows_kept_upsertEntity|]. intros entityId.
      apply stepwise_bind; [|constructor].
      apply stepwise_pool_query. intros w. apply entity_rows_kept_same.
      apply linkEntityToDocument_stmt_entities. }
    intros m. apply stepwise_bind; [apply stepwise_sync; intros w; by apply entity_rows_kept_same|].
    intros _. apply stepwise_bind;
      [|intros _; apply stepwise_sync; intros w; by apply entity_rows_kept_same].
    unfold insertTriples_with. apply stepwise_for_of_with.
    intros [i triple] m'. apply stepwise_bind; [apply rows_kept_getOrCreate|].
    intros [subjectId m1]. apply stepwise_bind; [apply rows_kept_getOrCreate|].
    intros [objectId m2]. apply stepwise_bind.
    { destruct (truthy _); [|constructor]. apply stepwise_bind; [apply rows_kept_getOrCreate|].
      intros [l m3]. constructor. }
    intros [locationId m3]. apply stepwise_bind; [|constructor].
    apply stepwise_pool_query. intros w. apply entity_rows_kept_same.
    apply insertTriple_stmt_entities.
  - intros e. unfold processDocument_catch.
    apply stepwise_bind; [apply stepwise_sync; intros w; by apply entity_rows_kept_same|].
    intros _. apply stepwise_pool_query. intros w. by apply entity_rows_kept_same.
Qed.

Lemma main_step_rows_kept s s' :
  match s.2 with
  | Running tasks => Forall (stepwise entity_rows_kept) tasks
  | _ => True
  end ->
  main_step rt config s s' ->
  entity_rows_kept s.1 s'.1
  /\ match s'.2 with
     | Running tasks => Forall (stepwise entity_rows_kept) tasks
     | _ => True
     end.
Proof.
  intros Hinv Hstep.
  destruct Hstep as [w documents Hfetch|w tasks w' tasks' Hpool|w tasks Hset]; simpl in *.
  - split; [reflexivity|]. case_bool_decide; [done|]. simpl.
    apply Forall_fmap, Forall_forall. intros doc _. apply rows_kept_processDocument.
  - inversion Hpool as [w0 tasks0 i B act k Hi]; subst.
    pose proof (Forall_lookup_1 _ _ _ _ Hinv Hi) as Hp.
    apply stepwise_Step_inv in Hp as [Hact Hk].
    split; [apply Hact|]. apply Forall_insert; [done|apply Hk].
  - split; [reflexivity|].
    by match goal with |- context [if ?b then _ else _] => destruct b end.
Qed.

(** In every execution of the orchestrator, with the tasks of a batch
    interleaved in any way, no entity row is deleted, moved or rewritten:
    the rows the run started with are still the first rows of the table,
    each with its id, name, type, layer and description, and with its
    aliases unless they were [NULL], which a later mention turns into the
    empty list.  Rows are only added, after them. *)
Theorem orchestrator_keeps_entity_rows (w : World) (s : World * Orchestrator) :
  rtc (main_step rt config) (w, Fetching) s -> entity_rows_kept w s.1.
Proof.
  intros Hrtc.
  assert (H : forall s0 s1, rtc (main_step rt config) s0 s1 ->
            match s0.2 with
            | Running tasks => Forall (stepwise entity_rows_kept) tasks
            | _ => True
            end -> entity_rows_kept s0.1 s1.1).
  { intros s0 s1 Hr. induction Hr as [|a b c Hstep _ IH]; intros Hinv; [reflexivity|].
    destruct (main_step_rows_kept a b Hinv Hstep) as [H1 H2]. etrans; [exact H1|by apply IH]. }
  by apply (H (w, Fetching) s).
Qed.

End EntityRows.

Lemma orchestrator_keeps_entity_rows_memo :
  let rt := answering memo_analysis in
  let tr := one_pending :: trace (run (processDocument rt memo_document) one_pending) in
  exists s,
    rtc (main_step rt example_config) (one_pending, Fetching) s
    /\ s.1 = nth 8 tr one_pending
    /\ entity_rows_kept one_pending s.1.
Proof.
  cbv zeta.
  destruct (pool_run_consecutive (processDocument (answering memo_analysis) memo_document)
              one_pending
              (take 8 (one_pending :: trace (run (processDocument (answering memo_analysis)
                                                   memo_document) one_pending)))
              (nth 8 (one_pending :: trace (run (processDocument (answering memo_analysis)
                                                  memo_document) one_pending)) one_pending)
              (nth 9 (one_pending :: trace (run (processDocument (answering memo_analysis)
                                                  memo_document) one_pending)) one_pending)
              (drop 10 (one_pending :: trace (run (processDocument (answering memo_analysis)
                                                    memo_document) one_pending))))
    as (t & t' & Hrtc & Hstep).
  { vm_compute. reflexivity. }
  eexists (_, Running t).
  assert (H : rtc (main_step (answering memo_analysis) example_config) (one_pending, Fetching)
                (nth 8 (one_pending :: trace (run (processDocument (answering memo_analysis)
                                                     memo_document) one_pending)) one_pending,
                 Running t)).
  { eapply rtc_l; [|apply main_task_rtc; exact Hrtc].
    exact (main_fetch (answering memo_analysis) example_config one_pending [memo_document]
             eq_refl). }
  split; [exact H|]. split; [reflexivity|].
  exact (orchestrator_keeps_entity_rows (answering memo_analysis) example_config one_pending
           _ H).
Defined.

(** ** Saving matches *)

Lemma insert_do_nothing_fresh matches table seq :
  (forall r, r ∈ table -> m_id r < seq) ->
  insert_do_nothing matches table seq
  = (imap (fun i m => match_row (seq + Z.of_nat i) m) matches,
     seq + Z.of_nat (length matches)).
Proof.
  intros Hseq. unfold insert_do_nothing.
  assert (H : forall ins nxt,
            (forall r, r ∈ table ++ ins -> m_id r < nxt) ->
            fold_left (fun '(inserted, next) m =>
                if bool_decide (next ∈ fmap m_id (table ++ inserted)) then (inserted, next + 1)
                else (inserted ++ [mk_entity_crossref_matches_row next (Match.entityId m)
                                     (Match.source m) (Match.sourceId m) (Match.score m)
                                     (Some "fuzzy") false false],
                      next + 1))
              matches (ins, nxt)
            = (ins ++ imap (fun i m => match_row (nxt + Z.of_nat i) m) matches,
               nxt + Z.of_nat (length matches))).
  { induction matches as [|m matches IH]; intros ins nxt Hlt.
    - cbn. by rewrite app_nil_r, Z.add_0_r.
    - cbn [fold_left]. rewrite bool_decide_eq_false_2.
      2:{ intros Hin. apply list_elem_of_fmap in Hin as (r & Hr & Hin).
          specialize (Hlt r Hin). lia. }
      rewrite IH.
      + cbn [imap length]. rewrite <- app_assoc. f_equal.
        * f_equal. cbn. rewrite Z.add_0_r. f_equal. apply imap_ext. intros i x _. cbn.
          f_equal. lia.
        * lia.
      + intros r Hr. rewrite app_assoc in Hr. apply elem_of_app in Hr as [Hr|Hr].
        * specialize (Hlt r Hr). lia.
        * apply list_elem_of_singleton in Hr as ->. cbn. lia. }
  rewrite (H [] seq); [done|]. intros r Hr. rewrite app_nil_r in Hr. by apply Hseq.
Qed.

(** [saveMatches] stores all the matches of its list or none.  With the
    sequence of the match table ahead of the ids in use: when every match
    names an entity that exists, one row per match is appended in the order
    of the list, under consecutive ids, marked fuzzy, neither verified nor
    a false positive; when some match names an entity that does not exist,
    the call is rejected and the table is left as it was, also for the
    matches whose entity exists. *)
Theorem saveMatches_all_or_nothing (matches : list Match.t) (w : World) :
  (forall r, r ∈ entity_crossref_matches (db w) ->
     m_id r < entity_crossref_matches_id_seq (db w)) ->
  let res := run (saveMatches matches) w in
  (Forall (fun m => Match.entityId m ∈ e_id <$> entities (db w)) matches ->
   outcome res = Ok tt
   /\ entity_crossref_matches (db (final res))
      = entity_crossref_matches (db w)
        ++ imap (fun i m =>
                   match_row (entity_crossref_matches_id_seq (db w) + Z.of_nat i) m)
             matches)
  /\ (Exists (fun m => Match.entityId m ∉ e_id <$> entities (db w)) matches ->
      (exists e, outcome res = Err e)
      /\ entity_crossref_matches (db (final res)) = entity_crossref_matches (db w)).
Proof.
  intros Hseq. cbv zeta. unfold saveMatches. case_bool_decide as Hlen.
  { destruct matches; [|done]. split.
    - intros _. split; [done|]. cbn. by rewrite app_nil_r.
    - intros H. by apply Exists_nil in H. }
  rewrite run_pool_query. unfold outcome, final. cbn [fst snd db set_db].
  unfold saveMatches_stmt. rewrite (insert_do_nothing_fresh _ _ _ Hseq).
  set (rows := imap _ matches).
  assert (Hfk : forallb (fun r => fk_entities (m_entity_id r) (db w)) rows = true
                <-> Forall (fun m => Match.entityId m ∈ e_id <$> entities (db w)) matches).
  { unfold rows. rewrite forallb_forall, Forall_forall. split.
    - intros H m Hm. apply list_elem_of_lookup in Hm as [i Hi].
      specialize (H (match_row (entity_crossref_matches_id_seq (db w) + Z.of_nat i) m)).
      unfold fk_entities in H. rewrite bool_decide_eq_true in H. apply H.
      apply list_elem_of_In, elem_of_lookup_imap. by exists i, m.
    - intros H r Hr. apply list_elem_of_In, elem_of_lookup_imap in Hr as (i & m & -> & Hi).
      apply bool_decide_eq_true. cbn. apply H. by eapply list_elem_of_lookup_2. }
  split.
  - intros Hall. apply Hfk in Hall. rewrite Hall. done.
  - intros Hex.
    assert (Hb : forallb (fun r => fk_entities (m_entity_id r) (db w)) rows = false).
    { apply not_true_is_false. intros Hb. apply Hfk in Hb.
      apply Exists_exists in Hex as (m & Hm & Hnot).
      rewrite Forall_forall in Hb. by specialize (Hb m Hm). }
    rewrite Hb. split; [by eexists|done].
Qed.

Lemma saveMatches_all_or_nothing_example :
  let w := mkWorld (mkDB [] [mk_entities_row 1 "Acme" entity_type.organization None None None]
                      2 [] 1 [] 1 [] 1) 0 0 0 0 in
  let good := Match.mk 1 "Acme" match_source.ppp 7 "ACME LLC" (8 # 10) in
  let bad := Match.mk 9 "Nobody" match_source.fec 3 "NOBODY" (9 # 10) in
  (forall r, r ∈ entity_crossref_matches (db w) ->
     m_id r < entity_crossref_matches_id_seq (db w))
  /\ entity_crossref_matches (db (final (run (saveMatches [good; good]) w)))
     = [match_row 1 good; match_row 2 good]
  /\ entity_crossref_matches (db (final (run (saveMatches [good; bad]) w))) = [].
Proof.
  cbv zeta.
  set (w := mkWorld (mkDB [] [mk_entities_row 1 "Acme" entity_type.organization None None None]
                       2 [] 1 [] 1 [] 1) 0 0 0 0).
  assert (H : forall r, r ∈ entity_crossref_matches (db w) ->
                m_id r < entity_crossref_matches_id_seq (db w)).
  { intros r Hr. by apply elem_of_nil in Hr. }
  split; [exact H|]. split.
  - refine (proj2 (proj1 (saveMatches_all_or_nothing _ w H) _)).
    repeat constructor.
  - refine (proj2 (proj2 (saveMatches_all_or_nothing _ w H) _)).
    apply Exists_cons_tl, Exists_cons_hd. cbn. intros Hin.
    apply list_elem_of_singleton in Hin. discriminate.
Defined.

(** ** The classifier without its root *)

Lemma set_layer_where_nil n es : set_layer_where n [] es = es.
Proof.
  unfold set_layer_where. induction es as [|r es IH]; [done|].
  rewrite fmap_cons, IH. rewrite bool_decide_eq_false_2; [done|]. apply not_elem_of_nil.
Qed.

Lemma filter_none {A} (P : A -> Prop) `{forall x, Decision (P x)} (l : list A) :
  Forall (fun x => ~ P x) l -> filter P l = [].
Proof.
  induction 1 as [|x l Hx _ IH]; [done|]. by rewrite filter_cons_False.
Qed.

(** When the row of 'Jeffrey Epstein' / person is missing, the classifier
    does not fail, and with no root there is no layer 1: unless some entity
    carries layer 1 from before, every entity without a layer gets layer 3,
    whatever documents it shares, and the labelled ones stay as they are. *)
Theorem calculateEntityLayers_without_root (w : World) :
  epstein (db w) = [] ->
  (forall r, r ∈ entities (db w) -> e_layer r <> Some 1) ->
  let res := run calculateEntityLayers w in
  outcome res = Ok tt
  /\ entities (db (final res))
     = (fun r => if bool_decide (e_layer r = None)
                 then mk_entities_row (e_id r) (e_canonical_name r) (e_entity_type r)
                        (Some 3) (e_aliases r) (e_description r)
                 else r) <$> entities (db w).
Proof.
  intros Hroot Hno1. cbv zeta. rewrite run_calculateEntityLayers, Hroot.
  cbn [scalar_subquery]. cbv zeta. unfold outcome, final. cbn [fst snd].
  split; [done|].
  assert (H1 : layer1_entities (db w) None = []).
  { unfold layer1_entities. rewrite filter_none; [done|].
    apply Forall_forall. intros r _ [_ H]. discriminate H. }
  rewrite H1, (set_entities_same _ (db w)) by apply set_layer_where_nil. rewrite set_db_same.
  assert (Hl1 : layer1 (db w) = []).
  { unfold layer1. rewrite filter_none; [done|].
    apply Forall_forall. intros r Hr. by apply Hno1. }
  assert (Hd1 : layer1_docs (db w) = []).
  { unfold layer1_docs. rewrite Hl1, filter_none; [done|].
    apply Forall_forall. intros r _. apply not_elem_of_nil. }
  assert (H2 : layer2_candidates (db w) = []).
  { unfold layer2_candidates. rewrite Hd1, filter_none; [done|].
    apply Forall_forall. intros r _. apply not_elem_of_nil. }
  unfold set_layer2. cbn [snd].
  rewrite H2, (set_entities_same _ (db w)) by apply set_layer_where_nil.
  rewrite set_db_same. done.
Qed.

Lemma calculateEntityLayers_without_root_example :
  let w := mkWorld
    (mkDB [] [mk_entities_row 1 "A" entity_type.person None (Some []) None;
              mk_entities_row 2 "B" entity_type.person (Some 2) (Some []) None]
       3 [mk_document_entities_row 1 10 1 (Some 1) None;
          mk_document_entities_row 2 10 2 (Some 1) None] 3 [] 1 [] 1) 0 0 0 0 in
  epstein (db w) = []
  /\ e_layer <$> entities (db (final (run calculateEntityLayers w))) = [Some 3; Some 2].
Proof.
  cbv zeta. split; [reflexivity|].
  set (w := mkWorld _ 0 0 0 0).
  assert (H : forall r, r ∈ entities (db w) -> e_layer r <> Some 1).
  { intros r Hr. cbn in Hr. repeat (apply elem_of_cons in Hr as [->|Hr]); try done.
    by apply elem_of_nil in Hr. }
  destruct (calculateEntityLayers_without_root w eq_refl H) as [_ ->]. reflexivity.
Defined.

(** ** The reader of the loader *)

Lemma fold_read_line_yielded ls cur ys zs :
  fold_left read_line ls (mkReaderState cur (ys ++ zs))
  = mkReaderState (currentDoc (fold_left read_line ls (mkReaderState cur zs)))
      (ys ++ yielded (fold_left read_line ls (mkReaderState cur zs))).
Proof.
  revert cur zs. induction ls as [|l ls IH]; intros cur zs; [done|].
  cbn [fold_left]. unfold read_line at 2 4 6. cbn [currentDoc yielded].
  destruct (DOC_ID_PATTERN_test (trim l)).
  - rewrite <- app_assoc. apply IH.
  - destruct cur as [doc|]; [|apply IH]. case_bool_decide; apply IH.
Qed.

(** Lines met before any document id are dropped. *)
Lemma fold_read_line_no_id pre :
  Forall (fun l => is_id_line l = false) pre ->
  fold_left read_line pre (mkReaderState None []) = mkReaderState None [].
Proof.
  induction 1 as [|l pre Hl _ IH]; [done|]. cbn [fold_left]. unfold read_line at 2.
  unfold is_id_line in Hl. rewrite Hl. cbn. exact IH.
Qed.

(** Lines that are no document id go to the chunk being collected, the
    blank ones apart. *)
Lemma fold_read_line_body body id acc ys :
  Forall (fun l => is_id_line l = false) body ->
  fold_left read_line body (mkReaderState (Some (DocumentChunk.mk id acc)) ys)
  = mkReaderState
      (Some (DocumentChunk.mk id (acc ++ filter (fun l => is_blank l = false) body))) ys.
Proof.
  intros H. revert acc. induction H as [|l body Hl _ IH]; intros acc.
  - cbn. by rewrite app_nil_r.
  - cbn [fold_left]. unfold read_line at 2. unfold is_id_line in Hl. rewrite Hl.
    cbn [currentDoc yielded DocumentChunk.docId DocumentChunk.lines].
    unfold is_blank at 1. case_bool_decide as Hb.
    + rewrite IH. rewrite filter_cons_False; [done|].
      unfold is_blank. by rewrite bool_decide_eq_true_2.
    + rewrite IH. rewrite filter_cons_True.
      2:{ unfold is_blank. by rewrite bool_decide_eq_false_2. }
      by rewrite <- app_assoc.
Qed.

(** What [readDocuments] yields, read off the lines: lines with no document
    id among them yield nothing; the lines before the first document id are
    ignored; a document id opens a chunk under the trimmed id, the chunk
    takes the lines up to the next document id that are not blank, as they
    are and in their order, and it is yielded unless it took no line. *)
Theorem readDocuments_chunks (pre body rest : list string) (first : string) :
  (Forall (fun l => is_id_line l = false) pre -> readDocuments pre = [])
  /\ (Forall (fun l => is_id_line l = false) pre ->
      is_id_line first = true ->
      Forall (fun l => is_id_line l = false) body ->
      (rest = [] \/ exists l rest', rest = l :: rest' /\ is_id_line l = true) ->
      readDocuments (pre ++ first :: body ++ rest)
      = (if bool_decide (filter (fun l => is_blank l = false) body = []) then []
         else [DocumentChunk.mk (trim first) (filter (fun l => is_blank l = false) body)])
        ++ readDocuments rest).
Proof.
  split.
  { intros Hpre. unfold readDocuments. cbv zeta. by rewrite (fold_read_line_no_id pre Hpre). }
  intros Hpre Hfirst Hbody Hrest. unfold readDocuments. cbv zeta.
  rewrite fold_left_app, (fold_read_line_no_id pre Hpre). cbn [fold_left].
  unfold read_line at 2 4. unfold is_id_line in Hfirst. rewrite Hfirst.
  cbn [currentDoc yielded yield_current app].
  rewrite fold_left_app, (fold_read_line_body body _ [] [] Hbody). cbn [app].
  set (lines := filter _ body).
  destruct Hrest as [->|(l & rest' & -> & Hl)].
  - cbn. by rewrite app_nil_r.
  - cbn [fold_left]. unfold read_line at 2 4 6 8. unfold is_id_line in Hl. rewrite Hl.
    cbn [currentDoc yielded yield_current app DocumentChunk.lines].
    rewrite <- (app_nil_r (if bool_decide (lines = []) then [] else _)) at 1 2.
    rewrite fold_read_line_yielded. cbn [currentDoc yielded]. by rewrite app_assoc.
Qed.

Lemma readDocuments_chunks_example :
  readDocuments
    (["cover sheet"]
     ++ "EFTA00000001"
        :: ["  Flight log  "; ""; "page 2"]
        ++ [" EFTA00000002 "; "EFTA00000003"; "Wire transfer memo"])
  = [DocumentChunk.mk "EFTA00000001" ["  Flight log  "; "page 2"]]
    ++ readDocuments [" EFTA00000002 "; "EFTA00000003"; "Wire transfer memo"]
  /\ readDocuments [" EFTA00000002 "; "EFTA00000003"; "Wire transfer memo"]
     = [DocumentChunk.mk "EFTA00000003" ["Wire transfer memo"]].
Proof.
  split; [|reflexivity].
  refine (proj2 (readDocuments_chunks ["cover sheet"] ["  Flight log  "; ""; "page 2"]
                   [" EFTA00000002 "; "EFTA00000003"; "Wire transfer memo"] "EFTA00000001")
            _ eq_refl _ _).
  - by repeat constructor.
  - by repeat constructor.
  - right. by eexists _, _.
Defined.

(** Every chunk yielded carries a document id, at least one line, and only
    lines that are neither blank nor a document id. *)
Lemma readDocuments_well_formed ls :
  Forall (fun c => DOC_ID_PATTERN_test (DocumentChunk.docId c) = true
                   /\ DocumentChunk.lines c <> []
                   /\ Forall (fun l => is_text_line l = true) (DocumentChunk.lines c))
    (readDocuments ls).
Proof.
  unfold readDocuments. cbv zeta.
  set (ok := fun c => DOC_ID_PATTERN_test (DocumentChunk.docId c) = true
                      /\ Forall (fun l => is_text_line l = true) (DocumentChunk.lines c)).
  assert (Hyield : forall cur, (forall c, cur = Some c -> ok c) ->
            Forall (fun c => DOC_ID_PATTERN_test (DocumentChunk.docId c) = true
                             /\ DocumentChunk.lines c <> []
                             /\ Forall (fun l => is_text_line l = true) (DocumentChunk.lines c))
              (yield_current cur)).
  { intros [c|] Hc; [|constructor]. cbn. case_bool_decide; [constructor|].
    destruct (Hc c eq_refl). by repeat constructor. }
  assert (H : forall ls st,
            (forall c, currentDoc st = Some c -> ok c) ->
            Forall (fun c => DOC_ID_PATTERN_test (DocumentChunk.docId c) = true
                             /\ DocumentChunk.lines c <> []
                             /\ Forall (fun l => is_text_line l = true) (DocumentChunk.lines c))
              (yielded st) ->
            (forall c, currentDoc (fold_left read_line ls st) = Some c -> ok c)
            /\ Forall (fun c => DOC_ID_PATTERN_test (DocumentChunk.docId c) = true
                             /\ DocumentChunk.lines c <> []
                             /\ Forall (fun l => is_text_line l = true) (DocumentChunk.lines c))
                 (yielded (fold_left read_line ls st))).
  { clear ls. induction ls as [|l ls IH]; intros st Hcur Hy; [done|].
    cbn [fold_left]. apply IH; unfold read_line.
    - destruct (DOC_ID_PATTERN_test (trim l)) eqn:Hid.
      + cbn. intros c [= <-]. split; [done|constructor].
      + destruct (currentDoc st) as [doc|] eqn:Hdoc; [|by rewrite Hdoc].
        case_bool_decide as Hb; [by rewrite Hdoc|]. cbn. intros c [= <-]. cbn.
        destruct (Hcur doc eq_refl) as [H1 H2]. split; [done|].
        apply Forall_app. split; [done|]. constructor; [|constructor].
        unfold is_text_line, is_id_line, is_blank. rewrite Hid.
        by rewrite bool_decide_eq_false_2.
    - destruct (DOC_ID_PATTERN_test (trim l)) eqn:Hid.
      + cbn. apply Forall_app. split; [done|]. by apply Hyield.
      + destruct (currentDoc st) as [doc|]; [|done]. by case_bool_decide. }
  destruct (H ls (mkReaderState None [])) as [Hc Hy]; [done|constructor|].
  apply Forall_app. split; [done|]. by apply Hyield.
Qed.

(** ** The dataset of a document id *)

Lemma string_of_list_ascii_drop4 digits :
  remove_first "EFTA" (String "E" (String "F" (String "T" (String "A" digits)))) = digits.
Proof.
  cbn. destruct digits; cbn; [done|]. by rewrite string_of_list_ascii_of_string.
Qed.

Lemma is_digit_not_white_space c : is_digit c = true -> is_white_space c = false.
Proof.
  unfold is_digit, is_white_space. rewrite bool_decide_eq_true. intros H.
  apply bool_decide_eq_false. intros Hin.
  repeat (apply elem_of_cons in Hin as [Hin|Hin]; [lia|]). by apply elem_of_nil in Hin.
Qed.

Lemma is_digit_not_sign c : is_digit c = true -> c <> "-"%char /\ c <> "+"%char.
Proof.
  intros H. split; intros ->; vm_compute in H; discriminate H.
Qed.

Lemma digits_value_bounds ds acc :
  forallb is_digit (list_ascii_of_string ds) = true -> 0 <= acc ->
  acc * 10 ^ Z.of_nat (String.length ds) <= digits_value acc ds
  < (acc + 1) * 10 ^ Z.of_nat (String.length ds).
Proof.
  revert acc. induction ds as [|c ds IH]; intros acc Hd Hacc.
  - cbn. lia.
  - cbn in Hd. apply andb_true_iff in Hd as [Hc Hd]. cbn [digits_value]. rewrite Hc.
    pose proof Hc as Hc'. unfold is_digit in Hc'. rewrite bool_decide_eq_true in Hc'.
    specialize (IH (10 * acc + (Z.of_nat (nat_of_ascii c) - 48)) Hd ltac:(lia)).
    cbn [String.length]. rewrite Nat2Z.inj_succ, Z.pow_succ_r by lia.
    assert (0 < 10 ^ Z.of_nat (String.length ds)) by (apply Z.pow_pos_nonneg; lia).
    nia.
Qed.

(** On a document id, that is on every string [DOC_ID_PATTERN] accepts,
    [getDatasetId] reads the eight digits as a decimal number, leading
    zeros included and never [NaN], and answers with the first dataset
    whose upper bound is not below that number, the fifth when there is
    none. *)
Theorem getDatasetId_of_document_id (digits : string) :
  DOC_ID_PATTERN_test ("EFTA" +:+ digits) = true ->
  let num := digits_value 0 digits in
  0 <= num <= 99999999
  /\ getDatasetId ("EFTA" +:+ digits)
     = (if num <=? 3158 then 1
        else if num <=? 3857 then 2
        else if num <=? 5586 then 3
        else if num <=? 8320 then 4
        else 5).
Proof.
  change ("EFTA" +:+ digits) with (String "E" (String "F" (String "T" (String "A" digits)))).
  cbn [DOC_ID_PATTERN_test]. rewrite andb_true_iff, bool_decide_eq_true.
  intros [Hlen Hd]. cbv zeta. split.
  - pose proof (digits_value_bounds digits 0 Hd ltac:(lia)) as H. rewrite Hlen in H.
    change (10 ^ Z.of_nat 8) with 100000000 in H. lia.
  - unfold getDatasetId. rewrite string_of_list_ascii_drop4.
    destruct digits as [|c ds]; [done|]. cbn in Hd. apply andb_true_iff in Hd as [Hc Hd].
    unfold parseInt10. cbn [trim_start]. rewrite (is_digit_not_white_space c Hc).
    destruct (is_digit_not_sign c Hc) as [Hm Hp].
    rewrite (proj2 (Ascii.eqb_neq c "-") Hm), (proj2 (Ascii.eqb_neq c "+") Hp).
    cbn [unsigned_digits]. by rewrite Hc.
Qed.

Lemma getDatasetId_of_document_id_example :
  DOC_ID_PATTERN_test "EFTA00005600" = true
  /\ getDatasetId "EFTA00005600" = 4.
Proof.
  split; [reflexivity|].
  exact (proj2 (getDatasetId_of_document_id "00005600" eq_refl)).
Defined.

(** ** Loading documents *)

Lemma with_full_text_same x : with_full_text (d_full_text (f_row x)) x = x.
Proof. by destruct x as [[] ? ? ?]. Qed.

Lemma find_doc_id_Some docid rows r :
  List.find (fun r => bool_decide (d_doc_id (f_row r) = docid)) rows = Some r ->
  r ∈ rows /\ d_doc_id (f_row r) = docid.
Proof.
  intros H. apply find_some in H as [Hin Hk]. apply list_elem_of_In in Hin.
  by apply bool_decide_eq_true in Hk.
Qed.

Lemma find_doc_id_None docid rows :
  List.find (fun r => bool_decide (d_doc_id (f_row r) = docid)) rows = None ->
  docid ∉ (fun r => d_doc_id (f_row r)) <$> rows.
Proof.
  intros H Hin. apply list_elem_of_fmap in Hin as (r & -> & Hr).
  apply list_elem_of_In in Hr. pose proof (find_none _ _ H r Hr) as Hk.
  by apply bool_decide_eq_false in Hk.
Qed.

Lemma insertDocument_stmt_spec (doc : DocumentInsert) (d : LoaderDB) :
  loader_wf d ->
  bind_error doc = None ->
  l_documents_id_seq d <= 2147483647 ->
  loader_wf (insertDocument_stmt doc d).2
  /\ l_documents_id_seq (insertDocument_stmt doc d).2 = l_documents_id_seq d + 1
  /\ ((exists r, r ∈ l_documents d /\ d_doc_id (f_row r) = n_docId doc
         /\ (insertDocument_stmt doc d).1 = Ok (d_id (f_row r))
         /\ l_documents (insertDocument_stmt doc d).2
            = (fun x => if bool_decide (d_doc_id (f_row x) = n_docId doc)
                        then with_full_text
                               (match n_fullText doc with
                                | Some text => Some text
                                | None => d_full_text (f_row x)
                                end) x
                        else x) <$> l_documents d)
      \/ ((n_docId doc ∉ (fun r => d_doc_id (f_row r)) <$> l_documents d)
          /\ (insertDocument_stmt doc d).1 = Ok (l_documents_id_seq d)
          /\ l_documents (insertDocument_stmt doc d).2
             = l_documents d ++ [inserted_row (l_documents_id_seq d) doc])).
Proof.
  intros (Hdoc & Hid & Hseq) Hbind Hmax. unfold insertDocument_stmt. rewrite Hbind.
  cbv zeta. rewrite (proj2 (Z.ltb_ge _ _) Hmax).
  destruct (List.find _ (l_documents d)) as [r|] eqn:Hfind.
  - apply find_doc_id_Some in Hfind as [Hr Hk]. cbn [fst snd l_documents l_documents_id_seq].
    assert (Hmap : (fun x => if bool_decide (d_doc_id (f_row x) = n_docId doc)
                             then with_full_text (COALESCE [n_fullText doc; d_full_text (f_row x)]) x
                             else x) <$> l_documents d
                   = (fun x => if bool_decide (d_doc_id (f_row x) = n_docId doc)
                               then with_full_text
                                      (match n_fullText doc with
                                       | Some text => Some text
                                       | None => d_full_text (f_row x)
                                       end) x
                               else x) <$> l_documents d).
    { apply list_fmap_ext. intros i x Hx. case_bool_decide; [|done].
      destruct (n_fullText doc); [done|]. cbn. by destruct (d_full_text (f_row x)). }
    rewrite Hmap. split; [|split; [done|]].
    + split; [|split]; cbn [l_documents l_documents_id_seq].
      * rewrite <- list_fmap_compose. erewrite list_fmap_ext; [exact Hdoc|].
        intros i x _. cbn. by case_bool_decide.
      * rewrite <- list_fmap_compose. erewrite list_fmap_ext; [exact Hid|].
        intros i x _. cbn. by case_bool_decide.
      * intros x Hx. apply list_elem_of_fmap in Hx as (y & -> & Hy).
        specialize (Hseq y Hy). case_bool_decide; cbn; lia.
    + left. by exists r.
  - apply find_doc_id_None in Hfind.
    rewrite bool_decide_eq_false_2.
    2:{ intros Hin. apply list_elem_of_fmap in Hin as (x & Hx & Hin).
        specialize (Hseq x Hin). lia. }
    cbn [fst snd l_documents l_documents_id_seq]. split; [|split; [done|]].
    + split; [|split]; cbn [l_documents l_documents_id_seq].
      * rewrite fmap_app. apply NoDup_app. split; [done|]. split; [|by apply NoDup_singleton].
        intros k Hk Hk'. apply list_elem_of_singleton in Hk'. cbn in Hk'. by subst.
      * rewrite fmap_app. apply NoDup_app. split; [done|]. split; [|by apply NoDup_singleton].
        intros k Hk Hk'. apply list_elem_of_singleton in Hk'. cbn in Hk'. subst.
        apply list_elem_of_fmap in Hk as (x & Hx & Hin). specialize (Hseq x Hin). lia.
      * intros x Hx. apply elem_of_app in Hx as [Hx|Hx]; [specialize (Hseq x Hx); lia|].
        apply list_elem_of_singleton in Hx as ->. cbn. lia.
    + right. done.
Qed.

(** [insertDocument] is an upsert on the document id.  On a table that
    satisfies its constraints and whose sequence has an id left, with
    parameters the server takes (no character of code 0 in a text, integers
    in the range of INTEGER), it succeeds and the constraints still hold, so
    there is never a second row for a document id.  When the document was
    there, it returns the id of its row and changes that row only, and only
    its full text: to the text given, or not at all when none is given; the
    dataset, the page count, the analysis and the status stay.  When it was
    not, it appends a pending row under the next id of the sequence and
    returns that id. *)
Theorem insertDocument_upserts (doc : DocumentInsert) (d : LoaderDB) :
  loader_wf d ->
  bind_error doc = None ->
  l_documents_id_seq d <= 2147483647 ->
  loader_wf (insertDocument_stmt doc d).2
  /\ ((exists r, r ∈ l_documents d /\ d_doc_id (f_row r) = n_docId doc
         /\ (insertDocument_stmt doc d).1 = Ok (d_id (f_row r))
         /\ l_documents (insertDocument_stmt doc d).2
            = (fun x => if bool_decide (d_doc_id (f_row x) = n_docId doc)
                        then with_full_text
                               (match n_fullText doc with
                                | Some text => Some text
                                | None => d_full_text (f_row x)
                                end) x
                        else x) <$> l_documents d)
      \/ ((n_docId doc ∉ (fun r => d_doc_id (f_row r)) <$> l_documents d)
          /\ (insertDocument_stmt doc d).1 = Ok (l_documents_id_seq d)
          /\ l_documents (insertDocument_stmt doc d).2
             = l_documents d ++ [inserted_row (l_documents_id_seq d) doc])).
Proof.
  intros Hwf Hbind Hmax.
  destruct (insertDocument_stmt_spec doc d Hwf Hbind Hmax) as (H1 & _ & H2). by split.
Qed.

Lemma insertDocument_upserts_example :
  let d := mkLoaderDB
    [mk_documents_full_row
       (mk_documents_row 1 "EFTA00000001" (Some "old text") (Some "A log") None None None None
          (Some ["travel"]) (Some "complete") None) 1 None (Some 1)] 2 in
  let again := mkDocumentInsert "EFTA00000001" 4 None (Some "new text") (Some 9) in
  loader_wf d
  /\ (insertDocument_stmt again d).1 = Ok 1
  /\ l_documents (insertDocument_stmt again d).2
     = [mk_documents_full_row
          (mk_documents_row 1 "EFTA00000001" (Some "new text") (Some "A log") None None None
             None (Some ["travel"]) (Some "complete") None) 1 None (Some 1)].
Proof.
  cbv zeta.
  assert (H : loader_wf (mkLoaderDB
    [mk_documents_full_row
       (mk_documents_row 1 "EFTA00000001" (Some "old text") (Some "A log") None None None None
          (Some ["travel"]) (Some "complete") None) 1 None (Some 1)] 2)).
  { split; [by apply NoDup_singleton|]. split; [by apply NoDup_singleton|].
    intros r Hr. apply list_elem_of_singleton in Hr as ->. reflexivity. }
  split; [exact H|].
  destruct (insertDocument_upserts
              (mkDocumentInsert "EFTA00000001" 4 None (Some "new text") (Some 9)) _ H eq_refl
              ltac:(cbn; lia))
    as [_ [(r & Hr & _ & Hres & Hrows)|(Hnot & _)]].
  - apply list_elem_of_singleton in Hr. subst r. split; [exact Hres|exact Hrows].
  - exfalso. apply Hnot. by apply list_elem_of_singleton.
Defined.

Lemma getDatasetId_int4 s : int4 (getDatasetId s) = true.
Proof.
  unfold getDatasetId. destruct (parseInt10 _) as [num|]; [|done].
  by repeat case_match.
Qed.

(** ** The loader *)

Lemma text_ok_append a b : text_ok (a +:+ b) = text_ok a && text_ok b.
Proof.
  unfold text_ok. induction a as [|c a IH]; [done|].
  simpl. by rewrite IH, andb_assoc.
Qed.

Lemma text_ok_join sep xs :
  text_ok sep = true -> Forall (fun l => text_ok l = true) xs -> text_ok (join sep xs) = true.
Proof.
  intros Hsep. induction 1 as [|x xs Hx Hxs IH]; [done|]. cbn [join].
  destruct xs as [|y xs]; [done|]. by rewrite !text_ok_append, Hx, Hsep, IH.
Qed.

Lemma DOC_ID_PATTERN_test_inv s :
  DOC_ID_PATTERN_test s = true ->
  exists digits, s = "EFTA" +:+ digits
                 /\ String.length digits = 8%nat
                 /\ forallb is_digit (list_ascii_of_string digits) = true.
Proof.
  destruct s as [|c1 [|c2 [|c3 [|c4 digits]]]];
    try (intros H; cbn in H; repeat case_match; discriminate H).
  intros H.
  assert (c1 = "E"%char /\ c2 = "F"%char /\ c3 = "T"%char /\ c4 = "A"%char) as (-> & -> & -> & ->).
  { destruct (Ascii.eqb_spec c1 "E"); [subst|]. 
    2:{ exfalso. cbn in H. repeat case_match; try discriminate H; by subst. }
    destruct (Ascii.eqb_spec c2 "F"); [subst|].
    2:{ exfalso. cbn in H. repeat case_match; try discriminate H; by subst. }
    destruct (Ascii.eqb_spec c3 "T"); [subst|].
    2:{ exfalso. cbn in H. repeat case_match; try discriminate H; by subst. }
    destruct (Ascii.eqb_spec c4 "A"); [subst|].
    2:{ exfalso. cbn in H. repeat case_match; try discriminate H; by subst. }
    done. }
  cbn [DOC_ID_PATTERN_test] in H. apply andb_true_iff in H as [Hlen Hd].
  apply bool_decide_eq_true in Hlen. by exists digits.
Qed.

(** What every chunk of [readDocuments] satisfies, shown for a chunk as it
    is opened and kept as it takes a line. *)
Lemma readDocuments_Forall (P : DocumentChunk.t -> Prop) ls :
  (forall l, l ∈ ls -> is_id_line l = true -> P (DocumentChunk.mk (trim l) [])) ->
  (forall c l, P c -> l ∈ ls -> is_text_line l = true ->
     P (DocumentChunk.mk (DocumentChunk.docId c) (DocumentChunk.lines c ++ [l]))) ->
  Forall P (readDocuments ls).
Proof.
  intros Hopen Htake. unfold readDocuments. cbv zeta.
  assert (Hyield : forall cur, (forall c, cur = Some c -> P c) -> Forall P (yield_current cur)).
  { intros [c|] Hc; [|constructor]. cbn. case_bool_decide; [constructor|].
    constructor; [by apply Hc|constructor]. }
  assert (H : forall ls' st, ls' ⊆ ls ->
            (forall c, currentDoc st = Some c -> P c) -> Forall P (yielded st) ->
            (forall c, currentDoc (fold_left read_line ls' st) = Some c -> P c)
            /\ Forall P (yielded (fold_left read_line ls' st))).
  { induction ls' as [|l ls' IH]; intros st Hsub Hcur Hy; [done|].
    assert (Hl : l ∈ ls) by (apply Hsub; left).
    assert (Hsub' : ls' ⊆ ls) by (intros x Hx; apply Hsub; by right).
    cbn [fold_left]. apply (IH _ Hsub'); unfold read_line.
    - destruct (DOC_ID_PATTERN_test (trim l)) eqn:Hid.
      + cbn. intros c [= <-]. by apply Hopen.
      + destruct (currentDoc st) as [doc|] eqn:Hdoc; [|by rewrite Hdoc].
        case_bool_decide as Hb; [by rewrite Hdoc|]. cbn. intros c [= <-].
        apply (Htake doc l); [by apply Hcur|done|].
        unfold is_text_line, is_id_line, is_blank. rewrite Hid.
        by rewrite bool_decide_eq_false_2.
    - destruct (DOC_ID_PATTERN_test (trim l)) eqn:Hid.
      + cbn. apply Forall_app. split; [done|]. by apply Hyield.
      + destruct (currentDoc st) as [doc|]; [|done]. by case_bool_decide. }
  destruct (H ls (mkReaderState None [])) as [Hc Hy]; [done|done|constructor|].
  apply Forall_app. split; [done|]. by apply Hyield.
Qed.

(** The chunks of a file the server can store are chunks it can store. *)
Lemma readDocuments_text_ok ls :
  file_ok ls ->
  Forall (fun c => text_ok (DocumentChunk.docId c) = true
                   /\ Forall (fun l => text_ok l = true) (DocumentChunk.lines c))
    (readDocuments ls).
Proof.
  intros Hok. assert (Hid : forall s, DOC_ID_PATTERN_test s = true -> text_ok s = true).
  { intros s Hs. apply DOC_ID_PATTERN_test_inv in Hs as (digits & -> & _ & Hd).
    rewrite text_ok_append. apply andb_true_iff. split; [done|].
    unfold text_ok. rewrite forallb_forall in Hd |- *. intros c Hc. specialize (Hd c Hc).
    destruct (Ascii.eqb_spec c zero) as [->|]; [|done]. vm_compute in Hd. discriminate Hd. }
  apply readDocuments_Forall.
  - intros l _ Hl. cbn. split; [by apply Hid|constructor].
  - intros c l [H1 H2] Hl _. cbn. split; [done|]. apply Forall_app. split; [done|].
    constructor; [|constructor]. unfold file_ok in Hok. rewrite Forall_forall in Hok.
    by apply Hok.
Qed.

(** There are no more chunks than lines. *)
Lemma readDocuments_length ls : (length (readDocuments ls) <= length ls)%nat.
Proof.
  unfold readDocuments. cbv zeta.
  assert (Hy : forall cur, (length (yield_current cur) <= match cur with Some _ => 1 | None => 0 end)%nat).
  { intros [c|]; [|done]. cbn. case_bool_decide; cbn; lia. }
  assert (H : forall ls st,
            (length (yielded (fold_left read_line ls st))
             + match currentDoc (fold_left read_line ls st) with Some _ => 1 | None => 0 end
             <= length (yielded st) + match currentDoc st with Some _ => 1 | None => 0 end + length ls)%nat).
  { clear ls. induction ls as [|l ls IH]; intros st; [cbn; lia|].
    cbn [fold_left length]. etransitivity; [apply IH|]. unfold read_line.
    destruct (DOC_ID_PATTERN_test (trim l)).
    - cbn. rewrite length_app. pose proof (Hy (currentDoc st)).
      destruct (currentDoc st); lia.
    - destruct (currentDoc st) as [doc|] eqn:Hdoc; [|rewrite Hdoc; lia].
      case_bool_decide; [rewrite Hdoc; lia|]. cbn. lia. }
  specialize (H ls (mkReaderState None [])). cbn [yielded currentDoc length] in H.
  rewrite length_app. pose proof (Hy (currentDoc (fold_left read_line ls (mkReaderState None [])))).
  destruct (currentDoc _); lia.
Qed.

Lemma size_list_to_set_le (l : list string) :
  (size (list_to_set l : gset string) <= length l)%nat.
Proof.
  induction l as [|x l IH]; [done|]. cbn [list_to_set length].
  destruct (decide (x ∈ (list_to_set l : gset string))) as [Hin|Hnot].
  - rewrite (subseteq_union_1_L {[x]} (list_to_set l)) by (by apply singleton_subseteq_l). lia.
  - rewrite size_union by (by apply disjoint_singleton_l). rewrite size_singleton. lia.
Qed.

Lemma bind_error_chunk_insert c :
  text_ok (DocumentChunk.docId c) = true ->
  Forall (fun l => text_ok l = true) (DocumentChunk.lines c) ->
  bind_error (chunk_insert c) = None.
Proof.
  intros Hid Hlines. unfold bind_error, chunk_insert.
  cbn [n_docId n_datasetId n_filePath n_fullText n_pageCount from_option].
  by rewrite Hid, getDatasetId_int4, (text_ok_join nl _ eq_refl Hlines).
Qed.

Lemma first_chunk_snoc pre c c' :
  first_chunk pre c' -> first_chunk (pre ++ [c]) c'.
Proof.
  intros (p & q & -> & Hp). exists p, (q ++ [c]). split; [|done].
  by rewrite <- app_assoc.
Qed.

Lemma first_chunk_last pre c :
  DocumentChunk.docId c ∉ DocumentChunk.docId <$> pre -> first_chunk (pre ++ [c]) c.
Proof. intros H. by exists pre, []. Qed.

Lemma first_chunk_snoc_inv pre c c' :
  first_chunk (pre ++ [c]) c' ->
  first_chunk pre c'
  \/ (c' = c /\ DocumentChunk.docId c ∉ DocumentChunk.docId <$> pre).
Proof.
  intros (p & q & Hsplit & Hp). destruct (decide (q = [])) as [->|Hq].
  - apply app_inj_tail in Hsplit as [-> ->]. by right.
  - destruct (exists_last Hq) as (q' & x & ->).
    change (p ++ c' :: q' ++ [x]) with (p ++ (c' :: q') ++ [x]) in Hsplit.
    rewrite app_assoc in Hsplit. apply app_inj_tail in Hsplit as [-> ->].
    left. by exists p, q'.
Qed.

Lemma first_chunk_elem_of chunks c : first_chunk chunks c -> c ∈ chunks.
Proof. intros (p & q & -> & _). apply elem_of_app. right. left. Qed.

(** Every document id among the chunks has a first chunk. *)
Lemma first_chunk_exists chunks c :
  c ∈ chunks ->
  exists c', first_chunk chunks c' /\ DocumentChunk.docId c' = DocumentChunk.docId c.
Proof.
  revert c. induction chunks as [|x chunks IH] using rev_ind; intros c Hc;
    [by apply elem_of_nil in Hc|].
  apply elem_of_app in Hc as [Hc|Hc].
  - destruct (IH c Hc) as (c' & Hf & Hk). exists c'. split; [by apply first_chunk_snoc|done].
  - apply list_elem_of_singleton in Hc as ->.
    destruct (decide (DocumentChunk.docId x ∈ DocumentChunk.docId <$> chunks)) as [Hin|Hnot].
    + apply list_elem_of_fmap in Hin as (y & Hy & Hin).
      destruct (IH y Hin) as (c' & Hf & Hk). exists c'.
      split; [by apply first_chunk_snoc|congruence].
    + exists x. split; [by apply first_chunk_last|done].
Qed.

(** Two first chunks of one document id are one chunk. *)
Lemma first_chunk_unique chunks c c' :
  first_chunk chunks c -> first_chunk chunks c' ->
  DocumentChunk.docId c = DocumentChunk.docId c' -> c = c'.
Proof.
  intros (p & q & Hs & Hp) (p' & q' & Hs' & Hp') Hk. rewrite Hs in Hs'. clear Hs.
  revert p' Hp Hs' Hp'. induction p as [|x p IH]; intros p' Hp Hs' Hp'.
  - destruct p' as [|x' p']; [by injection Hs'|]. injection Hs' as -> _.
    exfalso. apply Hp'. rewrite <- Hk. cbn. left.
  - destruct p' as [|x' p'].
    + injection Hs' as -> _. exfalso. apply Hp. rewrite Hk. cbn. left.
    + injection Hs' as -> Hs'. apply (IH p'); [|done|].
      * intros H. apply Hp. cbn. by right.
      * intros H. apply Hp'. cbn. by right.
Qed.

Lemma reloaded_snoc pre c r r' : reloaded pre r r' -> reloaded (pre ++ [c]) r r'.
Proof.
  intros [->|(c' & Hf & Hk & ->)]; [by left|]. right. exists c'.
  split; [by apply first_chunk_snoc|done].
Qed.

Lemma reloaded_doc_id pre r r' : reloaded pre r r' -> d_doc_id (f_row r') = d_doc_id (f_row r).
Proof. by intros [->|(c' & _ & _ & ->)]. Qed.

(** One chunk more. *)
Lemma load_chunk_inv d pre c st :
  text_ok (DocumentChunk.docId c) = true ->
  Forall (fun l => text_ok l = true) (DocumentChunk.lines c) ->
  l_documents_id_seq d + Z.of_nat (length (pre ++ [c])) <= 2147483648 ->
  loader_inv d pre st -> loader_inv d (pre ++ [c]) (load_chunk st c).
Proof.
  intros Hcid Hclines Hroom
    (Hwf & Hnext & Herr & Hseen & Hcount & Hfirst & kept & new & Hrows & Hkept & Hnew).
  assert (Hseen_iff : DocumentChunk.docId c ∈ seenDocs st
                      <-> DocumentChunk.docId c ∈ DocumentChunk.docId <$> pre).
  { rewrite Hseen. apply elem_of_list_to_set. }
  assert (Hfirst_seen : forall c', first_chunk pre c' ->
            DocumentChunk.docId c' ∈ DocumentChunk.docId <$> pre).
  { intros c' Hf. apply list_elem_of_fmap. exists c'. split; [done|].
    by apply first_chunk_elem_of. }
  unfold load_chunk. case_bool_decide as Hin.
  - (* a document id met before: the chunk is skipped *)
    split; [done|]. split; [done|]. split; [done|]. split.
    { rewrite fmap_app, list_to_set_app_L, <- Hseen. cbn. rewrite union_empty_r_L.
      symmetry. rewrite union_comm_L. apply subseteq_union_1_L.
      by apply singleton_subseteq_l. }
    split; [done|]. split.
    { intros c' Hf. apply first_chunk_snoc_inv in Hf as [Hf|[-> Hnot]]; [by apply Hfirst|].
      by apply Hseen_iff in Hin. }
    exists kept, new. split; [done|]. split.
    { eapply Forall2_impl; [exact Hkept|]. intros x y. apply reloaded_snoc. }
    eapply Forall_impl; [exact Hnew|]. intros r (c' & Hc' & Hr). exists c'.
    split; [by apply first_chunk_snoc|done].
  - (* a new document id *)
    cbv zeta.
    assert (Hnot : DocumentChunk.docId c ∉ DocumentChunk.docId <$> pre).
    { intros H. by apply Hin, Hseen_iff. }
    assert (Hmax : l_documents_id_seq (l_db st) <= 2147483647).
    { rewrite Hnext, Hcount, Hseen. pose proof (size_list_to_set_le (DocumentChunk.docId <$> pre)).
      rewrite length_fmap in H. rewrite length_app in Hroom. cbn in Hroom. lia. }
    destruct (insertDocument_stmt_spec (chunk_insert c) (l_db st) Hwf
                (bind_error_chunk_insert c Hcid Hclines) Hmax) as (Hwf' & Hnext' & Hcase).
    fold (chunk_insert c).
    assert (Hseen' : {[DocumentChunk.docId c]} ∪ seenDocs st
                     = list_to_set (DocumentChunk.docId <$> (pre ++ [c]))).
    { rewrite fmap_app, list_to_set_app_L, <- Hseen. cbn. rewrite union_empty_r_L.
      apply union_comm_L. }
    assert (Hsize : Z.of_nat (size ({[DocumentChunk.docId c]} ∪ seenDocs st)) = l_count st + 1).
    { rewrite size_union by (by apply disjoint_singleton_l).
      rewrite size_singleton, Hcount. lia. }
    destruct Hcase as [(r & Hr & Hk & Hres & Hrows')|(Hnotin & Hres & Hrows')];
      destruct (insertDocument_stmt (chunk_insert c) (l_db st)) as [res d'];
      cbn [fst snd] in *; subst res.
    + (* the document was in the table: its text is replaced *)
      unfold loader_inv. cbn [l_db l_errors l_count seenDocs].
      split; [done|]. split; [lia|]. split; [done|]. split; [done|].
      split; [by rewrite Hsize|]. split.
      { intros c' Hf. apply first_chunk_snoc_inv in Hf as [Hf|[-> _]].
        - destruct (Hfirst c' Hf) as (x & Hx & Hxk & Hxt).
          exists x. split; [|done]. rewrite Hrows'. apply list_elem_of_fmap. exists x.
          split; [|done]. rewrite bool_decide_eq_false_2; [done|]. cbn.
          intros Heq. apply Hnot. rewrite <- Heq, Hxk. by apply Hfirst_seen.
        - eexists. split; [rewrite Hrows'; apply list_elem_of_fmap; by exists r|].
          rewrite bool_decide_eq_true_2 by done. done. }
      rewrite Hrows', Hrows, fmap_app. eexists _, _. split; [reflexivity|]. split.
      { apply Forall2_fmap_r. eapply Forall2_impl; [exact Hkept|]. intros x y Hxy. cbn.
        case_bool_decide as Hyk; [|by apply reloaded_snoc].
        destruct Hxy as [->|(c' & Hf & Hxk & ->)].
        - right. exists c. split; [by apply first_chunk_last|done].
        - exfalso. apply Hnot. cbn in Hyk. rewrite <- Hyk, Hxk. by apply Hfirst_seen. }
      apply Forall_fmap. eapply Forall_impl; [exact Hnew|]. intros x (c' & Hc' & Hx). cbn.
      rewrite bool_decide_eq_false_2.
      { exists c'. split; [by apply first_chunk_snoc|done]. }
      rewrite Hx. cbn. intros Heq. apply Hnot. rewrite <- Heq. by apply Hfirst_seen.
    + (* the document was not in the table: a row is appended *)
      unfold loader_inv. cbn [l_db l_errors l_count seenDocs].
      split; [done|]. split; [lia|]. split; [done|]. split; [done|].
      split; [by rewrite Hsize|]. split.
      { intros c' Hf. apply first_chunk_snoc_inv in Hf as [Hf|[-> _]].
        - destruct (Hfirst c' Hf) as (x & Hx & Hxk & Hxt).
          exists x. split; [|done]. rewrite Hrows'. apply elem_of_app. by left.
        - eexists. split; [rewrite Hrows'; apply elem_of_app; right; by left|done]. }
      rewrite Hrows', Hrows, <- app_assoc. eexists _, _. split; [reflexivity|]. split.
      { eapply Forall2_impl; [exact Hkept|]. intros x y. apply reloaded_snoc. }
      apply Forall_app. split.
      * eapply Forall_impl; [exact Hnew|]. intros x (c' & Hc' & Hx). exists c'.
        split; [by apply first_chunk_snoc|done].
      * constructor; [|constructor]. exists c. split; [by apply first_chunk_last|done].
Qed.

Lemma loader_inv_fold d chunks pre st :
  Forall (fun c => text_ok (DocumentChunk.docId c) = true
                   /\ Forall (fun l => text_ok l = true) (DocumentChunk.lines c)) chunks ->
  l_documents_id_seq d + Z.of_nat (length (pre ++ chunks)) <= 2147483648 ->
  loader_inv d pre st -> loader_inv d (pre ++ chunks) (fold_left load_chunk chunks st).
Proof.
  intros Hok. revert pre st. induction Hok as [|c chunks [Hc1 Hc2] _ IH]; intros pre st Hroom H.
  - by rewrite app_nil_r.
  - cbn [fold_left]. rewrite (cons_middle c pre chunks), app_assoc in Hroom |- *.
    apply IH; [done|]. apply load_chunk_inv; [done|done| |done].
    rewrite length_app in Hroom. lia.
Qed.

Lemma loader_main_inv ls d :
  loader_wf d ->
  file_ok ls ->
  l_documents_id_seq d + Z.of_nat (length ls) <= 2147483648 ->
  loader_inv d (readDocuments ls) (loader_main ls d).
Proof.
  intros Hwf Hok Hroom. unfold loader_main.
  apply (loader_inv_fold d (readDocuments ls) [] (mkLoaderState d 0 0 ∅)).
  - by apply readDocuments_text_ok.
  - cbn [app]. pose proof (readDocuments_length ls). lia.
  - split; [done|]. split; [cbn; lia|]. split; [done|]. split; [done|]. split; [done|]. split.
    { intros c (p & q & Hsplit & _). by destruct p. }
    exists (l_documents d), []. split; [by rewrite app_nil_r|]. split; [|constructor].
    apply Forall2_diag. by left.
Qed.

Lemma Forall2_impl_elem_of {A B} (P Q : A -> B -> Prop) (l : list A) (k : list B) :
  Forall2 P l k -> (forall x y, x ∈ l -> P x y -> Q x y) -> Forall2 Q l k.
Proof.
  induction 1 as [|x y l k Hxy _ IH]; intros HPQ; constructor.
  - apply HPQ; [left|done].
  - apply IH. intros x' y' Hx'. apply HPQ. by right.
Qed.

(** The loader counts one document for each document id of the file and
    never an error, whatever the table held, as long as the table satisfies
    its constraints, no line has a character of code 0 and the sequence has
    an id for every line.  The table still satisfies its constraints
    afterwards, and for each document id of the file it holds a row with the
    lines of the first chunk of that id, joined by line feeds, as its full
    text: a later chunk of an id already met is dropped. *)
Theorem loader_main_first_chunk_wins (ls : list string) (d : LoaderDB) :
  loader_wf d ->
  file_ok ls ->
  l_documents_id_seq d + Z.of_nat (length ls) <= 2147483648 ->
  loader_wf (l_db (loader_main ls d))
  /\ l_errors (loader_main ls d) = 0
  /\ l_count (loader_main ls d)
     = Z.of_nat (size (list_to_set (DocumentChunk.docId <$> readDocuments ls) : gset string))
  /\ forall c, c ∈ readDocuments ls ->
       exists c' r,
         first_chunk (readDocuments ls) c'
         /\ DocumentChunk.docId c' = DocumentChunk.docId c
         /\ r ∈ l_documents (l_db (loader_main ls d))
         /\ d_doc_id (f_row r) = DocumentChunk.docId c
         /\ d_full_text (f_row r) = Some (join nl (DocumentChunk.lines c')).
Proof.
  intros Hwf Hok Hroom.
  destruct (loader_main_inv ls d Hwf Hok Hroom)
    as (Hwf' & _ & Herr & Hseen & Hcount & Hfirst & _).
  split; [done|]. split; [done|]. split; [by rewrite Hcount, Hseen|].
  intros c Hc. destruct (first_chunk_exists _ c Hc) as (c' & Hf & Hk).
  destruct (Hfirst c' Hf) as (r & Hr & Hrk & Hrt). exists c', r.
  split; [done|]. split; [done|]. split; [done|]. split; [congruence|done].
Qed.

Lemma loader_main_first_chunk_wins_repeated :
  l_errors (loader_main repeated_file analysed_table) = 0
  /\ l_count (loader_main repeated_file analysed_table)
     = Z.of_nat (size (list_to_set (DocumentChunk.docId <$> readDocuments repeated_file)
                         : gset string)).
Proof.
  assert (Hwf : loader_wf analysed_table).
  { split; [by apply NoDup_singleton|]. split; [by apply NoDup_singleton|].
    intros r Hr. apply list_elem_of_singleton in Hr as ->. reflexivity. }
  assert (Hok : file_ok repeated_file) by (repeat constructor).
  destruct (loader_main_first_chunk_wins repeated_file analysed_table Hwf Hok ltac:(cbn; lia))
    as (_ & Herr & Hcount & _).
  split; [exact Herr|exact Hcount].
Defined.

(** Loading a file into a table that holds documents already keeps every
    row there was, in its place.  Such a row is left as it is unless the file
    has its document id, and then only its full text changes, to the text of
    the first chunk of that id: the summary, the tags, the dates, the error
    message and the analysis status stay, so a document that was analysed is
    not made pending again by new text.  The rows after them are new: each
    is the pending row of the first chunk of a document id, under the dataset
    [getDatasetId] gives and the page count 1. *)
Theorem loader_main_keeps_analysis (ls : list string) (d : LoaderDB) :
  loader_wf d ->
  file_ok ls ->
  l_documents_id_seq d + Z.of_nat (length ls) <= 2147483648 ->
  exists kept new,
    l_documents (l_db (loader_main ls d)) = kept ++ new
    /\ Forall2 (reloaded (readDocuments ls)) (l_documents d) kept
    /\ Forall (fun r => exists c, first_chunk (readDocuments ls) c
                                  /\ r = inserted_row (d_id (f_row r)) (chunk_insert c)) new.
Proof.
  intros Hwf Hok Hroom.
  by destruct (loader_main_inv ls d Hwf Hok Hroom) as (_ & _ & _ & _ & _ & _ & H).
Qed.

Lemma loader_main_keeps_analysis_repeated :
  exists kept new,
    l_documents (l_db (loader_main repeated_file analysed_table)) = kept ++ new
    /\ Forall2 (reloaded (readDocuments repeated_file)) (l_documents analysed_table) kept
    /\ Forall (fun r => exists c, first_chunk (readDocuments repeated_file) c
                                  /\ r = inserted_row (d_id (f_row r)) (chunk_insert c)) new.
Proof.
  assert (Hwf : loader_wf analysed_table).
  { split; [by apply NoDup_singleton|]. split; [by apply NoDup_singleton|].
    intros r Hr. apply list_elem_of_singleton in Hr as ->. reflexivity. }
  assert (Hok : file_ok repeated_file) by (repeat constructor).
  exact (loader_main_keeps_analysis repeated_file analysed_table Hwf Hok ltac:(cbn; lia)).
Defined.

(** Loading the same file a second time changes no row: the table after
    the second run is the table after the first.  The second run still
    counts every document id of the file as processed, as the first did. *)
Theorem loader_main_twice (ls : list string) (d : LoaderDB) :
  loader_wf d ->
  file_ok ls ->
  l_documents_id_seq d + 2 * Z.of_nat (length ls) <= 2147483648 ->
  l_documents (l_db (loader_main ls (l_db (loader_main ls d))))
  = l_documents (l_db (loader_main ls d))
  /\ l_count (loader_main ls (l_db (loader_main ls d))) = l_count (loader_main ls d).
Proof.
  intros Hwf Hok Hroom.
  destruct (loader_main_inv ls d Hwf Hok ltac:(lia))
    as (Hwf1 & Hnext1 & _ & Hseen1 & Hcount1 & Hfirst1 & _).
  assert (Hroom1 : l_documents_id_seq (l_db (loader_main ls d)) + Z.of_nat (length ls)
                   <= 2147483648).
  { rewrite Hnext1, Hcount1, Hseen1.
    pose proof (size_list_to_set_le (DocumentChunk.docId <$> readDocuments ls)) as H.
    rewrite length_fmap in H. pose proof (readDocuments_length ls). lia. }
  destruct (loader_main_inv ls _ Hwf1 Hok Hroom1)
    as (Hwf2 & _ & _ & Hseen2 & Hcount2 & _ & kept & new & Hrows & Hkept & Hnew).
  split; [|by rewrite Hcount2, Hseen2, Hcount1, Hseen1].
  set (rows1 := l_documents (l_db (loader_main ls d))) in *.
  assert (Hsame : kept = rows1).
  { symmetry. apply list_eq_Forall2. eapply Forall2_impl_elem_of; [exact Hkept|].
    intros x y Hx [->|(c & Hf & Hxk & ->)]; [done|].
    destruct (Hfirst1 c Hf) as (x' & Hx' & Hk' & Ht').
    assert (x = x') as <-.
    { apply (NoDup_key_inj (fun r => d_doc_id (f_row r)) rows1); [apply Hwf1|done|done|].
      congruence. }
    rewrite <- Ht'. symmetry. apply with_full_text_same. }
  subst kept. destruct new as [|r new]; [by rewrite Hrows, app_nil_r|]. exfalso.
  apply Forall_cons in Hnew as [(c & Hf & Hr) _].
  destruct (Hfirst1 c Hf) as (x & Hx & Hk & _).
  destruct Hwf2 as [Hnd _]. rewrite Hrows, fmap_app in Hnd.
  apply NoDup_app in Hnd as (_ & Hdisj & _).
  apply (Hdisj (DocumentChunk.docId c)).
  - apply list_elem_of_fmap. by exists x.
  - apply list_elem_of_fmap. exists r. split; [by rewrite Hr|left].
Qed.

Lemma loader_main_twice_repeated :
  l_documents (l_db (loader_main repeated_file (l_db (loader_main repeated_file analysed_table))))
  = l_documents (l_db (loader_main repeated_file analysed_table))
  /\ l_count (loader_main repeated_file (l_db (loader_main repeated_file analysed_table)))
     = l_count (loader_main repeated_file analysed_table).
Proof.
  assert (Hwf : loader_wf analysed_table).
  { split; [by apply NoDup_singleton|]. split; [by apply NoDup_singleton|].
    intros r Hr. apply list_elem_of_singleton in Hr as ->. reflexivity. }
  assert (Hok : file_ok repeated_file) by (repeat constructor).
  exact (loader_main_twice repeated_file analysed_table Hwf Hok ltac:(cbn; lia)).
Defined.

Lemma length_omap_le {A B} (f : A -> option B) (l : list A) :
  (length (omap f l) <= length l)%nat.
Proof. induction l as [|x l IH]; [done|]. csimpl. destruct (f x); cbn; lia. Qed.

Lemma join_nonempty sep x xs : x <> "" -> join sep (x :: xs) <> "".
Proof. intros Hx. cbn [join]. destruct xs; [done|]. by destruct x. Qed.

Lemma is_text_line_nonempty l : is_text_line l = true -> l <> "".
Proof. by intros H ->. Qed.

(** What the loader stores is what the orchestrator fetches.  A document
    id of the file that the table did not hold is, after the load, a pending
    document: [getDocumentsPendingAnalysis], asked for as many rows as the
    table has, returns it under its document id with the text of its first
    chunk, and that text is not empty, since a chunk that took no line is
    never yielded. *)
Theorem loaded_document_is_fetched (ls : list string) (d : LoaderDB) (s : DB)
    (limit : nat) (c : DocumentChunk.t) :
  loader_wf d ->
  file_ok ls ->
  l_documents_id_seq d + Z.of_nat (length ls) <= 2147483648 ->
  documents s = pipeline_view (l_db (loader_main ls d)) ->
  (length (documents s) <= limit)%nat ->
  first_chunk (readDocuments ls) c ->
  DocumentChunk.docId c ∉ (fun r => d_doc_id (f_row r)) <$> l_documents d ->
  join nl (DocumentChunk.lines c) <> ""
  /\ exists id docs,
       getDocumentsPendingAnalysis_stmt limit s = (Ok docs, s)
       /\ PendingDocument.mk id (DocumentChunk.docId c) (join nl (DocumentChunk.lines c))
          ∈ docs.
Proof.
  intros Hwf Hok Hroom Hs Hlimit Hf Hnew.
  destruct (loader_main_inv ls d Hwf Hok Hroom)
    as (_ & _ & _ & _ & _ & Hfirst & kept & new & Hrows & Hkept & Hnews).
  split.
  { pose proof (readDocuments_well_formed ls) as Hall. rewrite Forall_forall in Hall.
    destruct (Hall c (first_chunk_elem_of _ _ Hf)) as (_ & Hne & Hlines).
    destruct (DocumentChunk.lines c) as [|l lines]; [done|].
    apply join_nonempty, is_text_line_nonempty. by apply Forall_cons in Hlines as [? _]. }
  destruct (Hfirst c Hf) as (r & Hr & Hk & Ht). rewrite Hrows in Hr.
  apply elem_of_app in Hr as [Hr|Hr].
  { exfalso. apply Hnew. apply list_elem_of_lookup in Hr as [i Hi].
    destruct (Forall2_lookup_r _ _ _ _ _ Hkept Hi) as (x & Hx & Hxr).
    apply list_elem_of_fmap. exists x. split; [|by eapply list_elem_of_lookup_2].
    by rewrite <- Hk, (reloaded_doc_id _ _ _ Hxr). }
  rewrite Forall_forall in Hnews. destruct (Hnews r Hr) as (c' & Hf' & Hr').
  assert (c' = c) as ->.
  { apply (first_chunk_unique (readDocuments ls)); [done|done|]. by rewrite <- Hk, Hr'. }
  exists (d_id (f_row r)), (take limit (omap pending_row (documents s))).
  split; [done|]. rewrite take_ge.
  2:{ etransitivity; [apply length_omap_le|done]. }
  apply list_elem_of_omap. exists (f_row r). split.
  - rewrite Hs. unfold pipeline_view. apply list_elem_of_fmap. exists r. split; [done|].
    rewrite Hrows. apply elem_of_app. by right.
  - by rewrite Hr'.
Qed.

Lemma loaded_document_is_fetched_wire_memo :
  let s := mkDB (pipeline_view (l_db (loader_main repeated_file analysed_table)))
             [] 1 [] 1 [] 1 [] 1 in
  exists id docs,
    getDocumentsPendingAnalysis_stmt 10 s = (Ok docs, s)
    /\ PendingDocument.mk id "EFTA00005600" (join nl ["Wire memo"; "page 2"]) ∈ docs.
Proof.
  assert (Hwf : loader_wf analysed_table).
  { split; [by apply NoDup_singleton|]. split; [by apply NoDup_singleton|].
    intros r Hr. apply list_elem_of_singleton in Hr as ->. reflexivity. }
  assert (Hok : file_ok repeated_file) by (repeat constructor).
  assert (Hf : first_chunk (readDocuments repeated_file)
                 (DocumentChunk.mk "EFTA00005600" ["Wire memo"; "page 2"])).
  { exists [DocumentChunk.mk "EFTA00000001" ["Flight log"]],
           [DocumentChunk.mk "EFTA00000001" ["Flight log, second scan"]].
    split; [reflexivity|]. intros H. apply list_elem_of_singleton in H. discriminate H. }
  assert (Hnew : "EFTA00005600" ∉ (fun r => d_doc_id (f_row r)) <$> l_documents analysed_table).
  { intros H. apply list_elem_of_singleton in H. discriminate H. }
  exact (proj2 (loaded_document_is_fetched repeated_file analysed_table
                  (mkDB (pipeline_view (l_db (loader_main repeated_file analysed_table)))
                     [] 1 [] 1 [] 1 [] 1)
                  10 (DocumentChunk.mk "EFTA00005600" ["Wire memo"; "page 2"])
                  Hwf Hok ltac:(cbn; lia) eq_refl ltac:(vm_compute; lia) Hf Hnew)).
Defined.

(** ** The queue, drained *)




Section Drained.
Variable rt : Runtime.
Variable config : Config.





End Drained.


(** ** Mentions of one entity in one document *)



(** ** A document that fails half way *)



Section Partial.
Variable rt : Runtime.


End Partial.


(** ** A chunk the server refuses *)

(** The document ids in the table after [insertDocument] are those there
    were and, when the server took the parameters, the one given. *)
Lemma insertDocument_stmt_doc_ids (doc : DocumentInsert) (d : LoaderDB) k :
  k ∈ (fun r => d_doc_id (f_row r)) <$> l_documents (insertDocument_stmt doc d).2 ->
  k ∈ (fun r => d_doc_id (f_row r)) <$> l_documents d
  \/ (k = n_docId doc /\ bind_error doc = None).
Proof.
  unfold insertDocument_stmt. destruct (bind_error doc) as [e|]; [by left|]. cbv zeta.
  destruct (_ <? _); [by left|]. destruct (List.find _ _) as [r|].
  - cbn [snd l_documents]. rewrite <- list_fmap_compose. intros Hk. left.
    erewrite list_fmap_ext; [exact Hk|]. intros i x _. cbn. by case_bool_decide.
  - case_bool_decide; cbn [snd l_documents]; [by left|].
    rewrite fmap_app. intros Hk. apply elem_of_app in Hk as [Hk|Hk]; [by left|].
    apply list_elem_of_singleton in Hk. right. by split.
Qed.

Lemma insertDocument_stmt_refused (doc : DocumentInsert) (d : LoaderDB) e :
  bind_error doc = Some e -> insertDocument_stmt doc d = (Err e, d).
Proof. intros H. unfold insertDocument_stmt. by rewrite H. Qed.

(** The loader after the chunks [pre], whatever the file and the table: a
    document id in the table was there or is the id of a first chunk the
    server took, and a first chunk it refused has been counted. *)
Lemma loader_refusals_fold d chunks pre st :
  seenDocs st = list_to_set (DocumentChunk.docId <$> pre) ->
  0 <= l_errors st ->
  (forall k, k ∈ (fun r => d_doc_id (f_row r)) <$> l_documents (l_db st) ->
     k ∈ (fun r => d_doc_id (f_row r)) <$> l_documents d
     \/ exists c, first_chunk pre c /\ DocumentChunk.docId c = k
                  /\ bind_error (chunk_insert c) = None) ->
  (forall c, first_chunk pre c -> bind_error (chunk_insert c) <> None -> 0 < l_errors st) ->
  (forall k, k ∈ (fun r => d_doc_id (f_row r))
                   <$> l_documents (l_db (fold_left load_chunk chunks st)) ->
     k ∈ (fun r => d_doc_id (f_row r)) <$> l_documents d
     \/ exists c, first_chunk (pre ++ chunks) c /\ DocumentChunk.docId c = k
                  /\ bind_error (chunk_insert c) = None)
  /\ (forall c, first_chunk (pre ++ chunks) c -> bind_error (chunk_insert c) <> None ->
        0 < l_errors (fold_left load_chunk chunks st)).
Proof.
  revert pre st. induction chunks as [|c chunks IH]; intros pre st Hseen Hpos Hrows Herr.
  { rewrite app_nil_r. by split. }
  cbn [fold_left]. rewrite (cons_middle c pre chunks), app_assoc.
  assert (Hseen_iff : DocumentChunk.docId c ∈ seenDocs st
                      <-> DocumentChunk.docId c ∈ DocumentChunk.docId <$> pre).
  { rewrite Hseen. apply elem_of_list_to_set. }
  assert (Hmono : forall k,
            (k ∈ (fun r => d_doc_id (f_row r)) <$> l_documents d
             \/ exists c', first_chunk pre c' /\ DocumentChunk.docId c' = k
                           /\ bind_error (chunk_insert c') = None) ->
            k ∈ (fun r => d_doc_id (f_row r)) <$> l_documents d
            \/ exists c', first_chunk (pre ++ [c]) c' /\ DocumentChunk.docId c' = k
                          /\ bind_error (chunk_insert c') = None).
  { intros k [H|(c' & Hf & Hk & Hb)]; [by left|]. right. exists c'.
    split; [by apply first_chunk_snoc|done]. }
  apply IH; unfold load_chunk; case_bool_decide as Hin; cbv zeta.
  - rewrite fmap_app, list_to_set_app_L, <- Hseen. cbn. rewrite union_empty_r_L.
    symmetry. rewrite union_comm_L. apply subseteq_union_1_L. by apply singleton_subseteq_l.
  - fold (chunk_insert c).
    destruct (insertDocument_stmt (chunk_insert c) (l_db st)) as [[i|e] d'];
      cbn [seenDocs]; rewrite fmap_app, list_to_set_app_L, <- Hseen; cbn;
      rewrite union_empty_r_L; apply union_comm_L.
  - done.
  - fold (chunk_insert c).
    destruct (insertDocument_stmt (chunk_insert c) (l_db st)) as [[i|e] d'];
      cbn [l_errors]; lia.
  - intros k Hk. by apply Hmono, Hrows.
  - fold (chunk_insert c). intros k Hk.
    assert (Hk' : k ∈ (fun r => d_doc_id (f_row r))
                        <$> l_documents (insertDocument_stmt (chunk_insert c) (l_db st)).2).
    { by destruct (insertDocument_stmt (chunk_insert c) (l_db st)) as [[i|e] d']. }
    apply insertDocument_stmt_doc_ids in Hk' as [Hk'|[-> Hb]]; [by apply Hmono, Hrows|].
    right. exists c. split; [|done]. apply first_chunk_last. intros H. by apply Hin, Hseen_iff.
  - intros c' Hf Hb. apply first_chunk_snoc_inv in Hf as [Hf|[-> Hnot]]; [by eapply Herr|].
    exfalso. by apply Hnot, Hseen_iff.
  - fold (chunk_insert c). intros c' Hf Hb.
    apply first_chunk_snoc_inv in Hf as [Hf|[-> Hnot]].
    + specialize (Herr c' Hf Hb).
      destruct (insertDocument_stmt (chunk_insert c) (l_db st)) as [[i|e] d'];
        cbn [l_errors]; lia.
    + destruct (bind_error (chunk_insert c)) as [e|] eqn:He; [|done].
      rewrite (insertDocument_stmt_refused _ _ e He). cbn [l_errors]. lia.
Qed.

(** A document whose first chunk the server refuses is lost for the run.
    The loader puts a document id into [seenDocs] before it inserts the
    chunk, so when the text of the first chunk of an id has a character of
    code 0, the insert is rejected and counted as an error, every later chunk
    of that id is skipped, whatever its text, and a document the table did
    not hold is not in the table after the run. *)
Theorem loader_main_refused_chunk_not_retried (ls : list string) (d : LoaderDB)
    (c : DocumentChunk.t) :
  first_chunk (readDocuments ls) c ->
  text_ok (join nl (DocumentChunk.lines c)) = false ->
  DocumentChunk.docId c ∉ (fun r => d_doc_id (f_row r)) <$> l_documents d ->
  (DocumentChunk.docId c
     ∉ (fun r => d_doc_id (f_row r)) <$> l_documents (l_db (loader_main ls d)))
  /\ 0 < l_errors (loader_main ls d).
Proof.
  intros Hf Htext Hnew.
  assert (Hb : bind_error (chunk_insert c) <> None).
  { unfold bind_error, chunk_insert.
    cbn [n_docId n_datasetId n_filePath n_fullText n_pageCount from_option].
    rewrite Htext, getDatasetId_int4. by destruct (text_ok (DocumentChunk.docId c)). }
  destruct (loader_refusals_fold d (readDocuments ls) [] (mkLoaderState d 0 0 ∅))
    as [Hrows Herr]; [done|done|by left| |].
  { intros c' (p & q & Hsplit & _). by destruct p. }
  unfold loader_main. cbn [app] in Hrows, Herr. split; [|by eapply Herr].
  intros Hk. apply Hrows in Hk as [Hk|(c' & Hf' & Hk & Hb')]; [done|].
  assert (c' = c) as ->; [|done].
  by apply (first_chunk_unique (readDocuments ls)).
Qed.

Lemma loader_main_refused_chunk_not_retried_example :
  readDocuments nul_file
  = [DocumentChunk.mk "EFTA00000001" [String "000" "Flight log"];
     DocumentChunk.mk "EFTA00000001" ["Flight log"]]
  /\ ("EFTA00000001"
        ∉ (fun r => d_doc_id (f_row r))
            <$> l_documents (l_db (loader_main nul_file (mkLoaderDB [] 1))))
  /\ 0 < l_errors (loader_main nul_file (mkLoaderDB [] 1)).
Proof.
  split; [reflexivity|].
  refine (loader_main_refused_chunk_not_retried nul_file (mkLoaderDB [] 1)
            (DocumentChunk.mk "EFTA00000001" [String "000" "Flight log"]) _ eq_refl _).
  - exists [], [DocumentChunk.mk "EFTA00000001" ["Flight log"]].
    split; [reflexivity|]. apply not_elem_of_nil.
  - apply not_elem_of_nil.
Defined.
